(** * Health Symptom Checker: the retrieval and analysis core

    A shallow embedding of the backend services
    ([services/pdf_service.py], [services/pinecone_service.py],
    [services/llm_service.py]) and the properties of the chunker, the
    embedder's hash fallback, the vector retriever, the model invoker and
    the response parser.

    Conventions of the embedding.
    - A Python [str] is a list of Unicode code points ([N]); [len] is
      [length].  White space, case and decimal digits follow the
      character database of CPython 3.11 (Unicode 14.0); case mapping is
      exact wherever an ASCII character is involved.
    - Python [int]s are [Z]; slices follow CPython's index adjustment,
      negative indices included.
    - A call that may raise returns a [result]; a loop that may not
      terminate takes fuel and returns [None] when the fuel is spent.
    - Printing and logging are left out. *)

From Stdlib Require Import ZArith NArith List Lia Bool String Ascii QArith.
From Stdlib Require Import DecimalString DecimalNat.
From stdpp Require Import gmap.
Import ListNotations.

#[local] Open Scope Z_scope.

(** ** Python values *)

Module Py.

(** A [str] is a sequence of code points. *)
Abbreviation char := N (only parsing).
Abbreviation str := (list N) (only parsing).

(** A literal of the source, whose characters are all ASCII. *)
Definition lit (s : string) : str :=
  map (fun a => N_of_ascii a) (list_ascii_of_string s).

Definition len {A} (l : list A) : Z := Z.of_nat (length l).

(** Exceptions, by class. *)
Inductive exn : Type :=
| ValueError (msg : str)
| ImportError
| UnicodeEncodeError
| Exception (msg : str).

Inductive result (A : Type) : Type :=
| Ok (a : A)
| Raise (e : exn).
Arguments Ok {A} a.
Arguments Raise {A} e.

Definition bind {A B} (r : result A) (k : A -> result B) : result B :=
  match r with
  | Ok a => k a
  | Raise e => Raise e
  end.

(** [try: body except Exception: handler]. *)
Definition try_except {A} (body : result A) (handler : exn -> result A)
  : result A :=
  match body with
  | Ok a => Ok a
  | Raise e => handler e
  end.

(** *** Slices *)

(** CPython's adjustment of one slice bound for a sequence of length
    [n] and step 1. *)
Definition adjust (n i : Z) : Z :=
  if i <? 0 then Z.max (i + n) 0 else Z.min i n.

(** [l[start:stop]]. *)
Definition slice {A} (l : list A) (start stop : Z) : list A :=
  let a := adjust (len l) start in
  let b := adjust (len l) stop in
  firstn (Z.to_nat (b - a)) (skipn (Z.to_nat a) l).

(** [l[:stop]]. *)
Definition slice_to {A} (l : list A) (stop : Z) : list A :=
  slice l 0 stop.

(** *** Characters *)

Definition in_range (lo hi c : N) : bool := ((lo <=? c) && (c <=? hi))%N.

(** [str.isspace] on one character, which is also the class [\s] of
    [re] on [str] patterns. *)
Definition isspace (c : N) : bool :=
  in_range 9 13 c || in_range 28 32 c || (c =? 133)%N || (c =? 160)%N
  || (c =? 5760)%N || in_range 8192 8202 c || (c =? 8232)%N
  || (c =? 8233)%N || (c =? 8239)%N || (c =? 8287)%N || (c =? 12288)%N.

Definition is_ascii_upper (c : N) : bool := in_range 65 90 c.
Definition is_ascii_lower (c : N) : bool := in_range 97 122 c.

(** The ASCII digits, as JSON and hexadecimal numerals have them. *)
Definition isdigit (c : N) : bool := in_range 48 57 c.

(** The value of a hexadecimal digit. *)
Definition hex_value (c : N) : option Z :=
  if isdigit c then Some (Z.of_N c - 48)
  else if in_range 97 102 c then Some (Z.of_N c - 87)
  else if in_range 65 70 c then Some (Z.of_N c - 55)
  else None.

(** *** The character database (Unicode 14.0, as CPython 3.11 has it)

    A table lists runs [(first, last, step)] of code points. *)

Definition in_runs (runs : list (N * N * N)) (c : N) : bool :=
  existsb (fun '(first, last, step) =>
             in_range first last c && ((c - first) mod step =? 0)%N)
          runs.

(** The upper-case characters ([Py_UNICODE_ISUPPER]). *)
Definition uppercase : list (N * N * N) :=
  [(65, 90, 1); (192, 214, 1); (216, 222, 1); (256, 310, 2); (313, 327, 2);
   (330, 374, 2); (376, 377, 1); (379, 381, 2); (385, 386, 1);
   (388, 388, 1); (390, 391, 1); (393, 395, 1); (398, 401, 1);
   (403, 404, 1); (406, 408, 1); (412, 413, 1); (415, 416, 1);
   (418, 420, 2); (422, 423, 1); (425, 425, 1); (428, 428, 1);
   (430, 431, 1); (433, 435, 1); (437, 437, 1); (439, 440, 1);
   (444, 444, 1); (452, 452, 1); (455, 455, 1); (458, 458, 1);
   (461, 475, 2); (478, 494, 2); (497, 497, 1); (500, 500, 1);
   (502, 504, 1); (506, 562, 2); (570, 571, 1); (573, 574, 1);
   (577, 577, 1); (579, 582, 1); (584, 590, 2); (880, 882, 2);
   (886, 886, 1); (895, 895, 1); (902, 902, 1); (904, 906, 1);
   (908, 908, 1); (910, 911, 1); (913, 929, 1); (931, 939, 1);
   (975, 975, 1); (978, 980, 1); (984, 1006, 2); (1012, 1012, 1);
   (1015, 1015, 1); (1017, 1018, 1); (1021, 1071, 1); (1120, 1152, 2);
   (1162, 1214, 2); (1216, 1217, 1); (1219, 1229, 2); (1232, 1326, 2);
   (1329, 1366, 1); (4256, 4293, 1); (4295, 4295, 1); (4301, 4301, 1);
   (5024, 5109, 1); (7312, 7354, 1); (7357, 7359, 1); (7680, 7828, 2);
   (7838, 7934, 2); (7944, 7951, 1); (7960, 7965, 1); (7976, 7983, 1);
   (7992, 7999, 1); (8008, 8013, 1); (8025, 8031, 2); (8040, 8047, 1);
   (8120, 8123, 1); (8136, 8139, 1); (8152, 8155, 1); (8168, 8172, 1);
   (8184, 8187, 1); (8450, 8450, 1); (8455, 8455, 1); (8459, 8461, 1);
   (8464, 8466, 1); (8469, 8469, 1); (8473, 8477, 1); (8484, 8488, 2);
   (8490, 8493, 1); (8496, 8499, 1); (8510, 8511, 1); (8517, 8517, 1);
   (8544, 8559, 1); (8579, 8579, 1); (9398, 9423, 1); (11264, 11311, 1);
   (11360, 11360, 1); (11362, 11364, 1); (11367, 11371, 2);
   (11373, 11376, 1); (11378, 11378, 1); (11381, 11381, 1);
   (11390, 11392, 1); (11394, 11490, 2); (11499, 11501, 2);
   (11506, 11506, 1); (42560, 42604, 2); (42624, 42650, 2);
   (42786, 42798, 2); (42802, 42862, 2); (42873, 42875, 2);
   (42877, 42878, 1); (42880, 42886, 2); (42891, 42893, 2);
   (42896, 42898, 2); (42902, 42920, 2); (42922, 42926, 1);
   (42928, 42932, 1); (42934, 42946, 2); (42948, 42951, 1);
   (42953, 42953, 1); (42960, 42960, 1); (42966, 42968, 2);
   (42997, 42997, 1); (65313, 65338, 1); (66560, 66599, 1);
   (66736, 66771, 1); (66928, 66938, 1); (66940, 66954, 1);
   (66956, 66962, 1); (66964, 66965, 1); (68736, 68786, 1);
   (71840, 71871, 1); (93760, 93791, 1); (119808, 119833, 1);
   (119860, 119885, 1); (119912, 119937, 1); (119964, 119964, 1);
   (119966, 119967, 1); (119970, 119970, 1); (119973, 119974, 1);
   (119977, 119980, 1); (119982, 119989, 1); (120016, 120041, 1);
   (120068, 120069, 1); (120071, 120074, 1); (120077, 120084, 1);
   (120086, 120092, 1); (120120, 120121, 1); (120123, 120126, 1);
   (120128, 120132, 1); (120134, 120134, 1); (120138, 120144, 1);
   (120172, 120197, 1); (120224, 120249, 1); (120276, 120301, 1);
   (120328, 120353, 1); (120380, 120405, 1); (120432, 120457, 1);
   (120488, 120512, 1); (120546, 120570, 1); (120604, 120628, 1);
   (120662, 120686, 1); (120720, 120744, 1); (120778, 120778, 1);
   (125184, 125217, 1); (127280, 127305, 1); (127312, 127337, 1);
   (127344, 127369, 1)]%N.

(** The lower-case characters ([Py_UNICODE_ISLOWER]). *)
Definition lowercase : list (N * N * N) :=
  [(97, 122, 1); (170, 170, 1); (181, 181, 1); (186, 186, 1);
   (223, 246, 1); (248, 255, 1); (257, 309, 2); (311, 312, 1);
   (314, 326, 2); (328, 329, 1); (331, 375, 2); (378, 380, 2);
   (382, 384, 1); (387, 389, 2); (392, 392, 1); (396, 397, 1);
   (402, 402, 1); (405, 405, 1); (409, 411, 1); (414, 414, 1);
   (417, 421, 2); (424, 424, 1); (426, 427, 1); (429, 429, 1);
   (432, 432, 1); (436, 438, 2); (441, 442, 1); (445, 447, 1);
   (454, 454, 1); (457, 457, 1); (460, 474, 2); (476, 477, 1);
   (479, 493, 2); (495, 496, 1); (499, 501, 2); (505, 561, 2);
   (563, 569, 1); (572, 572, 1); (575, 576, 1); (578, 578, 1);
   (583, 589, 2); (591, 659, 1); (661, 696, 1); (704, 705, 1);
   (736, 740, 1); (837, 837, 1); (881, 883, 2); (887, 887, 1);
   (890, 893, 1); (912, 912, 1); (940, 974, 1); (976, 977, 1);
   (981, 983, 1); (985, 1005, 2); (1007, 1011, 1); (1013, 1013, 1);
   (1016, 1016, 1); (1019, 1020, 1); (1072, 1119, 1); (1121, 1153, 2);
   (1163, 1215, 2); (1218, 1228, 2); (1230, 1231, 1); (1233, 1327, 2);
   (1376, 1416, 1); (4304, 4346, 1); (4349, 4351, 1); (5112, 5117, 1);
   (7296, 7304, 1); (7424, 7615, 1); (7681, 7827, 2); (7829, 7837, 1);
   (7839, 7933, 2); (7935, 7943, 1); (7952, 7957, 1); (7968, 7975, 1);
   (7984, 7991, 1); (8000, 8005, 1); (8016, 8023, 1); (8032, 8039, 1);
   (8048, 8061, 1); (8064, 8071, 1); (8080, 8087, 1); (8096, 8103, 1);
   (8112, 8116, 1); (8118, 8119, 1); (8126, 8126, 1); (8130, 8132, 1);
   (8134, 8135, 1); (8144, 8147, 1); (8150, 8151, 1); (8160, 8167, 1);
   (8178, 8180, 1); (8182, 8183, 1); (8305, 8305, 1); (8319, 8319, 1);
   (8336, 8348, 1); (8458, 8458, 1); (8462, 8463, 1); (8467, 8467, 1);
   (8495, 8495, 1); (8500, 8500, 1); (8505, 8505, 1); (8508, 8509, 1);
   (8518, 8521, 1); (8526, 8526, 1); (8560, 8575, 1); (8580, 8580, 1);
   (9424, 9449, 1); (11312, 11359, 1); (11361, 11361, 1);
   (11365, 11366, 1); (11368, 11372, 2); (11377, 11377, 1);
   (11379, 11380, 1); (11382, 11389, 1); (11393, 11489, 2);
   (11491, 11492, 1); (11500, 11502, 2); (11507, 11507, 1);
   (11520, 11557, 1); (11559, 11559, 1); (11565, 11565, 1);
   (42561, 42605, 2); (42625, 42649, 2); (42651, 42653, 1);
   (42787, 42797, 2); (42799, 42801, 1); (42803, 42861, 2);
   (42863, 42872, 1); (42874, 42876, 2); (42879, 42887, 2);
   (42892, 42894, 2); (42897, 42897, 1); (42899, 42901, 1);
   (42903, 42921, 2); (42927, 42927, 1); (42933, 42947, 2);
   (42952, 42954, 2); (42961, 42969, 2); (42998, 42998, 1);
   (43000, 43002, 1); (43824, 43866, 1); (43868, 43880, 1);
   (43888, 43967, 1); (64256, 64262, 1); (64275, 64279, 1);
   (65345, 65370, 1); (66600, 66639, 1); (66776, 66811, 1);
   (66967, 66977, 1); (66979, 66993, 1); (66995, 67001, 1);
   (67003, 67004, 1); (67456, 67456, 1); (67459, 67461, 1);
   (67463, 67504, 1); (67506, 67514, 1); (68800, 68850, 1);
   (71872, 71903, 1); (93792, 93823, 1); (119834, 119859, 1);
   (119886, 119892, 1); (119894, 119911, 1); (119938, 119963, 1);
   (119990, 119993, 1); (119995, 119995, 1); (119997, 120003, 1);
   (120005, 120015, 1); (120042, 120067, 1); (120094, 120119, 1);
   (120146, 120171, 1); (120198, 120223, 1); (120250, 120275, 1);
   (120302, 120327, 1); (120354, 120379, 1); (120406, 120431, 1);
   (120458, 120485, 1); (120514, 120538, 1); (120540, 120545, 1);
   (120572, 120596, 1); (120598, 120603, 1); (120630, 120654, 1);
   (120656, 120661, 1); (120688, 120712, 1); (120714, 120719, 1);
   (120746, 120770, 1); (120772, 120777, 1); (120779, 120779, 1);
   (122624, 122633, 1); (122635, 122654, 1); (125218, 125251, 1)]%N.

(** The title-case characters ([Py_UNICODE_ISTITLE]). *)
Definition titlecase : list (N * N * N) :=
  [(453, 453, 1); (456, 456, 1); (459, 459, 1); (498, 498, 1);
   (8072, 8079, 1); (8088, 8095, 1); (8104, 8111, 1); (8124, 8124, 1);
   (8140, 8140, 1); (8188, 8188, 1)]%N.

(** The decimal digits ([Py_UNICODE_ISDECIMAL]), which are the class [\d] of [re] on [str] patterns. *)
Definition decimal : list (N * N * N) :=
  [(48, 57, 1); (1632, 1641, 1); (1776, 1785, 1); (1984, 1993, 1);
   (2406, 2415, 1); (2534, 2543, 1); (2662, 2671, 1); (2790, 2799, 1);
   (2918, 2927, 1); (3046, 3055, 1); (3174, 3183, 1); (3302, 3311, 1);
   (3430, 3439, 1); (3558, 3567, 1); (3664, 3673, 1); (3792, 3801, 1);
   (3872, 3881, 1); (4160, 4169, 1); (4240, 4249, 1); (6112, 6121, 1);
   (6160, 6169, 1); (6470, 6479, 1); (6608, 6617, 1); (6784, 6793, 1);
   (6800, 6809, 1); (6992, 7001, 1); (7088, 7097, 1); (7232, 7241, 1);
   (7248, 7257, 1); (42528, 42537, 1); (43216, 43225, 1);
   (43264, 43273, 1); (43472, 43481, 1); (43504, 43513, 1);
   (43600, 43609, 1); (44016, 44025, 1); (65296, 65305, 1);
   (66720, 66729, 1); (68912, 68921, 1); (69734, 69743, 1);
   (69872, 69881, 1); (69942, 69951, 1); (70096, 70105, 1);
   (70384, 70393, 1); (70736, 70745, 1); (70864, 70873, 1);
   (71248, 71257, 1); (71360, 71369, 1); (71472, 71481, 1);
   (71904, 71913, 1); (72016, 72025, 1); (72784, 72793, 1);
   (73040, 73049, 1); (73120, 73129, 1); (92768, 92777, 1);
   (92864, 92873, 1); (93008, 93017, 1); (120782, 120831, 1);
   (123200, 123209, 1); (123632, 123641, 1); (125264, 125273, 1);
   (130032, 130041, 1)]%N.


Definition is_uppercase (c : N) : bool := in_runs uppercase c.
Definition is_lowercase (c : N) : bool := in_runs lowercase c.
Definition is_titlecase (c : N) : bool := in_runs titlecase c.
Definition is_decimal (c : N) : bool := in_runs decimal c.

(** [s.isupper()]: no lower-case and no title-case character, and an
    upper-case one. *)
Definition isupper (s : str) : bool :=
  existsb is_uppercase s
  && negb (existsb (fun c => is_lowercase c || is_titlecase c) s).

(** *** Case mapping

    The program compares the outcome of [str.lower] and [str.upper] with
    ASCII literals only, at given positions.  The two functions below
    give a string of the length of Python's, with the same character
    wherever Python's or theirs is an ASCII character.  A character
    outside ASCII whose mapping is one character outside ASCII is kept
    as it is. *)

Definition lower_char (c : N) : N :=
  if is_ascii_upper c then (c + 32)%N else c.
Definition upper_char (c : N) : N :=
  if is_ascii_lower c then (c - 32)%N else c.

(** [str.lower] on one character: U+0130 becomes [i] and a combining
    dot, the Kelvin sign U+212A becomes [k]; no other character outside
    ASCII gives an ASCII character or more than one character. *)
Definition lower_chars (c : N) : str :=
  if (c =? 0x130)%N then [105; 0x307]%N
  else if (c =? 0x212A)%N then [107%N]
  else [lower_char c].

(** The characters whose upper case is not one character outside ASCII:
    those [str.upper] turns into several characters, and the two it
    turns into an ASCII letter. *)
Definition upper_special : list (N * list N) :=
  [(223, [83; 83]); (305, [73]); (329, [700; 78]); (383, [83]);
   (496, [74; 780]); (912, [921; 776; 769]); (944, [933; 776; 769]);
   (1415, [1333; 1362]); (7830, [72; 817]); (7831, [84; 776]);
   (7832, [87; 778]); (7833, [89; 778]); (7834, [65; 702]);
   (8016, [933; 787]); (8018, [933; 787; 768]); (8020, [933; 787; 769]);
   (8022, [933; 787; 834]); (8064, [7944; 921]); (8065, [7945; 921]);
   (8066, [7946; 921]); (8067, [7947; 921]); (8068, [7948; 921]);
   (8069, [7949; 921]); (8070, [7950; 921]); (8071, [7951; 921]);
   (8072, [7944; 921]); (8073, [7945; 921]); (8074, [7946; 921]);
   (8075, [7947; 921]); (8076, [7948; 921]); (8077, [7949; 921]);
   (8078, [7950; 921]); (8079, [7951; 921]); (8080, [7976; 921]);
   (8081, [7977; 921]); (8082, [7978; 921]); (8083, [7979; 921]);
   (8084, [7980; 921]); (8085, [7981; 921]); (8086, [7982; 921]);
   (8087, [7983; 921]); (8088, [7976; 921]); (8089, [7977; 921]);
   (8090, [7978; 921]); (8091, [7979; 921]); (8092, [7980; 921]);
   (8093, [7981; 921]); (8094, [7982; 921]); (8095, [7983; 921]);
   (8096, [8040; 921]); (8097, [8041; 921]); (8098, [8042; 921]);
   (8099, [8043; 921]); (8100, [8044; 921]); (8101, [8045; 921]);
   (8102, [8046; 921]); (8103, [8047; 921]); (8104, [8040; 921]);
   (8105, [8041; 921]); (8106, [8042; 921]); (8107, [8043; 921]);
   (8108, [8044; 921]); (8109, [8045; 921]); (8110, [8046; 921]);
   (8111, [8047; 921]); (8114, [8122; 921]); (8115, [913; 921]);
   (8116, [902; 921]); (8118, [913; 834]); (8119, [913; 834; 921]);
   (8124, [913; 921]); (8130, [8138; 921]); (8131, [919; 921]);
   (8132, [905; 921]); (8134, [919; 834]); (8135, [919; 834; 921]);
   (8140, [919; 921]); (8146, [921; 776; 768]); (8147, [921; 776; 769]);
   (8150, [921; 834]); (8151, [921; 776; 834]); (8162, [933; 776; 768]);
   (8163, [933; 776; 769]); (8164, [929; 787]); (8166, [933; 834]);
   (8167, [933; 776; 834]); (8178, [8186; 921]); (8179, [937; 921]);
   (8180, [911; 921]); (8182, [937; 834]); (8183, [937; 834; 921]);
   (8188, [937; 921]); (64256, [70; 70]); (64257, [70; 73]);
   (64258, [70; 76]); (64259, [70; 70; 73]); (64260, [70; 70; 76]);
   (64261, [83; 84]); (64262, [83; 84]); (64275, [1348; 1350]);
   (64276, [1348; 1333]); (64277, [1348; 1339]); (64278, [1358; 1350]);
   (64279, [1348; 1341])]%N.

Fixpoint assoc {A} (k : N) (l : list (N * A)) : option A :=
  match l with
  | [] => None
  | (k', v) :: l' => if (k =? k')%N then Some v else assoc k l'
  end.

(** [str.upper] on one character. *)
Definition upper_chars (c : N) : str :=
  match assoc c upper_special with
  | Some u => u
  | None => [upper_char c]
  end.

Definition lower (s : str) : str := flat_map lower_chars s.
Definition upper (s : str) : str := flat_map upper_chars s.

(** The ASCII letter a character counts as under [re.IGNORECASE], which
    compares the lower case of single characters and pairs [i] with the
    dotless i and [s] with the long s; a character that counts as none
    is kept. *)
Definition ignorecase_char (c : N) : N :=
  if (c =? 0x130)%N || (c =? 0x131)%N then 105%N
  else if (c =? 0x17F)%N then 115%N
  else if (c =? 0x212A)%N then 107%N
  else lower_char c.

(** *** Searching and trimming *)

Fixpoint lstrip (s : str) : str :=
  match s with
  | [] => []
  | c :: s' => if isspace c then lstrip s' else s
  end.

Definition rstrip (s : str) : str := rev (lstrip (rev s)).

Definition strip (s : str) : str := rstrip (lstrip s).

Fixpoint rfind_from (c : N) (s : str) (i acc : Z) : Z :=
  match s with
  | [] => acc
  | x :: s' => rfind_from c s' (i + 1) (if (x =? c)%N then i else acc)
  end.

(** [s.rfind(c)] for a one-character needle: the last index, or -1. *)
Definition rfind (s : str) (c : N) : Z := rfind_from c s 0 (-1).

Fixpoint startswith (s p : str) : bool :=
  match p, s with
  | [], _ => true
  | _ :: _, [] => false
  | x :: p', y :: s' => (x =? y)%N && startswith s' p'
  end.

(** [p in s] for strings. *)
Fixpoint contains (s p : str) : bool :=
  startswith s p ||
  match s with
  | [] => false
  | _ :: s' => contains s' p
  end.

Fixpoint split_from (sep : N) (s cur : str) : list str :=
  match s with
  | [] => [rev cur]
  | c :: s' =>
      if (c =? sep)%N then rev cur :: split_from sep s' []
      else split_from sep s' (c :: cur)
  end.

(** [s.split(sep)] for a one-character separator. *)
Definition split (s : str) (sep : N) : list str := split_from sep s [].

(** [s.replace(a, b)] for one-character [a] and [b]. *)
Definition replace (s : str) (a b : N) : str :=
  map (fun c => if (c =? a)%N then b else c) s.

End Py.

Import Py.

(** ** The chunker ([PDFService.chunk_text]) *)

Module Chunker.

Definition dot : N := 46.
Definition newline : N := 10.

(** One pass of the [while] body at [start]: the chunk cut (before it
    is stripped) and the window's end.  [break_point > chunk_size * 0.5]
    compares an [int] with a [float]; the comparison is exact, and so is
    the product for the sizes a text can have, hence [2 * break_point >
    chunk_size]. *)
Definition window (text : str) (chunk_size start : Z) : str * Z :=
  let end_ := start + chunk_size in
  let chunk := slice text start end_ in
  if end_ <? len text then
    let last_period := rfind chunk dot in
    let last_newline := rfind chunk newline in
    let break_point := Z.max last_period last_newline in
    if chunk_size <? 2 * break_point then
      (slice_to chunk (break_point + 1), start + break_point + 1)
    else (chunk, end_)
  else (chunk, end_).

(** The [while start < len(text)] loop. *)
Fixpoint chunk_loop (fuel : nat) (text : str) (chunk_size overlap : Z)
    (start : Z) (chunks : list str) : option (list str) :=
  if start <? len text then
    match fuel with
    | O => None
    | S fuel' =>
        let '(chunk, end_) := window text chunk_size start in
        chunk_loop fuel' text chunk_size overlap (end_ - overlap)
          (chunks ++ [strip chunk])
    end
  else Some chunks.

Definition chunk_text (fuel : nat) (text : str) (chunk_size overlap : Z)
  : option (result (list str)) :=
  if len text <=? chunk_size then Some (Ok [text])
  else
    match chunk_loop fuel text chunk_size overlap 0 [] with
    | Some chunks => Some (Ok chunks)
    | None => None
    end.

(** The call never comes back, whatever the fuel. *)
Definition never_returns {A} (run : nat -> option A) : Prop :=
  forall fuel, run fuel = None.

(** The call raises after finitely many steps. *)
Definition fails_fast {A} (run : nat -> option (result A)) : Prop :=
  exists fuel e, run fuel = Some (Raise e).

(** The windows the loop cuts, before they are stripped. *)
Fixpoint windows_from (fuel : nat) (text : str) (chunk_size overlap : Z)
    (start : Z) : option (list str) :=
  if start <? len text then
    match fuel with
    | O => None
    | S fuel' =>
        let '(chunk, end_) := window text chunk_size start in
        match windows_from fuel' text chunk_size overlap (end_ - overlap) with
        | Some ws => Some (chunk :: ws)
        | None => None
        end
    end
  else Some [].

(** The first window whole, every later one without its first
    [overlap] characters. *)
Definition reassemble (overlap : Z) (ws : list str) : str :=
  match ws with
  | [] => []
  | w :: rest => w ++ concat (map (skipn (Z.to_nat overlap)) rest)
  end.

End Chunker.

(** ** SHA-256 and UTF-8, as [hashlib.sha256(text.encode())] uses them *)

Module Sha256.

Definition mask32 : Z := 0xFFFFFFFF.
Definition add32 (x y : Z) : Z := Z.land (x + y) mask32.
Definition rotr (n x : Z) : Z :=
  Z.land (Z.lor (Z.shiftr x n) (Z.shiftl x (32 - n))) mask32.
Definition shr (n x : Z) : Z := Z.shiftr x n.
Definition not32 (x : Z) : Z := Z.lxor x mask32.

Definition Ch (x y z : Z) : Z :=
  Z.lxor (Z.land x y) (Z.land (not32 x) z).
Definition Maj (x y z : Z) : Z :=
  Z.lxor (Z.lxor (Z.land x y) (Z.land x z)) (Z.land y z).
Definition Sigma0 (x : Z) : Z :=
  Z.lxor (Z.lxor (rotr 2 x) (rotr 13 x)) (rotr 22 x).
Definition Sigma1 (x : Z) : Z :=
  Z.lxor (Z.lxor (rotr 6 x) (rotr 11 x)) (rotr 25 x).
Definition sigma0 (x : Z) : Z :=
  Z.lxor (Z.lxor (rotr 7 x) (rotr 18 x)) (shr 3 x).
Definition sigma1 (x : Z) : Z :=
  Z.lxor (Z.lxor (rotr 17 x) (rotr 19 x)) (shr 10 x).

(** The first [n] primes, by trial division. *)
Definition is_prime (n : nat) : bool :=
  forallb (fun d => negb (Nat.eqb (n mod d) 0)) (seq 2 (n - 2)).

Definition primes (n : nat) : list Z :=
  map Z.of_nat (firstn n (filter is_prime (seq 2 400))).

(** The integer cube root of a number below [2 ^ 105], bit by bit. *)
Definition icbrt (n : Z) : Z :=
  fold_left (fun r b => let r' := r + Z.shiftl 1 (Z.of_nat b) in
                        if r' * r' * r' <=? n then r' else r)
            (rev (seq 0 35)) 0.

(** The round constants: the first 32 bits of the fractional parts of
    the cube roots of the first 64 primes. *)
Definition K : list Z :=
  Eval vm_compute in
    map (fun p => Z.land (icbrt (Z.shiftl p 96)) mask32) (primes 64).

(** The eight working words. *)
Record state : Type := mk_state {
  ha : Z; hb : Z; hc : Z; hd : Z; he : Z; hf : Z; hg : Z; hh : Z
}.

(** The fractional part of a prime's square root, on 32 bits. *)
Definition frac_sqrt (p : Z) : Z := Z.land (Z.sqrt (Z.shiftl p 64)) mask32.

(** The initial hash value: the square roots of the first 8 primes. *)
Definition H0 : state :=
  Eval vm_compute in
    mk_state (frac_sqrt 2) (frac_sqrt 3) (frac_sqrt 5) (frac_sqrt 7)
             (frac_sqrt 11) (frac_sqrt 13) (frac_sqrt 17) (frac_sqrt 19).

(** Padding: a 1 bit, zeros up to 56 modulo 64, the bit length on
    eight bytes. *)
Definition be_bytes (n : nat) (x : Z) : list Z :=
  map (fun i => Z.land (Z.shiftr x (8 * Z.of_nat i)) 0xFF) (rev (seq 0 n)).

Definition pad (msg : list Z) : list Z :=
  let l := len msg in
  let zeros := Z.to_nat ((55 - l) mod 64) in
  msg ++ [0x80] ++ repeat 0 zeros ++ be_bytes 8 (8 * l).

Definition word_of (b3 b2 b1 b0 : Z) : Z :=
  Z.lor (Z.lor (Z.shiftl b3 24) (Z.shiftl b2 16))
        (Z.lor (Z.shiftl b1 8) b0).

Fixpoint words (n : nat) (bs : list Z) : list Z :=
  match n, bs with
  | S n', b3 :: b2 :: b1 :: b0 :: bs' => word_of b3 b2 b1 b0 :: words n' bs'
  | _, _ => []
  end.

(** The message schedule, most recent word first. *)
Fixpoint schedule (n : nat) (w : list Z) : list Z :=
  match n with
  | O => w
  | S n' =>
      let x := add32 (add32 (sigma1 (nth 1 w 0)) (nth 6 w 0))
                     (add32 (sigma0 (nth 14 w 0)) (nth 15 w 0)) in
      schedule n' (x :: w)
  end.

Definition round (s : state) (kw : Z * Z) : state :=
  let '(k, w) := kw in
  let t1 := add32 (add32 (add32 (hh s) (Sigma1 (he s)))
                         (add32 (Ch (he s) (hf s) (hg s)) k)) w in
  let t2 := add32 (Sigma0 (ha s)) (Maj (ha s) (hb s) (hc s)) in
  mk_state (add32 t1 t2) (ha s) (hb s) (hc s)
           (add32 (hd s) t1) (he s) (hf s) (hg s).

Definition compress (h : state) (block : list Z) : state :=
  let w := rev (schedule 48 (rev (words 16 block))) in
  let s := fold_left round (combine K w) h in
  mk_state (add32 (ha h) (ha s)) (add32 (hb h) (hb s))
           (add32 (hc h) (hc s)) (add32 (hd h) (hd s))
           (add32 (he h) (he s)) (add32 (hf h) (hf s))
           (add32 (hg h) (hg s)) (add32 (hh h) (hh s)).

Fixpoint blocks (n : nat) (h : state) (bs : list Z) : state :=
  match n with
  | O => h
  | S n' => blocks n' (compress h (firstn 64 bs)) (skipn 64 bs)
  end.

(** The 32 bytes of the digest. *)
Definition digest (msg : list Z) : list Z :=
  let p := pad msg in
  let h := blocks (length p / 64) H0 p in
  concat (map (be_bytes 4)
    [ha h; hb h; hc h; hd h; he h; hf h; hg h; hh h]).

Definition hex_char (d : Z) : N :=
  Z.to_N (if d <? 10 then 48 + d else 87 + d).

(** [hexdigest()]: two lower-case hexadecimal characters per byte. *)
Definition hexdigest (msg : list Z) : list N :=
  concat (map (fun b => [hex_char (Z.shiftr b 4); hex_char (Z.land b 15)])
              (digest msg)).

End Sha256.

Module Utf8.

Definition cont (x : Z) : Z := Z.lor 0x80 (Z.land x 0x3F).

(** One code point; a surrogate has no encoding. *)
Definition encode_char (c : N) : option (list Z) :=
  let z := Z.of_N c in
  if z <? 0x80 then Some [z]
  else if z <? 0x800 then
    Some [Z.lor 0xC0 (Z.shiftr z 6); cont z]
  else if (0xD800 <=? z) && (z <=? 0xDFFF) then None
  else if z <? 0x10000 then
    Some [Z.lor 0xE0 (Z.shiftr z 12); cont (Z.shiftr z 6); cont z]
  else if z <? 0x110000 then
    Some [Z.lor 0xF0 (Z.shiftr z 18); cont (Z.shiftr z 12);
          cont (Z.shiftr z 6); cont z]
  else None.

(** [text.encode()]. *)
Fixpoint encode (s : str) : result (list Z) :=
  match s with
  | [] => Ok []
  | c :: s' =>
      match encode_char c with
      | None => Raise UnicodeEncodeError
      | Some bs => bind (encode s') (fun rest => Ok (bs ++ rest))
      end
  end.

Definition encodable (s : str) : Prop :=
  forall c, In c s ->
    (c < 0x110000)%N /\ ~ (0xD800 <= c <= 0xDFFF)%N.

End Utf8.

(** ** The vector store and the embedder ([PineconeService]) *)

Module Pinecone.

(** A metadata value of a stored vector: a string, or something else
    (a number, a list, ...). *)
Inductive mval : Type :=
| MStr (s : str)
| MOther.

(** One entry of [results.matches]. *)
Record Match : Type := mk_match {
  metadata : option (gmap (list N) mval);
  score : Q
}.

(** A handle on a remote index; [query] is
    [index.query(vector, top_k, include_metadata=True).matches]. *)
Record Index : Type := mk_index {
  query : list Q -> Z -> result (list Match)
}.

(** The embedding model of [sentence_transformers]. *)
Record Model : Type := mk_model {
  encode : str -> result (list Q)
}.

(** What [from sentence_transformers import SentenceTransformer] finds:
    nothing ([ImportError]), or the constructor of a model by name. *)
Record Env : Type := mk_env {
  sentence_transformers : option (str -> result Model)
}.

(** The remote calls of the client. *)
Inductive remote_call : Type :=
| ListIndexes | DescribeIndexStats | DeleteIndex | CreateIndex | OpenIndex.

(** The Pinecone account: the dimension of each index by name, which
    calls fail, and the handle [pc.Index(name)] gives. *)
Record Client : Type := mk_client {
  indexes : gmap (list N) Z;
  fails : remote_call -> bool;
  handle : str -> Index
}.

Definition with_indexes (pc : Client) (m : gmap (list N) Z) : Client :=
  mk_client m (fails pc) (handle pc).

Definition call {A} (pc : Client) (c : remote_call) (r : A) : result A :=
  if fails pc c then Raise (Exception (lit "remote call failed")) else Ok r.

Record PineconeService : Type := mk_service {
  pc : Client;
  index_name : str;
  index : option Index;
  _embedding_model : option Model
}.

(** [pc.create_index(name, dimension=384, metric="cosine", ...)]. *)
Definition create_index (pc : Client) (name : str) : result Client :=
  call pc CreateIndex (with_indexes pc (<[name := 384]> (indexes pc))).

Definition delete_index (pc : Client) (name : str) : result Client :=
  call pc DeleteIndex (with_indexes pc (delete name (indexes pc))).

(** The inner [try] of [_initialize_index]: an index of another
    dimension is deleted and created again; a failure of the check is
    ignored ([except Exception: pass]) and keeps what was done before it. *)
Definition check_dimension (pc : Client) (name : str) : Client :=
  match bind (call pc OpenIndex (handle pc name)) (fun temp_index =>
          call pc DescribeIndexStats (default 1024 (indexes pc !! name)))
  with
  | Raise _ => pc
  | Ok index_dimension =>
      if index_dimension =? 384 then pc
      else
        match delete_index pc name with
        | Raise _ => pc
        | Ok pc1 =>
            match create_index pc1 name with
            | Raise _ => pc1
            | Ok pc2 => pc2
            end
        end
  end.

Definition _initialize_index (self : PineconeService) : PineconeService :=
  let name := index_name self in
  let body : result (Client * Index) :=
    bind (call (pc self) ListIndexes (indexes (pc self)))
      (fun existing_indexes =>
    bind (match existing_indexes !! name with
          | Some _ => Ok (check_dimension (pc self) name)
          | None => create_index (pc self) name
          end) (fun pc1 =>
    bind (call pc1 OpenIndex (handle pc1 name)) (fun ix =>
    Ok (pc1, ix)))) in
  match body with
  | Ok (pc1, ix) =>
      mk_service pc1 name (Some ix) (_embedding_model self)
  | Raise _ =>
      mk_service (pc self) name None (_embedding_model self)
  end.

(** [PineconeService()]. *)
Definition __init__ (pc : Client) (name : str) : PineconeService :=
  _initialize_index (mk_service pc name None None).

Definition get (m : gmap (list N) mval) (k : str) (d : mval) : mval :=
  default d (m !! k).

(** [if match.metadata]: neither [None] nor an empty dict. *)
Definition truthy (md : option (gmap (list N) mval))
  : option (gmap (list N) mval) :=
  match md with
  | Some m => if decide (m = ∅) then None else Some m
  | None => None
  end.

Record PdfContext : Type := mk_pdf_context {
  pc_text : mval; pc_pdf_name : mval; pc_score : Q
}.

Record SymptomContext : Type := mk_symptom_context {
  sc_symptoms : mval;
  sc_conditions : list str;
  sc_recommendations : list str;
  sc_score : Q
}.

Definition is_pdf (m : gmap (list N) mval) : bool :=
  match m !! lit "type" with
  | Some (MStr s) => bool_decide (s = lit "pdf")
  | _ => false
  end.

Definition search_pdf_content (self : PineconeService)
    (query_embedding : list Q) (top_k : Z) : result (list PdfContext) :=
  match index self with
  | None => Ok []
  | Some ix =>
      try_except
        (bind (query ix query_embedding top_k) (fun matches =>
         Ok (fold_left (fun contexts mt =>
               match truthy (metadata mt) with
               | Some m =>
                   if is_pdf m then
                     contexts ++
                     [mk_pdf_context (get m (lit "text") (MStr []))
                        (get m (lit "pdf_name") (MStr [])) (score mt)]
                   else contexts
               | None => contexts
               end) matches [])))
        (fun _ => Ok [])
  end.

(** [value.split(",")], an [AttributeError] off a string. *)
Definition split_commas (v : mval) : result (list str) :=
  match v with
  | MStr s => Ok (split s 44)
  | MOther => Raise (Exception (lit "object has no attribute 'split'"))
  end.

Fixpoint symptom_contexts (matches : list Match)
    (contexts : list SymptomContext) : result (list SymptomContext) :=
  match matches with
  | [] => Ok contexts
  | mt :: rest =>
      match truthy (metadata mt) with
      | Some m =>
          bind (split_commas (get m (lit "conditions") (MStr [])))
            (fun cs =>
          bind (split_commas (get m (lit "recommendations") (MStr [])))
            (fun rs =>
          symptom_contexts rest
            (contexts ++
             [mk_symptom_context (get m (lit "symptoms") (MStr []))
                cs rs (score mt)])))
      | None => symptom_contexts rest contexts
      end
  end.

Definition search_similar_symptoms (self : PineconeService)
    (embedding : list Q) (top_k : Z) : result (list SymptomContext) :=
  match index self with
  | None => Ok []
  | Some ix =>
      try_except
        (bind (query ix embedding top_k) (fun matches =>
         symptom_contexts matches []))
        (fun _ => Ok [])
  end.

(** *** [generate_embedding] *)

Fixpoint hex_digits (s : str) (acc : Z) : option Z :=
  match s with
  | [] => Some acc
  | c :: s' =>
      match hex_value c with
      | Some d => hex_digits s' (16 * acc + d)
      | None => None
      end
  end.

(** [int(s, 16)] on a string of hexadecimal digits; anything else this
    embedding meets (the empty string, another character) is a
    [ValueError]. *)
Definition int16 (s : str) : result Z :=
  match s with
  | [] => Raise (ValueError (lit "invalid literal for int() with base 16"))
  | _ =>
      match hex_digits s 0 with
      | Some n => Ok n
      | None =>
          Raise (ValueError (lit "invalid literal for int() with base 16"))
      end
  end.

(** [range(0, stop, 2)]. *)
Definition range2 (stop : Z) : list Z :=
  map (fun k => 2 * Z.of_nat k) (seq 0 (Z.to_nat ((stop + 1) / 2))).

Fixpoint for_each {A B} (f : A -> result B) (l : list A)
  : result (list B) :=
  match l with
  | [] => Ok []
  | x :: l' =>
      bind (f x) (fun y => bind (for_each f l') (fun ys => Ok (y :: ys)))
  end.

(** The [except ImportError] branch. *)
Definition hash_fallback (text : str) : result (list Q) :=
  bind (Utf8.encode text) (fun bytes =>
  let hash_hex := Sha256.hexdigest bytes in
  bind (for_each
          (fun i => bind (int16 (slice hash_hex i (i + 2)))
                         (fun n => Ok (Qmake n 255)))
          (range2 (Z.min (1024 * 2) (len hash_hex))))
    (fun embedding =>
  let embedding :=
    if len embedding <? 1024
    then embedding ++ repeat (Qmake 0 1) (Z.to_nat (1024 - len embedding))
    else embedding in
  Ok (slice_to embedding 1024))).

(** The [try] body: import, lazy load of the model, encoding. *)
Definition primary (env : Env) (self : PineconeService) (text : str)
  : result (list Q) * PineconeService :=
  match sentence_transformers env with
  | None => (Raise ImportError, self)
  | Some SentenceTransformer =>
      match _embedding_model self with
      | Some m => (encode m text, self)
      | None =>
          match SentenceTransformer (lit "all-MiniLM-L6-v2") with
          | Raise e => (Raise e, self)
          | Ok m =>
              (encode m text,
               mk_service (pc self) (index_name self) (index self) (Some m))
          end
      end
  end.

Definition generate_embedding (env : Env) (self : PineconeService)
    (text : str) : result (list Q) * PineconeService :=
  match primary env self text with
  | (Ok embedding, self') => (Ok embedding, self')
  | (Raise ImportError, self') => (hash_fallback text, self')
  | (Raise e, self') => (Raise e, self')
  end.

End Pinecone.

(** ** Regular expressions, as [re] matches them *)

Module Re.

(** The fragment the patterns of the parser need.  [Star] is greedy;
    alternatives are tried left to right. *)
Inductive regex : Type :=
| Eps
| Class (p : N -> bool)
| Seq (r1 r2 : regex)
| Alt (r1 r2 : regex)
| Star (r : regex).

Definition Plus (r : regex) : regex := Seq r (Star r).
Definition Opt (r : regex) : regex := Alt r Eps.
Definition Chr (c : N) : regex := Class (N.eqb c).
Definition Lit (s : string) : regex :=
  fold_right (fun c r => Seq (Chr c) r) Eps (lit s).
Definition OneOf (cs : list N) : regex :=
  Class (fun c => existsb (N.eqb c) cs).
Definition NoneOf (cs : list N) : regex :=
  Class (fun c => negb (existsb (N.eqb c) cs)).
Fixpoint Seqs (rs : list regex) : regex :=
  match rs with
  | [] => Eps
  | r :: rs' => Seq r (Seqs rs')
  end.
Fixpoint Alts (rs : list regex) : regex :=
  match rs with
  | [] => Class (fun _ => false)
  | [r] => r
  | r :: rs' => Alt r (Alts rs')
  end.

(** One character against a class of ASCII characters, under
    [re.IGNORECASE] when [ic]: the character is in the class, or the
    letter it counts as is, in either case.  A class given by what it
    leaves out leaves out uncased characters only. *)
Definition test (ic : bool) (p : N -> bool) (c : N) : bool :=
  p c || (ic && (p (ignorecase_char c) || p (upper_char (ignorecase_char c)))).

(** Backtracking match of [r] at the head of [s]; [k] receives what is
    left and may refuse it.  A [Star] gives up an iteration that
    consumes nothing. *)
Fixpoint run {A} (ic : bool) (r : regex) (s : str)
    (k : str -> option A) {struct r} : option A :=
  match r with
  | Eps => k s
  | Class p =>
      match s with
      | c :: s' => if test ic p c then k s' else None
      | [] => None
      end
  | Seq r1 r2 => run ic r1 s (fun s' => run ic r2 s' k)
  | Alt r1 r2 =>
      match run ic r1 s k with
      | Some x => Some x
      | None => run ic r2 s k
      end
  | Star r' =>
      (fix loop (n : nat) (s : str) {struct n} : option A :=
         match n with
         | O => k s
         | S n' =>
             match run ic r' s
                     (fun s' => if (length s' <? length s)%nat
                                then loop n' s' else None) with
             | Some x => Some x
             | None => k s
             end
         end) (length s) s
  end.

(** [re.match(r, s)]: what follows the match. *)
Definition match_ (ic : bool) (r : regex) (s : str) : option str :=
  run ic r s Some.

(** [re.search(r, s).group(0)]. *)
Fixpoint search (ic : bool) (r : regex) (s : str) : option str :=
  match match_ ic r s with
  | Some rest => Some (firstn (length s - length rest) s)
  | None =>
      match s with
      | [] => None
      | _ :: s' => search ic r s'
      end
  end.

(** A pattern [pre(grp)] whose single group closes it: the group's text
    and what follows the match. *)
Definition match_group (ic : bool) (pre grp : regex) (s : str)
  : option (str * str) :=
  run ic pre s (fun s1 =>
    run ic grp s1 (fun s2 =>
      Some (firstn (length s1 - length s2) s1, s2))).

(** [re.findall] for such a pattern: the groups of the successive
    matches, each search resuming where the last match ended. *)
Fixpoint findall_from (n : nat) (ic : bool) (pre grp : regex) (s : str)
  : list str :=
  match n with
  | O => []
  | S n' =>
      match match_group ic pre grp s with
      | Some (g, rest) =>
          g :: (if (length rest <? length s)%nat
                then findall_from n' ic pre grp rest
                else findall_from n' ic pre grp (tl s))
      | None =>
          match s with
          | [] => []
          | _ :: s' => findall_from n' ic pre grp s'
          end
      end
  end.

Definition findall (ic : bool) (pre grp : regex) (s : str) : list str :=
  findall_from (S (length s)) ic pre grp s.

Definition digit : regex := Class is_decimal.
Definition space : regex := Class isspace.

End Re.

(** ** JSON documents, as [json.loads] reads them *)

Module Json.

(** A decoded document.  A number keeps its lexeme: the parser of the
    analysis only asks what kind of value it met. *)
Inductive json : Type :=
| JNull
| JBool (b : bool)
| JNum (lexeme : str)
| JStr (s : str)
| JArr (items : list json)
| JObj (fields : gmap (list N) json).

Definition is_ws (c : N) : bool :=
  (c =? 32)%N || (c =? 9)%N || (c =? 10)%N || (c =? 13)%N.

Fixpoint skip_ws (s : str) : str :=
  match s with
  | c :: s' => if is_ws c then skip_ws s' else s
  | [] => []
  end.

Definition hex4 (a b c d : N) : option N :=
  match hex_value a, hex_value b, hex_value c, hex_value d with
  | Some x, Some y, Some z, Some w =>
      Some (Z.to_N (((x * 16 + y) * 16 + z) * 16 + w))
  | _, _, _, _ => None
  end.

Definition is_high (c : N) : bool := in_range 0xD800 0xDBFF c.
Definition is_low (c : N) : bool := in_range 0xDC00 0xDFFF c.
Definition join (hi lo : N) : N :=
  (0x10000 + (hi - 0xD800) * 0x400 + (lo - 0xDC00))%N.

(** The one-character escapes: quote, backslash, slash, b, f, n, r, t. *)
Definition escape (c : N) : option N :=
  if (c =? 34)%N then Some 34%N
  else if (c =? 92)%N then Some 92%N
  else if (c =? 47)%N then Some 47%N
  else if (c =? 98)%N then Some 8%N
  else if (c =? 102)%N then Some 12%N
  else if (c =? 110)%N then Some 10%N
  else if (c =? 114)%N then Some 13%N
  else if (c =? 116)%N then Some 9%N
  else None.

(** The body of a string, from after the opening quote: its characters
    (most recent first in [acc]) and what follows the closing quote. *)
Fixpoint scanstring (s : str) (acc : str) : option (str * str) :=
  match s with
  | [] => None
  | c :: s1 =>
      if (c =? 34)%N then Some (rev acc, s1)
      else if (c <? 32)%N then None
      else if (c =? 92)%N then
        match s1 with
        | [] => None
        | e :: s2 =>
            if (e =? 117)%N then
              match s2 with
              | h1 :: h2 :: h3 :: h4 :: s6 =>
                  match hex4 h1 h2 h3 h4 with
                  | None => None
                  | Some u =>
                      match s6 with
                      | b :: v :: g1 :: g2 :: g3 :: g4 :: s12 =>
                          match hex4 g1 g2 g3 g4 with
                          | Some u2 =>
                              if is_high u && (b =? 92)%N && (v =? 117)%N
                                 && is_low u2
                              then scanstring s12 (join u u2 :: acc)
                              else scanstring s6 (u :: acc)
                          | None => scanstring s6 (u :: acc)
                          end
                      | _ => scanstring s6 (u :: acc)
                      end
                  end
              | _ => None
              end
            else
              match escape e with
              | Some x => scanstring s2 (x :: acc)
              | None => None
              end
        end
      else scanstring s1 (c :: acc)
  end.

Fixpoint digits (s : str) : str * str :=
  match s with
  | c :: s' =>
      if isdigit c then let '(d, r) := digits s' in (c :: d, r)
      else ([], s)
  | [] => ([], [])
  end.

(** A number at the head of [s], after an optional sign: the integer
    part, then a fraction and an exponent when they are complete. *)
Definition number_body (s : str) : option (str * str) :=
  match s with
  | [] => None
  | c :: s1 =>
      let int_part :=
        if (c =? 48)%N then Some ([c], s1)
        else if in_range 49 57 c then
          let '(d, r) := digits s1 in Some (c :: d, r)
        else None in
      match int_part with
      | None => None
      | Some (ip, r1) =>
          let '(fp, r2) :=
            match r1 with
            | p :: r =>
                let '(d, r') := digits r in
                if (p =? 46)%N && negb (Nat.eqb (length d) 0)
                then (p :: d, r') else ([], r1)
            | [] => ([], r1)
            end in
          let '(ep, r3) :=
            match r2 with
            | e :: r =>
                if (e =? 101)%N || (e =? 69)%N then
                  let '(sg, r') :=
                    match r with
                    | g :: r'' =>
                        if (g =? 43)%N || (g =? 45)%N
                        then ([g], r'') else ([], r)
                    | [] => ([], r)
                    end in
                  let '(d, r'') := digits r' in
                  if Nat.eqb (length d) 0 then ([], r2)
                  else (e :: sg ++ d, r'')
                else ([], r2)
            | [] => ([], r2)
            end in
          Some (ip ++ fp ++ ep, r3)
      end
  end.

Definition literal (w : string) (v : json) (s : str) : option (json * str) :=
  if startswith s (lit w) then Some (v, skipn (length (lit w)) s) else None.

(** One value at the head of [s], and what follows it. *)
Fixpoint value (fuel : nat) (s : str) : option (json * str) :=
  match fuel with
  | O => None
  | S fuel' =>
      match s with
      | [] => None
      | c :: s1 =>
          if (c =? 34)%N then
            match scanstring s1 [] with
            | Some (x, r) => Some (JStr x, r)
            | None => None
            end
          else if (c =? 123)%N then
            match skip_ws s1 with
            | d :: r =>
                if (d =? 125)%N then Some (JObj ∅, r)
                else
                  match members fuel' (d :: r) ∅ with
                  | Some (m, r') => Some (JObj m, r')
                  | None => None
                  end
            | [] => None
            end
          else if (c =? 91)%N then
            match skip_ws s1 with
            | d :: r =>
                if (d =? 93)%N then Some (JArr [], r)
                else
                  match elements fuel' (d :: r) [] with
                  | Some (l, r') => Some (JArr l, r')
                  | None => None
                  end
            | [] => None
            end
          else if (c =? 110)%N then literal "null" JNull s
          else if (c =? 116)%N then literal "true" (JBool true) s
          else if (c =? 102)%N then literal "false" (JBool false) s
          else if (c =? 78)%N then literal "NaN" (JNum (lit "NaN")) s
          else if (c =? 73)%N then
            literal "Infinity" (JNum (lit "Infinity")) s
          else if (c =? 45)%N then
            if startswith s1 (lit "Infinity")
            then literal "-Infinity" (JNum (lit "-Infinity")) s
            else
              match number_body s1 with
              | Some (x, r) => Some (JNum (c :: x), r)
              | None => None
              end
          else
            match number_body s with
            | Some (x, r) => Some (JNum x, r)
            | None => None
            end
      end
  end

(** The items of an array from its first value on, up to the closing
    bracket. *)
with elements (fuel : nat) (s : str) (acc : list json)
  : option (list json * str) :=
  match fuel with
  | O => None
  | S fuel' =>
      match value fuel' s with
      | None => None
      | Some (v, r) =>
          match skip_ws r with
          | c :: r' =>
              if (c =? 93)%N then Some (rev (v :: acc), r')
              else if (c =? 44)%N
              then elements fuel' (skip_ws r') (v :: acc)
              else None
          | [] => None
          end
      end
  end

(** The pairs of an object from its first key on, up to the closing
    brace; a key met again takes the later value. *)
with members (fuel : nat) (s : str) (acc : gmap (list N) json)
  : option (gmap (list N) json * str) :=
  match fuel with
  | O => None
  | S fuel' =>
      match s with
      | q :: s1 =>
          if (q =? 34)%N then
            match scanstring s1 [] with
            | None => None
            | Some (key, r) =>
                match skip_ws r with
                | c :: r1 =>
                    if (c =? 58)%N then
                      match value fuel' (skip_ws r1) with
                      | None => None
                      | Some (v, r2) =>
                          match skip_ws r2 with
                          | d :: r3 =>
                              if (d =? 125)%N
                              then Some (<[key := v]> acc, r3)
                              else if (d =? 44)%N
                              then members fuel' (skip_ws r3)
                                     (<[key := v]> acc)
                              else None
                          | [] => None
                          end
                      end
                    else None
                | [] => None
                end
            end
          else None
      | [] => None
      end
  end.

(** [json.loads(s)]: one value between optional white space, nothing
    after it; [None] stands for the [JSONDecodeError].  The
    interpreter's resource limits (recursion depth, digits of an
    integer) are not part of the embedding. *)
Definition loads (s : str) : option json :=
  match value (2 * length s + 2) (skip_ws s) with
  | Some (v, r) =>
      match skip_ws r with
      | [] => Some v
      | _ :: _ => None
      end
  | None => None
  end.

End Json.

(** ** The analysis service ([LLMService]) *)

Module LLM.

Import Re Json.

Definition nl : str := [10%N].
Definition dq : str := [34%N].

(** [sep.join(parts)]. *)
Fixpoint join (sep : str) (parts : list str) : str :=
  match parts with
  | [] => []
  | [x] => x
  | x :: rest => x ++ sep ++ join sep rest
  end.

(** The validated model of an analysis. *)
Record SymptomAnalysis : Type := mk_analysis {
  conditions : list str;
  recommendations : list str;
  severity_assessment : str
}.

(** *** Stage 1: a JSON object in the response *)

Definition not_brace : regex := NoneOf [123%N; 125%N].
Definition nested : regex :=
  Star (Seqs [Chr 123; Star not_brace; Chr 125; Star not_brace]).
Definition json_pattern : regex :=
  Seqs [Chr 123; Star not_brace; nested;
        Chr 34; Lit "conditions"; Chr 34;
        Star not_brace; nested; Chr 125].

(** Validation of a field declared [List[str]]: a list whose items
    are all strings. *)
Fixpoint str_items (items : list json) : option (list str) :=
  match items with
  | [] => Some []
  | JStr x :: rest =>
      match str_items rest with
      | Some xs => Some (x :: xs)
      | None => None
      end
  | _ :: _ => None
  end.

Definition list_of_str (v : json) : option (list str) :=
  match v with
  | JArr items => str_items items
  | _ => None
  end.

Definition str_field (v : json) : option str :=
  match v with
  | JStr x => Some x
  | _ => None
  end.

Definition validation_error : exn := ValueError (lit "validation error").
Definition decode_error : exn := ValueError (lit "JSONDecodeError").

(** [SymptomAnalysis(conditions=c, recommendations=r,
    severity_assessment=s)] on decoded values. *)
Definition validate (c r s : json) : result SymptomAnalysis :=
  match list_of_str c, list_of_str r, str_field s with
  | Some cs, Some rs, Some sv => Ok (mk_analysis cs rs sv)
  | _, _, _ => Raise validation_error
  end.

(** The body of the first [try]: [Ok None] when the pattern finds
    nothing. *)
Definition json_attempt (response_text : str)
  : result (option SymptomAnalysis) :=
  match search false json_pattern response_text with
  | None => Ok None
  | Some json_str =>
      let json_str := replace json_str 39 34 in
      match loads json_str with
      | Some (JObj data) =>
          bind (validate
                  (default (JArr []) (data !! lit "conditions"))
                  (default (JArr []) (data !! lit "recommendations"))
                  (default (JStr (lit "moderate"))
                           (data !! lit "severity_assessment")))
               (fun a => Ok (Some a))
      | Some _ => Raise (Exception (lit "object has no attribute 'get'"))
      | None => Raise decode_error
      end
  end.

(** *** Stage 2: sections and lines *)

Inductive section : Type := InConditions | InRecommendations.

Record scan : Type := mk_scan {
  current_section : option section;
  sc_conditions : list str;
  sc_recommendations : list str;
  sc_severity : str
}.

Definition numbered : regex :=
  Seqs [Plus digit; OneOf [46%N; 41%N]; Plus space].
Definition bullet : regex :=
  Seqs [OneOf [45%N; 8226%N; 42%N]; Plus space].

Definition has (s : str) (p : string) : bool := contains s (lit p).

(** The two-armed [if current_section == ... and len(...) < 5]. *)
Definition append_item (st : scan) (content : str) (extra : bool) : scan :=
  match current_section st with
  | Some InConditions =>
      if (len (sc_conditions st) <? 5) && extra then
        mk_scan (current_section st) (sc_conditions st ++ [content])
                (sc_recommendations st) (sc_severity st)
      else
        st
  | Some InRecommendations =>
      if (len (sc_recommendations st) <? 5) && extra then
        mk_scan (current_section st) (sc_conditions st)
                (sc_recommendations st ++ [content]) (sc_severity st)
      else st
  | None => st
  end.

Definition set_section (st : scan) (sec : section) : scan :=
  mk_scan (Some sec) (sc_conditions st) (sc_recommendations st)
          (sc_severity st).

Definition set_severity (st : scan) (sv : string) : scan :=
  mk_scan (current_section st) (sc_conditions st) (sc_recommendations st)
          (lit sv).

(** The severity a line names: [mild] before [severe] before
    [moderate]. *)
Definition severity_keyword (line_lower : str) : option string :=
  if has line_lower "mild" then Some "mild"%string
  else if has line_lower "severe" then Some "severe"%string
  else if has line_lower "moderate" then Some "moderate"%string
  else None.

Definition is_conditions_header (line line_lower : str) : bool :=
  has line_lower "condition"
  && (has line ":" || startswith line_lower (lit "condition")).

Definition is_recommendations_header (line line_lower : str) : bool :=
  (has line_lower "recommendation" || has line_lower "next step")
  && (has line ":" || startswith line_lower (lit "recommendation")).

Definition first_is_upper (line : str) : bool :=
  match line with
  | c :: _ => is_uppercase c
  | [] => false
  end.

(** A list item: what follows the marker, kept when longer than 5. *)
Definition item (st : scan) (rest : str) : scan :=
  let content := strip rest in
  if negb (len content =? 0) && (5 <? len content)
  then append_item st content true
  else st.

(** The body of the [for] over the lines. *)
Definition scan_line (st : scan) (raw : str) : scan :=
  let line := strip raw in
  if len line =? 0 then st
  else
    let line_lower := lower line in
    if is_conditions_header line line_lower then
      set_section st InConditions
    else if is_recommendations_header line line_lower then
      set_section st InRecommendations
    else if has line_lower "severity" then
      match severity_keyword line_lower with
      | Some sv => set_severity st sv
      | None => st
      end
    else
      match match_ false numbered line with
      | Some rest => item st rest
      | None =>
          match match_ false bullet line with
          | Some rest => item st rest
          | None =>
              match current_section st with
              | Some _ =>
                  if (10 <? len line) && negb (isupper line)
                  then append_item st line (first_is_upper line)
                  else st
              | None => st
              end
          end
      end.

Definition scan_lines (response_text : str) : scan :=
  fold_left scan_line (split response_text 10)
    (mk_scan None [] [] (lit "moderate")).

(** *** Stage 3: patterns *)

Definition clause : regex := Plus (NoneOf [46%N; 10%N]).
Definition label_end : regex := Plus (Class (fun c => (c =? 58)%N || isspace c)).

Definition long_groups (matches : list str) : list str :=
  map strip (filter (fun m => 5 <? len (strip m)) matches).

Definition _extract_conditions_from_text (text : str) : list str :=
  let conditions :=
    long_groups
      (findall true
         (Seqs [Alts [Lit "possible"; Lit "likely"; Lit "probable";
                      Lit "potential"];
                Plus space;
                Alts [Lit "condition"; Lit "diagnosis"; Lit "disease";
                      Lit "illness"];
                Opt (Chr 115); label_end])
         clause text)
    ++ long_groups
      (findall true
         (Seqs [Alts [Lit "could be"; Lit "might be"; Lit "may be"];
                Plus space])
         (Seq (Class is_ascii_upper) clause) text) in
  slice_to conditions 5.

Definition _extract_recommendations_from_text (text : str) : list str :=
  let recommendations :=
    long_groups
      (findall true
         (Seqs [Alts [Lit "recommend"; Lit "suggest"; Lit "advise";
                      Lit "should"; Lit "next step"];
                Opt (Chr 115); label_end])
         clause text)
    ++ long_groups
      (findall true
         (Seqs [Alts [Lit "see"; Lit "consult"; Lit "visit";
                      Lit "contact"];
                Plus space])
         clause text) in
  match recommendations with
  | [] => [lit "Consult a healthcare professional"]
  | _ :: _ => slice_to recommendations 5
  end.

Definition or_else (l : list str) (other : list str) : list str :=
  match l with
  | [] => other
  | _ :: _ => l
  end.

(** Stages 2 to 4, run when stage 1 gave nothing. *)
Definition parse_sections (response_text : str) : SymptomAnalysis :=
  let st := scan_lines response_text in
  let conditions :=
    or_else (sc_conditions st)
            (_extract_conditions_from_text response_text) in
  let recommendations :=
    or_else (sc_recommendations st)
            (_extract_recommendations_from_text response_text) in
  let conditions :=
    or_else conditions
      [lit "Consult a healthcare professional for proper diagnosis"] in
  let recommendations :=
    or_else recommendations
      [lit "Seek professional medical advice from a qualified healthcare provider"] in
  mk_analysis (slice_to conditions 5) (slice_to recommendations 5)
              (sc_severity st).

Definition _parse_text_response (response_text : str)
  : result SymptomAnalysis :=
  match json_attempt response_text with
  | Ok (Some analysis) => Ok analysis
  | Ok None | Raise _ => Ok (parse_sections response_text)
  end.

(** *** The model and the calls made to it *)

Inductive role : Type := System | Human.

Record Message : Type := mk_message {
  msg_role : role;
  content : str
}.

(** What [llm.invoke] hands back: a message with a [content], a plain
    string, an object with a [text], or anything else, the last two
    with their [str()]. *)
Inductive Response : Type :=
| AIMessage (content : str)
| PlainStr (s : str)
| WithText (text repr : str)
| Opaque (repr : str).

(** The model: its answer to the [n]-th call of a request, which may
    raise. *)
Definition Model : Type := nat -> list Message -> result Response.

(** A computation that calls the model: it receives the calls made so
    far and returns them extended. *)
Definition M (A : Type) : Type :=
  list (list Message) -> result A * list (list Message).

Definition ret {A} (a : A) : M A := fun calls => (Ok a, calls).
Definition raise {A} (e : exn) : M A := fun calls => (Raise e, calls).
Definition mbind {A B} (m : M A) (k : A -> M B) : M B :=
  fun calls =>
    match m calls with
    | (Ok a, calls') => k a calls'
    | (Raise e, calls') => (Raise e, calls')
    end.
Definition lift {A} (r : result A) : M A := fun calls => (r, calls).
Definition invoke (llm : Model) (messages : list Message) : M Response :=
  fun calls => (llm (length calls) messages, calls ++ [messages]).
Definition catch {A} (m : M A) (handler : exn -> M A) : M A :=
  fun calls =>
    match m calls with
    | (Ok a, calls') => (Ok a, calls')
    | (Raise e, calls') => handler e calls'
    end.

Notation "'call!' x <- m 'in' k" := (mbind m (fun x => k))
  (at level 10, x name, m at level 100, k at level 200).

Record SymptomAnalysisState : Type := mk_state {
  symptoms : str;
  context : option (list str);
  analysis : option SymptomAnalysis;
  error : option str
}.

Definition system_msg : Message :=
  mk_message System
    (lit "You are a medical AI that analyzes symptoms. You MUST respond in the exact format requested. Never acknowledge, explain, or ask questions - just provide the analysis immediately in the specified format. Start every response with 'CONDITIONS:'").

Definition context_text (context : option (list str)) : str :=
  match context with
  | Some (c :: cs) =>
      nl ++ nl ++ lit "Relevant medical information from similar cases:"
      ++ nl ++ join nl (c :: cs)
  | Some [] | None => []
  end.

Definition prompt_text (symptoms : str) (context : option (list str)) : str :=
  join nl
    [lit "ANALYZE THE FOLLOWING SYMPTOMS NOW:";
     [];
     lit "Symptoms: " ++ symptoms;
     context_text context;
     [];
     lit "IMPORTANT: This is for educational purposes only. Not medical advice.";
     [];
     lit "Provide your analysis in EXACTLY this format:";
     [];
     lit "CONDITIONS:";
     lit "1. [Specific condition name]";
     lit "2. [Specific condition name]";
     lit "3. [Specific condition name]";
     lit "4. [Specific condition name]";
     lit "5. [Specific condition name]";
     [];
     lit "RECOMMENDATIONS:";
     lit "1. [Specific actionable step]";
     lit "2. [Specific actionable step]";
     lit "3. [Specific actionable step]";
     lit "4. [Specific actionable step]";
     lit "5. [Specific actionable step]";
     [];
     lit "SEVERITY: [mild OR moderate OR severe]";
     [];
     lit "Start your response with " ++ dq ++ lit "CONDITIONS:" ++ dq
     ++ lit " immediately. Do not explain or acknowledge - just analyze."].

Definition retry_text (symptoms : str) : str :=
  lit "STOP. Do NOT acknowledge. ANALYZE THESE SYMPTOMS NOW: " ++ symptoms
  ++ nl ++ nl
  ++ lit "Start your response with 'CONDITIONS:' followed by numbered list. Then 'RECOMMENDATIONS:' followed by numbered list. Then 'SEVERITY:' with one word.".

(** The text of the first response. *)
Definition text_of (response : Response) : str :=
  match response with
  | AIMessage c => c
  | PlainStr s => s
  | WithText t _ => t
  | Opaque r => r
  end.

(** The text of the retry's response:
    [response.content if hasattr(response, 'content') else str(response)]. *)
Definition retry_text_of (response : Response) : str :=
  match response with
  | AIMessage c => c
  | PlainStr s => s
  | WithText _ r => r
  | Opaque r => r
  end.

Definition acknowledgment_phrases : list str :=
  [lit "okay, i understand"; lit "i will analyze"; lit "i can help";
   lit "let me analyze"; lit "i'll provide"].

(** [not response_text or len(response_text.strip()) < 10]. *)
Definition too_short (response_text : str) : bool :=
  (len response_text =? 0) || (len (strip response_text) <? 10).

(** The acknowledgment test of the first response. *)
Definition acknowledges (response_text : str) : bool :=
  existsb (fun phrase => contains (slice_to (lower response_text) 200) phrase)
          acknowledgment_phrases
  && negb (contains (upper response_text) (lit "CONDITIONS:")).

Definition short_response : exn :=
  ValueError (lit "LLM returned empty or very short response").

(** The inner [try] of the node: invoke, check, retry once, parse. *)
Definition ask (llm : Model) (state : SymptomAnalysisState)
  : M SymptomAnalysis :=
  let human_msg :=
    mk_message Human (prompt_text (symptoms state) (context state)) in
  call! response <- invoke llm [system_msg; human_msg] in
  let response_text := text_of response in
  if too_short response_text then raise short_response
  else if acknowledges response_text then
    let retry_msg := mk_message Human (retry_text (symptoms state)) in
    call! response <- invoke llm [system_msg; retry_msg] in
    let response_text := retry_text_of response in
    lift (_parse_text_response response_text)
  else lift (_parse_text_response response_text).

Definition exn_str (e : exn) : str :=
  match e with
  | ValueError m => m
  | ImportError => lit "ImportError"
  | UnicodeEncodeError => lit "UnicodeEncodeError"
  | Exception m => m
  end.

Definition fallback_analysis : SymptomAnalysis :=
  mk_analysis
    [lit "Unable to analyze symptoms. Please consult a healthcare professional."]
    [lit "Seek immediate medical attention if symptoms are severe."]
    (lit "Unable to assess").

(** The inner handler logs and raises again; the outer one records the
    error and the fallback analysis. *)
Definition _analyze_symptoms_node (llm : Model)
    (state : SymptomAnalysisState) : M SymptomAnalysisState :=
  catch
    (call! analysis <- catch (ask llm state) (fun llm_error => raise llm_error) in
     ret (mk_state (symptoms state) (context state) (Some analysis) None))
    (fun e =>
       ret (mk_state (symptoms state) (context state)
              (Some fallback_analysis) (Some (exn_str e)))).

Definition _format_response_node (state : SymptomAnalysisState)
  : M SymptomAnalysisState := ret state.

(** The compiled graph: [analyze_symptoms], then [format_response]. *)
Definition graph_invoke (llm : Model) (initial_state : SymptomAnalysisState)
  : M SymptomAnalysisState :=
  call! state <- _analyze_symptoms_node llm initial_state in
  _format_response_node state.

(** A value of the returned dictionary. *)
Inductive dval : Type :=
| DList (l : list str)
| DStr (s : str).

Definition analysis_dict (a : SymptomAnalysis) : gmap (list N) dval :=
  <[lit "conditions" := DList (conditions a)]>
    (<[lit "recommendations" := DList (recommendations a)]>
       (<[lit "severity" := DStr (severity_assessment a)]> ∅)).

Definition generate_symptom_analysis (llm : Model) (symptoms : str)
    (context : option (list str)) : M (gmap (list N) dval) :=
  catch
    (let initial_state := mk_state symptoms context None None in
     call! final_state <- graph_invoke llm initial_state in
     match analysis final_state with
     | Some analysis => ret (analysis_dict analysis)
     | None => ret (analysis_dict fallback_analysis)
     end)
    (fun e => ret (analysis_dict fallback_analysis)).

End LLM.

(** ** The vocabulary of the statements *)

Module Statements.

Import Chunker Pinecone Re Json LLM.

(** *** Slices *)

(** The characters of [T] from index [a] up to index [b]. *)
Definition sub {A} (T : list A) (a b : nat) : list A :=
  firstn (b - a) (skipn a T).

(** *** The vector retriever *)

(** The index is unavailable for a query: the service holds none, or
    the query raises. *)
Definition unavailable (self : PineconeService) (v : list Q) (top_k : Z)
  : Prop :=
  index self = None \/
  exists ix e, index self = Some ix /\ query ix v top_k = Raise e.

Definition broken_index : Index :=
  mk_index (fun _ _ => Raise (Exception (lit "connection reset"))).

Definition broken_service : PineconeService :=
  mk_service (mk_client ∅ (fun _ => false) (fun _ => broken_index))
             (lit "symptoms") (Some broken_index) None.

(** *** The response parser *)

(** The severities the line scan can record. *)
Definition graded (sv : list N) : Prop :=
  sv = lit "mild" \/ sv = lit "moderate" \/ sv = lit "severe".

(** What a raw line does to the recorded severity: [Some k] when it
    reaches the severity branch and names [k], [None] when it leaves
    the severity as it is. *)
Definition names_severity (raw : list N) : option string :=
  let line := strip raw in
  let line_lower := lower line in
  if len line =? 0 then None
  else if is_conditions_header line line_lower then None
  else if is_recommendations_header line line_lower then None
  else if has line_lower "severity" then severity_keyword line_lower
  else None.

(** A response that is a JSON object with an empty [conditions]. *)
Definition empty_conditions_response : list N :=
  lit "{" ++ dq ++ lit "conditions" ++ dq ++ lit ": []}".

(** Six conditions in the object come back as six. *)
Definition six_conditions_response : list N :=
  lit "{" ++ dq ++ lit "conditions" ++ dq ++ lit ": ["
  ++ dq ++ lit "a" ++ dq ++ lit "," ++ dq ++ lit "b" ++ dq ++ lit ","
  ++ dq ++ lit "c" ++ dq ++ lit "," ++ dq ++ lit "d" ++ dq ++ lit ","
  ++ dq ++ lit "e" ++ dq ++ lit "," ++ dq ++ lit "f" ++ dq ++ lit "]}".

(** The example of the specification. *)
Definition section_example : list N :=
  join nl
    [lit "CONDITIONS:"; lit "1. Flu"; lit "2. Cold";
     lit "RECOMMENDATIONS:"; lit "1. Rest";
     lit "SEVERITY: mild then SEVERITY: severe"].

Definition section_example_result : SymptomAnalysis :=
  mk_analysis
    [lit "Consult a healthcare professional for proper diagnosis"]
    [lit "Consult a healthcare professional"]
    (lit "mild").

(** *** The model invoker and the orchestrator *)

Definition first_call (symptoms : list N) (context : option (list (list N)))
  : list Message :=
  [system_msg; mk_message Human (prompt_text symptoms context)].

Definition retry_call (symptoms : list N) : list Message :=
  [system_msg; mk_message Human (retry_text symptoms)].

(** [p] occurs in [s]. *)
Definition occurs (p s : list N) : Prop :=
  exists before after, s = before ++ p ++ after.

(** A response that is empty, or shorter than ten characters once
    stripped. *)
Definition near_empty (text : list N) : Prop := len (strip text) < 10.

(** A response that acknowledges: one of the five phrases occurs in the
    first 200 characters of its lower-cased text, and its upper-cased
    text does not hold the marker. *)
Definition acknowledgment (text : list N) : Prop :=
  (exists phrase,
      In phrase [lit "okay, i understand"; lit "i will analyze";
                 lit "i can help"; lit "let me analyze";
                 lit "i'll provide"] /\
      occurs phrase (firstn 200 (lower text))) /\
  ~ occurs (lit "CONDITIONS:") (upper text).

(** The model fails at an attempt the node makes: at the first call, or
    at the retry an acknowledgment brings about. *)
Definition invocation_fails (llm : Model) (symptoms : list N)
    (context : option (list (list N))) : Prop :=
  (exists e, llm 0%nat (first_call symptoms context) = Raise e) \/
  (exists r e,
      llm 0%nat (first_call symptoms context) = Ok r /\
      ~ near_empty (text_of r) /\
      acknowledgment (text_of r) /\
      llm 1%nat (retry_call symptoms) = Raise e).

Definition unable_condition : list N :=
  lit "Unable to analyze symptoms. Please consult a healthcare professional.".
Definition unable_recommendation : list N :=
  lit "Seek immediate medical attention if symptoms are severe.".

(** The dictionary of the fallback analysis. *)
Definition is_fallback (d : gmap (list N) dval) : Prop :=
  d !! lit "severity" = Some (DStr (lit "Unable to assess")) /\
  d !! lit "conditions" = Some (DList [unable_condition]) /\
  d !! lit "recommendations" = Some (DList [unable_recommendation]).

Definition failing_model : Model :=
  fun _ _ => Raise (Exception (lit "backend unreachable")).

(** An acknowledgment spelt with the Kelvin sign U+212A for its [k], and
    an analysis whose marker is spelt with the dotless i U+0131. *)
Definition kelvin_okay : list N :=
  lit "O" ++ [0x212A%N] ++ lit "ay, I understand. Please wait.".
Definition dotless_marker : list N :=
  lit "I can help. cond" ++ [0x131%N] ++ lit "t" ++ [0x131%N]
  ++ lit "ons: influenza".

(** A model that acknowledges, then cannot be reached. *)
Definition acknowledging_then_down : Model :=
  fun n _ =>
    match n with
    | O => Ok (AIMessage kelvin_okay)
    | S _ => Raise (Exception (lit "backend unreachable"))
    end.

(** A model that only ever says [OK]. *)
Definition terse_model : Model := fun _ _ => Ok (AIMessage (lit "OK")).

Definition headache : SymptomAnalysisState :=
  mk_state (lit "headache") None None None.

(** *** The chunker *)

(** Two texts that differ by the place of one blank. *)
Definition leading_space : list N := lit " abcd".
Definition inner_space : list N := lit "abc d".

(** A text with a sentence end past the middle of its first window. *)
Definition early_sentence : list N := lit "abcdef.hijklmnop".

(** *** The embedder *)

Definition byte (b : Z) : Prop := 0 <= b <= 255.

Definition hex_pair (b : Z) : list N :=
  [Sha256.hex_char (Z.shiftr b 4); Sha256.hex_char (Z.land b 15)].

Definition reads_back (b : Z) : bool :=
  match int16 (hex_pair b) with
  | Ok n => n =? b
  | Raise _ => false
  end.

Definition hex_of (bs : list Z) : list N := concat (map hex_pair bs).

Definition entry (hash_hex : list N) (i : Z) : result Q :=
  bind (int16 (slice hash_hex i (i + 2))) (fun n => Ok (Qmake n 255)).

(** The vector of the fallback, from the digest. *)
Definition fallback_vector (digest : list Z) : list Q :=
  map (fun b => Qmake b 255) digest ++ repeat (Qmake 0 1) 992.

Definition no_sentence_transformers : Env := mk_env None.

Definition idle_index : Index := mk_index (fun _ _ => Ok []).

(** A service on an account that has no index yet. *)
Definition fresh_service : PineconeService :=
  __init__ (mk_client ∅ (fun _ => false) (fun _ => idle_index))
           (lit "symptoms").

End Statements.

(** ** Text extraction ([PDFService.extract_text_from_pdf]) *)

Module Extract.

Import LLM.

(** [page.extract_text()]: a text, [None], or an error. *)
Definition page : Type := result (option (list N)).

(** What the libraries make of the bytes of one document: the pages
    [pdfplumber] and [PyPDF2] open (or the error of opening), and for
    OCR the page images with what [image_to_string] reads on each (an
    [ImportError] when the OCR libraries are missing). *)
Record Pdf : Type := mk_pdf {
  plumber : result (list page);
  pypdf2 : result (list page);
  ocr : result (list (result (list N)))
}.

(** [page_text and page_text.strip()]. *)
Definition has_text (page_text : option (list N)) : option (list N) :=
  match page_text with
  | Some t =>
      if negb (len t =? 0) && negb (len (strip t) =? 0) then Some t else None
  | None => None
  end.

Definition paragraph : list N := nl ++ nl.

(** The loop of [extract_text_with_ocr]; an error on a page ends it. *)
Fixpoint ocr_pages (images : list (result (list N)))
    (text_content : list (list N)) : result (list (list N)) :=
  match images with
  | [] => Ok text_content
  | Raise e :: _ => Raise e
  | Ok page_text :: rest =>
      match has_text (Some page_text) with
      | Some t => ocr_pages rest (text_content ++ [t])
      | None => ocr_pages rest text_content
      end
  end.

Definition extract_text_with_ocr (pdf : Pdf) : result (list N) :=
  match bind (ocr pdf) (fun images => ocr_pages images []) with
  | Ok [] => Ok []
  | Ok (t :: ts) => Ok (join paragraph (t :: ts))
  | Raise ImportError =>
      Raise (ValueError (lit "OCR libraries not installed. Please install pytesseract and pdf2image, and Tesseract OCR engine."))
  | Raise e =>
      Raise (ValueError (lit "OCR extraction failed: " ++ exn_str e))
  end.

(** The [pdfplumber] loop: the pages kept and [pdfplumber_success]; an
    error on a page ends the attempt and keeps what was read. *)
Fixpoint plumber_pages (pages : list page) (text_content : list (list N))
    (pdfplumber_success : bool) : list (list N) * bool :=
  match pages with
  | [] => (text_content, pdfplumber_success)
  | Raise _ :: _ => (text_content, pdfplumber_success)
  | Ok page_text :: rest =>
      match has_text page_text with
      | Some t => plumber_pages rest (text_content ++ [t]) true
      | None => plumber_pages rest text_content pdfplumber_success
      end
  end.

(** The [PyPDF2] loop: an error on a page is logged and the page
    skipped. *)
Fixpoint pypdf2_pages (pages : list page) (text_content : list (list N))
    : list (list N) :=
  match pages with
  | [] => text_content
  | Raise _ :: rest => pypdf2_pages rest text_content
  | Ok page_text :: rest =>
      match has_text page_text with
      | Some t => pypdf2_pages rest (text_content ++ [t])
      | None => pypdf2_pages rest text_content
      end
  end.

(** The second attempt, entered when the first kept nothing. *)
Definition pypdf2_attempt (pdf : Pdf) (text_content : list (list N))
    (pdfplumber_success : bool) : result (list (list N)) :=
  match pypdf2 pdf with
  | Ok pages =>
      let text_content := if pdfplumber_success then text_content else [] in
      Ok (pypdf2_pages pages text_content)
  | Raise ImportError =>
      if len text_content =? 0 then
        Raise (ValueError (lit "Neither pdfplumber nor PyPDF2 is installed. Please install at least one: pip install pdfplumber or pip install PyPDF2"))
      else Ok text_content
  | Raise e2 =>
      if len text_content =? 0 then
        Raise (ValueError (lit "Could not extract text from PDF: "
                           ++ exn_str e2))
      else Ok text_content
  end.

(** The last resort: OCR, whose every failure becomes one
    [ValueError]. *)
Definition ocr_attempt (pdf : Pdf) : result (list N) :=
  let body :=
    bind (extract_text_with_ocr pdf) (fun ocr_text =>
      if negb (len ocr_text =? 0) && negb (len (strip ocr_text) =? 0)
      then Ok ocr_text
      else Raise (ValueError (lit "No text could be extracted from the PDF even with OCR. The PDF might be blank, corrupted, or contain unsupported content."))) in
  try_except body (fun ocr_error =>
    Raise (ValueError (lit "No text could be extracted from the PDF. Standard extraction and OCR both failed. Error: " ++ exn_str ocr_error))).

Definition extract_text_from_pdf (pdf : Pdf) : result (list N) :=
  let '(text_content, pdfplumber_success) :=
    match plumber pdf with
    | Ok pages => plumber_pages pages [] false
    | Raise _ => ([], false)
    end in
  bind (if negb pdfplumber_success || (len text_content =? 0)
        then pypdf2_attempt pdf text_content pdfplumber_success
        else Ok text_content) (fun text_content =>
  match text_content with
  | [] => ocr_attempt pdf
  | _ :: _ => Ok (join paragraph text_content)
  end).

End Extract.

(** ** Writing to the vector store ([add_symptom_context], [add_pdf_chunk]) *)

Module Ingest.

Import Pinecone LLM.

(** What the remote index holds by id: the values and the metadata of
    each vector; and which upserts it refuses. *)
Record Remote : Type := mk_remote {
  held : gmap (list N) (list Q * gmap (list N) mval);
  refuses : list N -> list Q -> bool
}.

(** [index.upsert(vectors=[{"id": ..., "values": ..., "metadata": ...}])]. *)
Definition upsert (remote : Remote) (id : list N) (values : list Q)
    (metadata : gmap (list N) mval) : result Remote :=
  if refuses remote id values then
    Raise (Exception (lit "upsert refused"))
  else
    Ok (mk_remote (<[id := (values, metadata)]> (held remote))
                  (refuses remote)).

Definition symptom_metadata (symptoms : list N)
    (conditions recommendations : list (list N)) : gmap (list N) mval :=
  <[lit "symptoms" := MStr symptoms]>
    (<[lit "conditions" := MStr (join (lit ",") conditions)]>
       (<[lit "recommendations" := MStr (join (lit ",") recommendations)]>
          (<[lit "type" := MStr (lit "symptom")]> ∅))).

(** [md5_hex] is [hashlib.md5(bytes).hexdigest()]. Every error of the
    body is printed and dropped. *)
Definition add_symptom_context (md5_hex : list Z -> list N)
    (self : PineconeService) (remote : Remote)
    (symptoms : list N) (conditions recommendations : list (list N))
    (embedding : list Q) : result unit * Remote :=
  match index self with
  | None => (Ok tt, remote)
  | Some _ =>
      match bind (Utf8.encode symptoms) (fun bytes =>
              let symptom_id := md5_hex bytes in
              upsert remote symptom_id embedding
                (symptom_metadata symptoms conditions recommendations))
      with
      | Ok remote' => (Ok tt, remote')
      | Raise _ => (Ok tt, remote)
      end
  end.

Definition pdf_metadata (chunk_text chunk_id pdf_name : list N)
    : gmap (list N) mval :=
  <[lit "text" := MStr (slice_to chunk_text 500)]>
    (<[lit "pdf_name" := MStr pdf_name]>
       (<[lit "type" := MStr (lit "pdf")]>
          (<[lit "chunk_id" := MStr chunk_id]> ∅))).

(** An error of the upsert is logged and raised again. *)
Definition add_pdf_chunk (self : PineconeService) (remote : Remote)
    (chunk_text chunk_id pdf_name : list N) (embedding : list Q)
    : result unit * Remote :=
  match index self with
  | None => (Ok tt, remote)
  | Some _ =>
      match upsert remote chunk_id embedding
              (pdf_metadata chunk_text chunk_id pdf_name) with
      | Ok remote' => (Ok tt, remote')
      | Raise e => (Raise e, remote)
      end
  end.

End Ingest.

(** ** What a pattern matches *)

Module ReSpec.

Import Re.

(** [r] matches the whole of a string, under [re.IGNORECASE] when [ic]. *)
Inductive matches (ic : bool) : regex -> list N -> Prop :=
| m_eps : matches ic Eps []
| m_class (p : N -> bool) (c : N) :
    test ic p c = true -> matches ic (Class p) [c]
| m_seq (r1 r2 : regex) (u v : list N) :
    matches ic r1 u -> matches ic r2 v -> matches ic (Seq r1 r2) (u ++ v)
| m_alt_l (r1 r2 : regex) (u : list N) :
    matches ic r1 u -> matches ic (Alt r1 r2) u
| m_alt_r (r1 r2 : regex) (u : list N) :
    matches ic r2 u -> matches ic (Alt r1 r2) u
| m_star_nil (r : regex) : matches ic (Star r) []
| m_star_cons (r : regex) (u v : list N) :
    matches ic r u -> matches ic (Star r) v -> matches ic (Star r) (u ++ v).

(** A clause of the pattern fallback: no period, no line break. *)
Definition in_sentence (item : list N) : Prop :=
  ~ In 46%N item /\ ~ In 10%N item.

End ReSpec.

(** ** The routes that call the services ([Routes/symptom_routes.py]) *)

Module Routes.

Import Chunker Pinecone LLM Ingest Extract.

(** What a route hands back: its value, or an [HTTPException]. *)
Inductive answer (A : Type) : Type :=
| Answer (a : A)
| HTTPException (status_code : Z) (detail : list N).
Arguments Answer {A} a.
Arguments HTTPException {A} status_code detail.

(** *** The history ([DatabaseService.save_symptom_history]) *)

Record HistoryDoc : Type := mk_history_doc {
  h_user_id : list N;
  h_symptoms : list N;
  h_severity : list N;
  h_conditions : list (list N);
  h_recommendations : list (list N);
  h_image_analysis : option (list N);
  h_image_filename : option (list N);
  h_pdf_name : option (list N)
}.

(** The collection, when the connection was made: [insert_one] gives
    [str(result.inserted_id)] or raises. *)
Record DatabaseService : Type := mk_db {
  history_collection : option (HistoryDoc -> result (list N))
}.

Definition save_symptom_history (db : DatabaseService) (doc : HistoryDoc)
  : option (list N) :=
  match history_collection db with
  | None => None
  | Some insert_one =>
      match insert_one doc with
      | Ok inserted_id => Some inserted_id
      | Raise _ => None
      end
  end.

(** *** The analysis routes *)

Record SymptomResponse : Type := mk_response {
  query_id : list N;
  r_symptoms : list N;
  r_conditions : list (list N);
  r_recommendations : list (list N);
  r_severity : option (list N)
}.

(** [SymptomResponse(query_id=...)]: [query_id] is a required [str],
    [None] does not validate. *)
Definition respond (query_id : option (list N)) (symptoms : list N)
    (conditions recommendations : list (list N)) (severity : list N)
  : result SymptomResponse :=
  match query_id with
  | Some id =>
      Ok (mk_response id symptoms conditions recommendations (Some severity))
  | None => Raise validation_error
  end.

(** The entries of the dictionary [generate_symptom_analysis] returns.
    It always holds the three of them, two lists and a string; a
    dictionary of another shape is a [KeyError] here. *)
Definition entries (analysis : gmap (list N) dval)
  : result (list (list N) * list (list N) * list N) :=
  match analysis !! lit "conditions", analysis !! lit "recommendations",
        analysis !! lit "severity" with
  | Some (DList c), Some (DList r), Some (DStr s) => Ok (c, r, s)
  | _, _, _ => Raise (Exception (lit "KeyError"))
  end.

Definition non_empty {A} (l : list A) : bool := negb (len l =? 0).

(** [context if context else None]. *)
Definition or_none (context : list (list N)) : option (list (list N)) :=
  match context with
  | [] => None
  | _ :: _ => Some context
  end.

(** One line of context; [str_of] is Python's [str()] on a metadata
    value. *)
Definition similar_case (str_of : mval -> list N) (ctx : SymptomContext)
  : list N :=
  lit "Similar case: " ++ str_of (sc_symptoms ctx) ++ lit " - Conditions: "
  ++ join (lit ", ") (Pinecone.sc_conditions ctx).

(** [query_id or "no-id"]. *)
Definition or_no_id (query_id : option (list N)) : list N :=
  match query_id with
  | Some (c :: id) => c :: id
  | Some [] | None => lit "no-id"
  end.

(** *** The services of the module

    [_db_service], [_llm_service] and [_pinecone_service] start as
    [None]; each is made by the first handler that asks for it. *)
Record Services : Type := mk_services {
  _db_service : option DatabaseService;
  _llm_service : option LLM.Model;
  _pinecone_service : option PineconeService
}.

(** What making a service gives where the program runs:
    [DatabaseService()]; [LLMService()], a [ValueError] without
    [GEMINI_KEY] or when no model can be set up; and for
    [PineconeService()] the client [Pinecone(api_key=...)] and the name
    of the index. *)
Record Deployment : Type := mk_deployment {
  new_db : result DatabaseService;
  new_llm : result LLM.Model;
  new_client : result Client;
  PINECONE_INDEX : list N
}.

Definition get_db_service (d : Deployment) (g : Services)
  : result DatabaseService * Services :=
  match _db_service g with
  | Some db => (Ok db, g)
  | None =>
      match new_db d with
      | Ok db =>
          (Ok db, mk_services (Some db) (_llm_service g) (_pinecone_service g))
      | Raise e => (Raise e, g)
      end
  end.

Definition get_llm_service (d : Deployment) (g : Services)
  : result LLM.Model * Services :=
  match _llm_service g with
  | Some llm => (Ok llm, g)
  | None =>
      match new_llm d with
      | Ok llm =>
          (Ok llm, mk_services (_db_service g) (Some llm) (_pinecone_service g))
      | Raise e => (Raise e, g)
      end
  end.

(** The service is one object: what a handler changes on it (the
    embedding model it loads) stays. *)
Definition with_pinecone (g : Services) (self : PineconeService) : Services :=
  mk_services (_db_service g) (_llm_service g) (Some self).

Definition get_pinecone_service (d : Deployment) (g : Services)
  : result PineconeService * Services :=
  match _pinecone_service g with
  | Some self => (Ok self, g)
  | None =>
      match new_client d with
      | Ok pc =>
          let self := __init__ pc (PINECONE_INDEX d) in
          (Ok self, with_pinecone g self)
      | Raise e => (Raise e, g)
      end
  end.

(** What a request leaves behind: the services, the remote index, and
    the calls made to the model. *)
Record trace : Type := mk_trace {
  t_services : Services;
  t_remote : Remote;
  t_calls : list (list Message)
}.

Definition server_error {A} (what : string) (e : exn) : answer A :=
  HTTPException 500 (lit what ++ exn_str e).

(** [POST /api/symptoms/analyze]. *)
Definition analyze_symptoms (env : Env) (d : Deployment)
    (md5_hex : list Z -> list N) (str_of : mval -> list N)
    (g : Services) (remote : Remote)
    (user_id symptoms : list N) : answer SymptomResponse * trace :=
  let what := "Error analyzing symptoms: "%string in
  let '(r, g) := get_db_service d g in
  match r with
  | Raise e => (server_error what e, mk_trace g remote [])
  | Ok db_service =>
  let '(r, g) := get_llm_service d g in
  match r with
  | Raise e => (server_error what e, mk_trace g remote [])
  | Ok llm_service =>
  let '(r, g) := get_pinecone_service d g in
  match r with
  | Raise e => (server_error what e, mk_trace g remote [])
  | Ok pinecone_service =>
  let '(r, self) := generate_embedding env pinecone_service symptoms in
  let g := with_pinecone g self in
  match r with
  | Raise e => (server_error what e, mk_trace g remote [])
  | Ok embedding =>
  match search_similar_symptoms self embedding 3 with
  | Raise e => (server_error what e, mk_trace g remote [])
  | Ok similar_contexts =>
  let context := map (similar_case str_of) similar_contexts in
  let '(r, calls) :=
    generate_symptom_analysis llm_service symptoms (or_none context) [] in
  match bind r entries with
  | Raise e => (server_error what e, mk_trace g remote calls)
  | Ok (conditions, recommendations, severity) =>
  let query_id :=
    save_symptom_history db_service
      (mk_history_doc user_id symptoms severity conditions recommendations
         None None None) in
  let remote :=
    if non_empty conditions && non_empty recommendations then
      snd (add_symptom_context md5_hex self remote symptoms conditions
             recommendations embedding)
    else remote in
  match respond (Some (or_no_id query_id)) symptoms conditions
          recommendations severity with
  | Raise e => (server_error what e, mk_trace g remote calls)
  | Ok response => (Answer response, mk_trace g remote calls)
  end end end end end end end.

Definition pdf_line (str_of : mval -> list N) (pdf_ctx : PdfContext)
  : list N :=
  lit "- " ++ str_of (pc_text pdf_ctx) ++ lit " (from "
  ++ str_of (pc_pdf_name pdf_ctx) ++ lit ")".

Definition case_line (str_of : mval -> list N) (ctx : SymptomContext)
  : list N :=
  lit "- " ++ str_of (sc_symptoms ctx) ++ lit " - Conditions: "
  ++ join (lit ", ") (Pinecone.sc_conditions ctx).

(** The context of the PDF route: a heading before each kind that was
    found. *)
Definition combined_context (str_of : mval -> list N)
    (pdf_contexts : list PdfContext) (symptom_contexts : list SymptomContext)
  : list (list N) :=
  (match pdf_contexts with
   | [] => []
   | _ :: _ =>
       lit "Relevant information from medical documents:"
       :: map (pdf_line str_of) pdf_contexts
   end)
  ++
  (match symptom_contexts with
   | [] => []
   | _ :: _ =>
       (nl ++ lit "Similar cases:") :: map (case_line str_of) symptom_contexts
   end).

(** [POST /api/symptoms/analyze-with-pdf]. *)
Definition analyze_symptoms_with_pdf_rag (env : Env) (d : Deployment)
    (str_of : mval -> list N) (g : Services) (remote : Remote)
    (user_id symptoms : list N) : answer SymptomResponse * trace :=
  let what := "Error analyzing symptoms with PDF RAG: "%string in
  let '(r, g) := get_db_service d g in
  match r with
  | Raise e => (server_error what e, mk_trace g remote [])
  | Ok db_service =>
  let '(r, g) := get_llm_service d g in
  match r with
  | Raise e => (server_error what e, mk_trace g remote [])
  | Ok llm_service =>
  let '(r, g) := get_pinecone_service d g in
  match r with
  | Raise e => (server_error what e, mk_trace g remote [])
  | Ok pinecone_service =>
  let '(r, self) := generate_embedding env pinecone_service symptoms in
  let g := with_pinecone g self in
  match r with
  | Raise e => (server_error what e, mk_trace g remote [])
  | Ok query_embedding =>
  match bind (search_pdf_content self query_embedding 5) (fun pdf_contexts =>
        bind (search_similar_symptoms self query_embedding 3)
          (fun symptom_contexts => Ok (pdf_contexts, symptom_contexts))) with
  | Raise e => (server_error what e, mk_trace g remote [])
  | Ok (pdf_contexts, symptom_contexts) =>
  let context := combined_context str_of pdf_contexts symptom_contexts in
  let '(r, calls) :=
    generate_symptom_analysis llm_service symptoms (or_none context) [] in
  match bind r entries with
  | Raise e => (server_error what e, mk_trace g remote calls)
  | Ok (conditions, recommendations, severity) =>
  let query_id :=
    save_symptom_history db_service
      (mk_history_doc user_id symptoms severity conditions recommendations
         (Some (lit "Enhanced with PDF content from knowledge base"))
         None None) in
  match respond query_id symptoms conditions recommendations severity with
  | Raise e => (server_error what e, mk_trace g remote calls)
  | Ok response => (Answer response, mk_trace g remote calls)
  end end end end end end end.

(** *** The upload route *)

(** [str(i)] for an index. *)
Definition str_of_nat (i : nat) : list N :=
  lit (NilEmpty.string_of_uint (Nat.to_uint i)).

(** [f"{pdf_id}_chunk_{i}"]. *)
Definition chunk_id (pdf_id : list N) (i : nat) : list N :=
  pdf_id ++ lit "_chunk_" ++ str_of_nat i.

(** The loop over the chunks: embed, store, count; an error on a chunk
    is logged and the loop goes on. *)
Fixpoint store_chunks (env : Env) (self : PineconeService) (remote : Remote)
    (pdf_id pdf_name : list N) (chunks : list (list N)) (i : nat)
    (stored_chunks : Z) : Z * PineconeService * Remote :=
  match chunks with
  | [] => (stored_chunks, self, remote)
  | chunk :: rest =>
      let '(r, self) := generate_embedding env self chunk in
      match r with
      | Raise _ =>
          store_chunks env self remote pdf_id pdf_name rest (S i) stored_chunks
      | Ok embedding =>
          match add_pdf_chunk self remote chunk (chunk_id pdf_id i) pdf_name
                  embedding with
          | (Ok _, remote) =>
              store_chunks env self remote pdf_id pdf_name rest (S i)
                (stored_chunks + 1)
          | (Raise _, remote) =>
              store_chunks env self remote pdf_id pdf_name rest (S i)
                stored_chunks
          end
      end
  end.

(** [s.endswith(p)]. *)
Definition endswith (s p : list N) : bool := startswith (rev s) (rev p).

(** The bytes of an upload: how many, and what the PDF libraries make
    of them. *)
Record Bytes : Type := mk_bytes {
  n_bytes : Z;
  document : Pdf
}.

(** The uploaded file: its name and what [await pdf.read()] gives. *)
Record Upload : Type := mk_upload {
  filename : option (list N);
  read : result Bytes
}.

Record UploadResult : Type := mk_upload_result {
  u_filename : list N;
  chunks_processed : Z;
  total_text_length : Z
}.

(** [except ValueError] takes a [UnicodeEncodeError] too. *)
Definition is_value_error (e : exn) : bool :=
  match e with
  | ValueError _ | UnicodeEncodeError => true
  | ImportError | Exception _ => false
  end.

(** The last two handlers of the route: a [ValueError] is a 400, any
    other error a 500. *)
Definition upload_error {A} (e : exn) : answer A :=
  if is_value_error e then HTTPException 400 (exn_str e)
  else HTTPException 500 (lit "Error processing PDF: " ++ exn_str e).

(** [POST /api/symptoms/upload-pdf]; [pdf_id] is the [uuid4] drawn for
    the document.  The entry written to the history afterwards does not
    change the answer (its errors are logged and dropped). *)
Definition upload_pdf (fuel : nat) (env : Env) (d : Deployment)
    (g : Services) (remote : Remote) (pdf_id : list N) (pdf : Upload)
  : option (answer UploadResult * Services * Remote) :=
  let refuse detail := Some (HTTPException 400 detail, g, remote) in
  match filename pdf with
  | None | Some [] => refuse (lit "No filename provided")
  | Some name =>
  if negb (endswith (lower name) (lit ".pdf")) then
    refuse (lit "File must be a PDF. Received: " ++ name)
  else
  match read pdf with
  | Raise e => Some (upload_error e, g, remote)
  | Ok pdf_bytes =>
  if n_bytes pdf_bytes =? 0 then refuse (lit "PDF file is empty")
  else
  match extract_text_from_pdf (document pdf_bytes) with
  | Raise e =>
      if is_value_error e then
        refuse (exn_str e ++ lit " Please ensure the PDF contains selectable text, not just images.")
      else refuse (lit "Error extracting text from PDF: " ++ exn_str e)
  | Ok pdf_text =>
  if (len pdf_text =? 0) || (len (strip pdf_text) =? 0) then
    refuse (lit "PDF contains no extractable text. The PDF might be image-based (scanned), encrypted, or corrupted. For scanned PDFs, OCR would be required.")
  else
  match chunk_text fuel pdf_text 1000 200 with
  | None => None
  | Some (Raise e) => Some (upload_error e, g, remote)
  | Some (Ok chunks) =>
  let '(r, g) := get_pinecone_service d g in
  match r with
  | Raise e => Some (upload_error e, g, remote)
  | Ok pinecone_service =>
  let '(r, g) := get_db_service d g in
  match r with
  | Raise e => Some (upload_error e, g, remote)
  | Ok db_service =>
      let '(stored_chunks, self, remote) :=
        store_chunks env pinecone_service remote pdf_id name chunks 0 0 in
      Some (Answer (mk_upload_result name stored_chunks (len pdf_text)),
            with_pinecone g self, remote)
  end end end end end end.

End Routes.

(** ** More vocabulary *)

Module Vocabulary.

Import Chunker Pinecone Re Json LLM Statements.

(** A list the line scan keeps: five items at most, each longer than
    five characters. *)
Definition kept (items : list (list N)) : Prop :=
  (length items <= 5)%nat /\ Forall (fun it => 5 < len it) items.

Definition scan_kept (st : scan) : Prop :=
  kept (sc_conditions st) /\ kept (sc_recommendations st).

(** The bounds of a parsed analysis. *)
Definition bounded (a : SymptomAnalysis) : Prop :=
  (1 <= length (conditions a) <= 5)%nat /\
  (1 <= length (recommendations a) <= 5)%nat /\
  graded (severity_assessment a).

(** Stage 1 adopts nothing: no object found, or an error on the way. *)
Definition no_json (text : list N) : Prop :=
  json_attempt text = Ok None \/ exists e, json_attempt text = Raise e.

(** An item of the pattern fallback: longer than five characters, with
    no period and no line break in it. *)
Definition clause_item (item : list N) : Prop :=
  5 < len item /\ ReSpec.in_sentence item.

(** Only white space. *)
Definition blank (s : list N) : Prop := forallb isspace s = true.

(** A contiguous piece of a text. *)
Definition piece_of (text piece : list N) : Prop :=
  exists before after, text = before ++ piece ++ after.

(** The page [pdfplumber] or [PyPDF2] reads a text on. *)
Definition read (t : list N) : Extract.page := Ok (Some t).

(** The pages after the last one read: none, or an error first. *)
Definition reading_ends (pages : list Extract.page) : Prop :=
  match pages with
  | [] => True
  | Raise _ :: _ => True
  | Ok _ :: _ => False
  end.

(** A document pdfplumber reads two pages of before it fails on the
    third, and PyPDF2 would read whole. *)
Definition half_read : Extract.Pdf :=
  Extract.mk_pdf
    (Ok (map read [lit "Page one"; lit "Page two"]
         ++ [Raise (Exception (lit "bad page")); read (lit "Page four")]))
    (Ok [read (lit "All of it")])
    (Raise ImportError).

(** Every embedding the chunk loop asks for succeeds: the first on the
    service as it is, each later one on the service as the call before
    left it. *)
Fixpoint embeds (env : Env) (self : PineconeService)
    (chunks : list (list N)) : Prop :=
  match chunks with
  | [] => True
  | chunk :: rest =>
      (exists v, fst (generate_embedding env self chunk) = Ok v) /\
      embeds env (snd (generate_embedding env self chunk)) rest
  end.

(** The index takes every vector. *)
Definition accepting (remote : Ingest.Remote) : Prop :=
  forall id v, Ingest.refuses remote id v = false.

(** No entry can be written to the history: the collection is missing,
    or every insert fails. *)
Definition no_history (db : Routes.DatabaseService) : Prop :=
  forall doc, Routes.save_symptom_history db doc = None.

(** A service without a connection to MongoDB. *)
Definition offline_db : Routes.DatabaseService := Routes.mk_db None.

(** The upload can be read and the two services of the upload route can
    be had. *)
Definition upload_ready (d : Routes.Deployment) (g : Routes.Services)
    (pdf : Routes.Upload) : Prop :=
  (exists b, Routes.read pdf = Ok b) /\
  (exists self, fst (Routes.get_pinecone_service d g) = Ok self) /\
  (exists db, fst (Routes.get_db_service d g) = Ok db).

(** No service made yet. *)
Definition no_services : Routes.Services := Routes.mk_services None None None.

(** [str()] of a metadata value. *)
Definition plain_str (v : mval) : list N :=
  match v with
  | MStr s => s
  | MOther => lit "None"
  end.

(** No comma in it. *)
Definition comma_free (s : list N) : Prop := ~ In 44%N s.

(** The metadata a stored chunk carries under [text]. *)
Definition stored_text (md : gmap (list N) mval) : option (list N) :=
  match md !! lit "text" with
  | Some (MStr t) => Some t
  | _ => None
  end.

(** An index that is there, and a remote that takes or refuses
    everything. *)
Definition some_service : PineconeService :=
  mk_service (mk_client ∅ (fun _ => false) (fun _ => mk_index (fun _ _ => Ok [])))
             (lit "healthchecker") (Some (mk_index (fun _ _ => Ok []))) None.
(** An index that answers every query with one stored case. *)
Definition stored_case : Match :=
  mk_match (Some (Ingest.symptom_metadata (lit "fever")
                    [lit "Influenza"; lit "Common cold"]
                    [lit "Rest at home"]))
           (Qmake 9 10).
Definition answering_index : Index := mk_index (fun _ _ => Ok [stored_case]).
Definition answering_service : PineconeService :=
  mk_service (pc some_service) (lit "healthchecker") (Some answering_index) None.
Definition open_remote : Ingest.Remote := Ingest.mk_remote ∅ (fun _ _ => false).

(** An index that answers every query with one stored chunk. *)
Definition stored_chunk : Match :=
  mk_match (Some (Ingest.pdf_metadata (lit "Drink water.") (lit "doc_chunk_0")
                    (lit "advice.pdf")))
           (Qmake 4 5).
Definition chunk_index : Index := mk_index (fun _ _ => Ok [stored_chunk]).
Definition chunk_service : PineconeService :=
  mk_service (pc some_service) (lit "healthchecker") (Some chunk_index) None.

(** A value between 0 and 1. *)
Definition unit_interval (q : Q) : Prop := (0 <= q)%Q /\ (q <= 1)%Q.

(** Every call of the client succeeds. *)
Definition reachable (pc0 : Client) : Prop := forall c, fails pc0 c = false.

(** What [generate_embedding] gives with the model [m] at hand. *)
Definition encoded (m : Pinecone.Model) (text : list N) : result (list Q) :=
  match encode m text with
  | Ok v => Ok v
  | Raise ImportError => hash_fallback text
  | Raise e => Raise e
  end.

(** An account with one index of dimension 1024 and another index. *)
Definition old_account : Client :=
  mk_client (<[lit "healthchecker" := 1024]> (<[lit "other" := 768]> ∅))
            (fun _ => false) (fun _ => mk_index (fun _ _ => Ok [])).

(** An account that cannot be reached. *)
Definition lost_account : Client :=
  mk_client ∅ (fun _ => true) (fun _ => mk_index (fun _ _ => Ok [])).

(** The service made on it: it holds no index. *)
Definition lost_service : PineconeService :=
  __init__ lost_account (lit "healthchecker").

(** A model that returns a fixed vector, and a library that has it. *)
Definition constant_model : Pinecone.Model :=
  mk_model (fun _ => Ok [Qmake 1 2; Qmake 1 3]).
Definition with_model : Env := mk_env (Some (fun _ => Ok constant_model)).

(** A model whose vectors have the dimension of the index. *)
Definition steady_model : Pinecone.Model :=
  mk_model (fun _ => Ok (repeat (Qmake 1 2) 384)).
Definition with_steady_model : Env :=
  mk_env (Some (fun _ => Ok steady_model)).

(** A deployment where every service can be made but MongoDB cannot be
    reached. *)
Definition without_mongo : Routes.Deployment :=
  Routes.mk_deployment (Ok offline_db) (Ok terse_model)
    (Ok (mk_client ∅ (fun _ => false) (fun _ => idle_index)))
    (lit "healthchecker").

End Vocabulary.

(** * Properties *)

(** ** Slices *)

Module SliceFacts.

Import Statements.

Lemma slice_to_firstn {A} (l : list A) (k : Z) :
  0 <= k -> slice_to l k = firstn (Z.to_nat k) l.
Proof.
  intros Hk. unfold slice_to, slice, adjust, len.
  replace (0 <? 0) with false by reflexivity.
  assert (Hk' : (k <? 0) = false) by (apply Z.ltb_ge; lia).
  rewrite Hk'.
  replace (Z.min 0 (Z.of_nat (length l))) with 0 by lia.
  change (skipn (Z.to_nat 0) l) with l. rewrite Z.sub_0_r.
  destruct (Z.le_ge_cases k (Z.of_nat (length l))) as [Hle | Hge].
  - rewrite Z.min_l by lia. reflexivity.
  - rewrite Z.min_r by lia. rewrite Nat2Z.id.
    rewrite firstn_all. symmetry. apply firstn_all2. lia.
Qed.

(** A slice between two non-negative bounds. *)
Lemma slice_sub {A} (T : list A) (a b : Z) :
  0 <= a -> 0 <= b ->
  slice T a b
  = sub T (Z.to_nat (Z.min a (len T))) (Z.to_nat (Z.min b (len T))).
Proof.
  intros Ha Hb. unfold slice, adjust, sub.
  assert (Ha' : (a <? 0) = false) by (apply Z.ltb_ge; lia).
  assert (Hb' : (b <? 0) = false) by (apply Z.ltb_ge; lia).
  rewrite Ha', Hb'. f_equal. unfold len. lia.
Qed.

(** A slice is no longer than the distance between its bounds. *)
Lemma slice_length_le {A} (l : list A) (i d : Z) :
  0 <= d -> len (slice l i (i + d)) <= d.
Proof.
  intros Hd. unfold slice, len. rewrite length_firstn.
  assert (H : adjust (Z.of_nat (length l)) (i + d)
              - adjust (Z.of_nat (length l)) i <= d).
  { unfold adjust.
    destruct (i + d <? 0) eqn:E1; destruct (i <? 0) eqn:E2;
      rewrite ?Z.ltb_lt, ?Z.ltb_ge in *; lia. }
  lia.
Qed.

Lemma sub_length {A} (T : list A) (a b : nat) :
  length (sub T a b) = Nat.min (b - a) (length T - a).
Proof. unfold sub. rewrite length_firstn, length_skipn. reflexivity. Qed.

Lemma skipn_sub {A} (T : list A) (a b k : nat) :
  skipn k (sub T a b) = sub T (a + k) b.
Proof.
  unfold sub. rewrite skipn_firstn_comm, skipn_skipn.
  replace (k + a)%nat with (a + k)%nat by lia.
  f_equal. lia.
Qed.

Lemma firstn_sub {A} (T : list A) (a b k : nat) :
  firstn k (sub T a b) = sub T a (Nat.min (a + k) b).
Proof. unfold sub. rewrite firstn_firstn. f_equal. lia. Qed.

Lemma sub_app {A} (T : list A) (a b c : nat) :
  (a <= b <= c)%nat -> sub T a b ++ sub T b c = sub T a c.
Proof.
  intros H. unfold sub.
  rewrite <- (firstn_skipn (b - a) (firstn (c - a) (skipn a T))).
  rewrite firstn_firstn, skipn_firstn_comm, skipn_skipn.
  replace (Nat.min (b - a) (c - a)) with (b - a)%nat by lia.
  replace (c - a - (b - a))%nat with (c - b)%nat by lia.
  replace (b - a + a)%nat with b by lia.
  reflexivity.
Qed.

Lemma sub_to_end {A} (T : list A) (a b : nat) :
  (length T <= b)%nat -> sub T a b = skipn a T.
Proof.
  intros H. unfold sub. apply firstn_all2. rewrite length_skipn. lia.
Qed.

Lemma sub_from_start {A} (T : list A) (b : nat) : sub T 0 b = firstn b T.
Proof. unfold sub. rewrite Nat.sub_0_r. reflexivity. Qed.

Lemma sub_empty {A} (T : list A) (a b : nat) :
  (b <= a)%nat -> sub T a b = [].
Proof.
  intros H. unfold sub. replace (b - a)%nat with 0%nat by lia. reflexivity.
Qed.

End SliceFacts.

(** ** The vector retriever *)

Module RetrieverFacts.

Import Pinecone Statements.

(** A service whose client cannot list the indexes holds no index. *)
Lemma init_unreachable (pc : Client) (name : list N) :
  fails pc ListIndexes = true -> index (__init__ pc name) = None.
Proof.
  intros Hf. unfold __init__, _initialize_index, call. simpl.
  rewrite Hf. reflexivity.
Qed.

(** C9. When the backing index is unavailable (the service holds no
    index, or the query raises), [search_similar_symptoms] and
    [search_pdf_content] both return the empty list: neither raises. *)
Theorem search_unavailable_is_empty
    (self : PineconeService) (v : list Q) (top_k : Z) :
  unavailable self v top_k ->
  search_similar_symptoms self v top_k = Ok [] /\
  search_pdf_content self v top_k = Ok [].
Proof.
  intros [Hnone | (ix & e & Hix & Hq)];
    unfold search_similar_symptoms, search_pdf_content.
  - rewrite Hnone. split; reflexivity.
  - rewrite Hix, Hq. split; reflexivity.
Qed.

Lemma search_unavailable_is_empty_witness :
  unavailable broken_service [Qmake 1 2] 5 /\
  search_similar_symptoms broken_service [Qmake 1 2] 5 = Ok [] /\
  search_pdf_content broken_service [Qmake 1 2] 5 = Ok [].
Proof.
  assert (H : unavailable broken_service [Qmake 1 2] 5).
  { right. exists broken_index, (Exception (lit "connection reset")).
    split; reflexivity. }
  split; [exact H | exact (search_unavailable_is_empty _ _ _ H)].
Defined.

(** Neither query raises, whatever the index does. *)
Lemma search_never_raises (self : PineconeService) (v : list Q) (top_k : Z) :
  (exists l, search_similar_symptoms self v top_k = Ok l) /\
  (exists l, search_pdf_content self v top_k = Ok l).
Proof.
  unfold search_similar_symptoms, search_pdf_content.
  destruct (index self) as [ix|]; [|split; eexists; reflexivity].
  destruct (query ix v top_k) as [ms|e]; simpl.
  - split; [|eexists; reflexivity].
    destruct (symptom_contexts ms []); simpl; eexists; reflexivity.
  - split; eexists; reflexivity.
Qed.

End RetrieverFacts.

(** ** The response parser *)

Module ParserFacts.

Import Re Json LLM SliceFacts Statements.

Lemma length_slice_to_5 {A} (l : list A) :
  l <> [] -> (1 <= length (slice_to l 5) <= 5)%nat.
Proof.
  intros Hne. rewrite slice_to_firstn by lia. rewrite length_firstn.
  change (Z.to_nat 5) with 5%nat.
  destruct l; [congruence | simpl length; lia].
Qed.

Lemma or_else_nonempty (l other : list (list N)) :
  other <> [] -> or_else l other <> [].
Proof. intros Ho. destruct l; simpl; [exact Ho | discriminate]. Qed.

Lemma severity_keyword_graded (l : list N) (k : string) :
  severity_keyword l = Some k -> graded (lit k).
Proof.
  unfold severity_keyword, graded.
  repeat case_match; intros [= <-]; auto.
Qed.

Lemma append_item_severity (st : scan) (c : list N) (b : bool) :
  sc_severity (append_item st c b) = sc_severity st.
Proof. unfold append_item. repeat case_match; reflexivity. Qed.

Lemma item_severity (st : scan) (r : list N) :
  sc_severity (item st r) = sc_severity st.
Proof.
  unfold item. case_match; [apply append_item_severity | reflexivity].
Qed.

Lemma scan_line_names (st : scan) (raw : list N) (k : string) :
  names_severity raw = Some k ->
  sc_severity (scan_line st raw) = lit k.
Proof.
  unfold names_severity, scan_line.
  repeat case_match; try discriminate; intros [= <-]; reflexivity.
Qed.

Lemma scan_line_keeps (st : scan) (raw : list N) :
  names_severity raw = None ->
  sc_severity (scan_line st raw) = sc_severity st.
Proof.
  unfold names_severity, scan_line.
  repeat case_match; try discriminate; intros _;
    rewrite ?item_severity, ?append_item_severity; reflexivity.
Qed.

Lemma scan_keeps (post : list (list N)) (st : scan) :
  Forall (fun raw => names_severity raw = None) post ->
  sc_severity (fold_left scan_line post st) = sc_severity st.
Proof.
  intros H. revert st.
  induction H as [|raw post Hraw _ IH]; intros st; simpl; [reflexivity|].
  rewrite IH. apply scan_line_keeps, Hraw.
Qed.

Lemma scan_last_wins (pre post : list (list N)) (l : list N) (k : string)
    (st : scan) :
  names_severity l = Some k ->
  Forall (fun raw => names_severity raw = None) post ->
  sc_severity (fold_left scan_line (pre ++ l :: post) st) = lit k.
Proof.
  intros Hl Hpost. rewrite fold_left_app. simpl.
  rewrite scan_keeps by exact Hpost. apply scan_line_names, Hl.
Qed.

Lemma scan_graded (ls : list (list N)) (st : scan) :
  graded (sc_severity st) ->
  graded (sc_severity (fold_left scan_line ls st)).
Proof.
  revert st. induction ls as [|raw ls IH]; intros st Hst; simpl; [exact Hst|].
  apply IH. destruct (names_severity raw) as [k|] eqn:Hn.
  - rewrite (scan_line_names _ _ _ Hn).
    unfold names_severity in Hn.
    repeat case_match; try discriminate.
    eapply severity_keyword_graded, Hn.
  - rewrite (scan_line_keeps _ _ Hn). exact Hst.
Qed.

(** Stages 2 to 4 give one to five items in each list and a graded
    severity. *)
Lemma parse_sections_bounded (text : list N) :
  (1 <= length (conditions (parse_sections text)) <= 5)%nat /\
  (1 <= length (recommendations (parse_sections text)) <= 5)%nat /\
  graded (severity_assessment (parse_sections text)).
Proof.
  unfold parse_sections. simpl. repeat split.
  1-2: apply length_slice_to_5, or_else_nonempty; discriminate.
  1-2: apply length_slice_to_5, or_else_nonempty; discriminate.
  apply scan_graded. unfold graded. auto.
Qed.

(** The parser returns for every text. *)
Lemma parse_total (text : list N) :
  exists a, _parse_text_response text = Ok a.
Proof.
  unfold _parse_text_response.
  destruct (json_attempt text) as [[a|]|e]; eexists; reflexivity.
Qed.

(** Outside stage 1 the result is bounded. *)
Lemma parse_bounded_without_json (text : list N) (a : SymptomAnalysis) :
  json_attempt text <> Ok (Some a) ->
  _parse_text_response text = Ok a ->
  (1 <= length (conditions a) <= 5)%nat /\
  (1 <= length (recommendations a) <= 5)%nat /\
  graded (severity_assessment a).
Proof.
  unfold _parse_text_response. intros Hj.
  destruct (json_attempt text) as [[a'|]|e]; intros [= <-];
    try apply parse_sections_bounded.
  congruence.
Qed.

(** C1. The parser does not bound what stage 1 adopts: on the response
    [{"conditions": []}] it returns, without raising, an analysis with
    no condition and no recommendation, where the specification asks for
    one to five of each. *)
Theorem parse_json_unbounded :
  _parse_text_response empty_conditions_response
  = Ok (mk_analysis [] [] (lit "moderate")).
Proof. vm_compute. reflexivity. Qed.

Example parse_json_six :
  _parse_text_response six_conditions_response
  = Ok (mk_analysis [lit "a"; lit "b"; lit "c"; lit "d"; lit "e"; lit "f"]
          [] (lit "moderate")).
Proof. vm_compute. reflexivity. Qed.

Lemma section_example_parsed :
  _parse_text_response section_example = Ok section_example_result.
Proof. vm_compute. reflexivity. Qed.

(** C4, as stated, fails: on the example the parser returns neither
    the lists [Flu, Cold] and [Rest] nor the severity [severe]. *)
Lemma section_example_disagrees :
  exists a,
    _parse_text_response section_example = Ok a /\
    severity_assessment a <> lit "severe" /\
    conditions a <> [lit "Flu"; lit "Cold"] /\
    recommendations a <> [lit "Rest"].
Proof.
  exists section_example_result. split; [apply section_example_parsed|].
  repeat split; discriminate.
Qed.

(** C4, amended. In the line scan, a line that is not blank, is not a
    section header, contains [severity] and names a grade ([mild]
    looked for before [severe], [severe] before [moderate]) overwrites
    the recorded severity, so the last such line wins; a list item is
    kept only when longer than five characters.  On the example the
    parser returns the two advisory fallbacks and the severity [mild]. *)
Theorem last_severity_line_wins :
  (forall (text : list N) (pre post : list (list N)) (l : list N)
          (k : string),
      split text 10 = pre ++ l :: post ->
      names_severity l = Some k ->
      Forall (fun raw => names_severity raw = None) post ->
      sc_severity (scan_lines text) = lit k) /\
  names_severity (lit "SEVERITY: mild then SEVERITY: severe")
    = Some "mild"%string /\
  (forall st, item st (lit "Flu") = st) /\
  _parse_text_response section_example = Ok section_example_result.
Proof.
  split; [|split; [|split]].
  - intros text pre post l k Hs Hl Hpost. unfold scan_lines.
    rewrite Hs. apply scan_last_wins; assumption.
  - vm_compute. reflexivity.
  - intros st. reflexivity.
  - apply section_example_parsed.
Qed.

(** The hypotheses of the general part are met by the example. *)
Example last_severity_line_wins_example :
  sc_severity (scan_lines section_example) = lit "mild".
Proof.
  vm_compute. reflexivity.
Qed.

End ParserFacts.

(** ** The model invoker and the orchestrator *)

Module InvokerFacts.

Import LLM Statements.

Lemma fallback_dict : is_fallback (analysis_dict fallback_analysis).
Proof. repeat split; vm_compute; reflexivity. Qed.

(** What [ask] does, by the first response. *)
Lemma ask_first_raises (llm : Model) (st : SymptomAnalysisState) (e : exn) :
  llm 0%nat (first_call (symptoms st) (context st)) = Raise e ->
  ask llm st [] = (Raise e, [first_call (symptoms st) (context st)]).
Proof.
  intros H. unfold ask, mbind, invoke. simpl. unfold first_call in H.
  rewrite H. reflexivity.
Qed.

Lemma ask_short (llm : Model) (st : SymptomAnalysisState) (r : Response) :
  llm 0%nat (first_call (symptoms st) (context st)) = Ok r ->
  too_short (text_of r) = true ->
  ask llm st []
  = (Raise short_response, [first_call (symptoms st) (context st)]).
Proof.
  intros H Hs. unfold ask, mbind, invoke. simpl. unfold first_call in H.
  rewrite H, Hs. reflexivity.
Qed.

Lemma ask_retry (llm : Model) (st : SymptomAnalysisState) (r : Response) :
  llm 0%nat (first_call (symptoms st) (context st)) = Ok r ->
  too_short (text_of r) = false ->
  acknowledges (text_of r) = true ->
  ask llm st []
  = (bind (llm 1%nat (retry_call (symptoms st)))
          (fun r2 => _parse_text_response (retry_text_of r2)),
     [first_call (symptoms st) (context st); retry_call (symptoms st)]).
Proof.
  intros H Hs Ha. unfold ask, mbind, invoke, lift. simpl.
  unfold first_call in H. rewrite H, Hs, Ha. simpl.
  unfold retry_call.
  destruct (llm 1%nat _) as [r2|e]; reflexivity.
Qed.

Lemma ask_accept (llm : Model) (st : SymptomAnalysisState) (r : Response) :
  llm 0%nat (first_call (symptoms st) (context st)) = Ok r ->
  too_short (text_of r) = false ->
  acknowledges (text_of r) = false ->
  ask llm st []
  = (_parse_text_response (text_of r),
     [first_call (symptoms st) (context st)]).
Proof.
  intros H Hs Ha. unfold ask, mbind, invoke, lift. simpl.
  unfold first_call in H. rewrite H, Hs, Ha. reflexivity.
Qed.

(** The orchestrator on top of [ask]. *)
Lemma generate_of_ask (llm : Model) (symptoms : list N)
    (context : option (list (list N))) :
  generate_symptom_analysis llm symptoms context []
  = match ask llm (mk_state symptoms context None None) [] with
    | (Ok a, calls) => (Ok (analysis_dict a), calls)
    | (Raise _, calls) => (Ok (analysis_dict fallback_analysis), calls)
    end.
Proof.
  unfold generate_symptom_analysis, graph_invoke, _analyze_symptoms_node,
    _format_response_node, catch, mbind, ret, raise.
  destruct (ask llm _ []) as [[a|e] calls]; reflexivity.
Qed.

(** The orchestrator returns a dictionary for every model. *)
Lemma generate_never_raises (llm : Model) (symptoms : list N)
    (context : option (list (list N))) :
  exists d calls,
    generate_symptom_analysis llm symptoms context [] = (Ok d, calls).
Proof.
  rewrite generate_of_ask.
  destruct (ask llm _ []) as [[a|e] calls]; eexists; eexists; reflexivity.
Qed.

(** *** The two tests of the first response *)

Lemma startswith_prefix (s p : list N) :
  startswith s p = true <-> exists rest, s = p ++ rest.
Proof.
  revert s. induction p as [|x p IH]; intros s.
  - destruct s; (split; [intros _; eexists; reflexivity | reflexivity]).
  - destruct s as [|y s]; cbn [startswith].
    + split; [discriminate | intros [rest H]; discriminate H].
    + rewrite andb_true_iff, N.eqb_eq, IH. split.
      * intros [-> [rest ->]]. exists rest. reflexivity.
      * intros [rest H]. injection H as -> ->. split; [reflexivity|].
        exists rest. reflexivity.
Qed.

Lemma contains_unfold (s p : list N) :
  contains s p
  = startswith s p || match s with [] => false | _ :: s' => contains s' p end.
Proof. destruct s; reflexivity. Qed.

(** [p in s] holds exactly when [p] occurs in [s]. *)
Lemma contains_occurs (s p : list N) :
  contains s p = true <-> occurs p s.
Proof.
  unfold occurs. split.
  - induction s as [|c s IH]; rewrite contains_unfold, orb_true_iff.
    + intros [H | H]; [|discriminate].
      apply startswith_prefix in H. destruct H as [rest H].
      exists [], rest. exact H.
    + intros [H | H].
      * apply startswith_prefix in H. destruct H as [rest H].
        exists [], rest. exact H.
      * destruct (IH H) as (before & after & ->).
        exists (c :: before), after. reflexivity.
  - intros (before & after & ->).
    induction before as [|c before IH]; rewrite contains_unfold, orb_true_iff.
    + left. apply startswith_prefix. exists after. reflexivity.
    + right. exact IH.
Qed.

Lemma too_short_iff (text : list N) :
  too_short text = true <-> near_empty text.
Proof.
  unfold too_short, near_empty.
  rewrite orb_true_iff, Z.eqb_eq, Z.ltb_lt. split; [|tauto].
  intros [H | H]; [|exact H].
  destruct text; [vm_compute; reflexivity | discriminate H].
Qed.

Lemma too_short_false (text : list N) :
  too_short text = false <-> ~ near_empty text.
Proof.
  rewrite <- too_short_iff. destruct (too_short text); split; congruence.
Qed.

Lemma acknowledges_iff (text : list N) :
  acknowledges text = true <-> acknowledgment text.
Proof.
  unfold acknowledges, acknowledgment.
  rewrite andb_true_iff, negb_true_iff, existsb_exists.
  rewrite SliceFacts.slice_to_firstn by lia.
  change (Z.to_nat 200) with 200%nat.
  assert (Hno : contains (upper text) (lit "CONDITIONS:") = false
                <-> ~ occurs (lit "CONDITIONS:") (upper text)).
  { rewrite <- contains_occurs.
    destruct (contains (upper text) (lit "CONDITIONS:")); split; congruence. }
  rewrite Hno. split; intros [(phrase & Hin & Hp) Hm]; (split; [|exact Hm]);
    exists phrase; (split; [exact Hin|]); apply contains_occurs; exact Hp.
Qed.

Lemma acknowledges_false (text : list N) :
  acknowledges text = false <-> ~ acknowledgment text.
Proof.
  rewrite <- acknowledges_iff.
  destruct (acknowledges text); split; congruence.
Qed.

(** C2, as stated, fails: when the model is unreachable the returned
    severity is not [unknown]. *)
Lemma failure_severity_is_not_unknown :
  exists d calls,
    generate_symptom_analysis failing_model (lit "headache and fever") None []
    = (Ok d, calls) /\
    d !! lit "severity" <> Some (DStr (lit "unknown")).
Proof.
  eexists; eexists. split; [vm_compute; reflexivity|].
  vm_compute. discriminate.
Qed.

(** C2, amended. When the model fails at an attempt, the orchestrator
    raises nothing: it returns the dictionary whose severity is the
    string [Unable to assess] and whose conditions and recommendations
    each hold one advisory sentence. *)
Theorem invocation_failure_gives_fallback (llm : Model) (symptoms : list N)
    (context : option (list (list N))) :
  invocation_fails llm symptoms context ->
  exists d calls,
    generate_symptom_analysis llm symptoms context [] = (Ok d, calls) /\
    is_fallback d.
Proof.
  intros Hf. rewrite generate_of_ask.
  set (st := mk_state symptoms context None None).
  destruct Hf as [(e & H) | (r & e & H & Hs & Ha & H2)].
  - rewrite (ask_first_raises llm st e H).
    eexists; eexists; split; [reflexivity | apply fallback_dict].
  - apply too_short_false in Hs. apply acknowledges_iff in Ha.
    rewrite (ask_retry llm st r H Hs Ha). simpl. rewrite H2. simpl.
    eexists; eexists; split; [reflexivity | apply fallback_dict].
Qed.

Lemma invocation_failure_gives_fallback_witness :
  invocation_fails acknowledging_then_down (lit "headache and fever") None /\
  exists d calls,
    generate_symptom_analysis acknowledging_then_down
      (lit "headache and fever") None []
    = (Ok d, calls) /\
    is_fallback d.
Proof.
  assert (H : invocation_fails acknowledging_then_down
                (lit "headache and fever") None).
  { right. exists (AIMessage kelvin_okay), (Exception (lit "backend unreachable")).
    split; [reflexivity|]. split; [|split; [|reflexivity]].
    - apply too_short_false. vm_compute. reflexivity.
    - apply acknowledges_iff. vm_compute. reflexivity. }
  split; [exact H | exact (invocation_failure_gives_fallback _ _ _ H)].
Defined.

(** C8, as stated, fails: a near-empty first response is not re-issued.
    The model is called once and the node gets the error. *)
Lemma short_response_is_not_retried :
  too_short (lit "OK") = true /\
  ask terse_model headache []
  = (Raise short_response, [first_call (lit "headache") None]).
Proof. split; vm_compute; reflexivity. Qed.

Lemma length_lit_app (a : string) (s : list N) :
  length (lit a ++ s) = (length (lit a) + length s)%nat.
Proof. apply length_app. Qed.

Lemma retry_is_shorter (symptoms : list N) (context : option (list (list N))) :
  (length (retry_text symptoms) < length (prompt_text symptoms context))%nat.
Proof.
  unfold retry_text, prompt_text. cbn [join].
  repeat rewrite ?length_app, ?length_cons.
  repeat match goal with
         | |- context [length (lit ?s)] =>
             let n := eval vm_compute in (length (lit s)) in
             change (length (lit s)) with n
         end.
  change (length nl) with 1%nat. change (length dq) with 1%nat.
  change (length (@nil N)) with 0%nat.
  lia.
Qed.

(** The protocol, by the two tests of the node. *)
Lemma retry_by_tests (llm : Model) (state : SymptomAnalysisState) :
  let first := first_call (symptoms state) (context state) in
  let second := retry_call (symptoms state) in
  let out := ask llm state [] in
  (snd out = [first] \/ snd out = [first; second]) /\
  (forall r, llm 0%nat first = Ok r -> too_short (text_of r) = true ->
             out = (Raise short_response, [first])) /\
  (snd out = [first; second] <->
     exists r, llm 0%nat first = Ok r /\ too_short (text_of r) = false /\
               acknowledges (text_of r) = true) /\
  (forall r r2, llm 0%nat first = Ok r -> too_short (text_of r) = false ->
                acknowledges (text_of r) = true ->
                llm 1%nat second = Ok r2 ->
                fst out = _parse_text_response (retry_text_of r2)) /\
  (forall r, llm 0%nat first = Ok r -> too_short (text_of r) = false ->
             acknowledges (text_of r) = false ->
             out = (_parse_text_response (text_of r), [first])) /\
  (length (retry_text (symptoms state))
   < length (prompt_text (symptoms state) (context state)))%nat.
Proof.
  intros first second out. subst first second out.
  pose proof (retry_is_shorter (symptoms state) (context state)) as Hlen.
  destruct (llm 0%nat (first_call (symptoms state) (context state)))
    as [r|e] eqn:H.
  2: { rewrite (ask_first_raises llm state e H). cbn [fst snd].
       refine (conj _ (conj _ (conj _ (conj _ (conj _ Hlen))))).
       - left; reflexivity.
       - discriminate.
       - split; [discriminate | intros (r & Hr & _); discriminate].
       - discriminate.
       - discriminate. }
  destruct (too_short (text_of r)) eqn:Hs.
  { rewrite (ask_short llm state r H Hs). cbn [fst snd].
    refine (conj _ (conj _ (conj _ (conj _ (conj _ Hlen))))).
    - left; reflexivity.
    - reflexivity.
    - split; [discriminate | intros (r' & [= <-] & Hs' & _); congruence].
    - intros r' r2 [= <-]; congruence.
    - intros r' [= <-]; congruence. }
  destruct (acknowledges (text_of r)) eqn:Ha.
  - rewrite (ask_retry llm state r H Hs Ha). cbn [fst snd].
    refine (conj _ (conj _ (conj _ (conj _ (conj _ Hlen))))).
    + right; reflexivity.
    + intros r' [= <-]; congruence.
    + split; [intros _; exists r; auto | reflexivity].
    + intros r' r2 [= <-] _ _ H2. rewrite H2. reflexivity.
    + intros r' [= <-]; congruence.
  - rewrite (ask_accept llm state r H Hs Ha). cbn [fst snd].
    refine (conj _ (conj _ (conj _ (conj _ (conj _ Hlen))))).
    + left; reflexivity.
    + intros r' [= <-]; congruence.
    + split; [discriminate | intros (r' & [= <-] & _ & Ha'); congruence].
    + intros r' r2 [= <-]; congruence.
    + intros r' [= <-] _ _. reflexivity.
Qed.

(** C8, amended. A first response that is empty, or shorter than ten
    characters once stripped, is an error and is not re-issued. A longer
    one is re-issued exactly when its lower-cased text holds one of the
    five acknowledgment phrases within its first 200 characters and its
    upper-cased text does not hold [CONDITIONS:]; the request is then
    re-issued once, never more, with the shorter directive, and the
    text of the retry goes to the parser unchecked. Any other first
    response goes to the parser with no retry. *)
Theorem retry_protocol (llm : Model) (state : SymptomAnalysisState) :
  let first := first_call (symptoms state) (context state) in
  let second := retry_call (symptoms state) in
  let out := ask llm state [] in
  (snd out = [first] \/ snd out = [first; second]) /\
  (forall r, llm 0%nat first = Ok r -> near_empty (text_of r) ->
             out = (Raise short_response, [first])) /\
  (snd out = [first; second] <->
     exists r, llm 0%nat first = Ok r /\ ~ near_empty (text_of r) /\
               acknowledgment (text_of r)) /\
  (forall r r2, llm 0%nat first = Ok r -> ~ near_empty (text_of r) ->
                acknowledgment (text_of r) ->
                llm 1%nat second = Ok r2 ->
                fst out = _parse_text_response (retry_text_of r2)) /\
  (forall r, llm 0%nat first = Ok r -> ~ near_empty (text_of r) ->
             ~ acknowledgment (text_of r) ->
             out = (_parse_text_response (text_of r), [first])) /\
  (length (retry_text (symptoms state))
   < length (prompt_text (symptoms state) (context state)))%nat.
Proof.
  intros first second out.
  destruct (retry_by_tests llm state) as (H1 & H2 & H3 & H4 & H5 & H6).
  fold first second out in H1, H2, H3, H4, H5.
  refine (conj H1 (conj _ (conj _ (conj _ (conj _ H6))))).
  - intros r Hr Hs. apply (H2 r Hr). apply too_short_iff, Hs.
  - rewrite H3. split; intros (r & Hr & Hs & Ha); exists r;
      (split; [exact Hr|]).
    + split; [apply too_short_false, Hs | apply acknowledges_iff, Ha].
    + split; [apply too_short_false, Hs | apply acknowledges_iff, Ha].
  - intros r r2 Hr Hs Ha. apply (H4 r r2 Hr).
    + apply too_short_false, Hs.
    + apply acknowledges_iff, Ha.
  - intros r Hr Hs Ha. apply (H5 r Hr).
    + apply too_short_false, Hs.
    + apply acknowledges_false, Ha.
Qed.

(** Case is Python's: the Kelvin sign counts as [k] in an
    acknowledgment, and the dotless i as [I] in the marker. *)
Example kelvin_sign_is_retried :
  acknowledges kelvin_okay = true /\
  snd (ask (fun _ _ => Ok (AIMessage kelvin_okay)) headache [])
  = [first_call (lit "headache") None; retry_call (lit "headache")].
Proof. split; vm_compute; reflexivity. Qed.

Example dotless_marker_is_not_retried :
  acknowledges dotless_marker = false /\
  snd (ask (fun _ _ => Ok (AIMessage dotless_marker)) headache [])
  = [first_call (lit "headache") None].
Proof. split; vm_compute; reflexivity. Qed.

(** The acknowledgment need not open the response. *)
Example acknowledgment_inside_the_text :
  acknowledges (lit "Sure thing! I can help you with that today.") = true /\
  snd (ask (fun _ _ =>
              Ok (AIMessage (lit "Sure thing! I can help you with that today.")))
           headache [])
  = [first_call (lit "headache") None; retry_call (lit "headache")].
Proof. split; vm_compute; reflexivity. Qed.

End InvokerFacts.

(** ** The chunker *)

Module ChunkerFacts.

Import Chunker SliceFacts Statements.

Lemma rfind_from_bounds (c : N) (s : list N) (i acc : Z) :
  -1 <= acc < i ->
  -1 <= rfind_from c s i acc < i + len s.
Proof.
  revert i acc. induction s as [|x s IH]; intros i acc H; simpl.
  - unfold len. simpl. lia.
  - specialize (IH (i + 1) (if (x =? c)%N then i else acc)).
    unfold len in *. simpl length. rewrite Nat2Z.inj_succ.
    destruct (x =? c)%N; lia.
Qed.

Lemma rfind_bounds (s : list N) (c : N) : -1 <= rfind s c < len s.
Proof.
  unfold rfind. pose proof (rfind_from_bounds c s 0 (-1)). lia.
Qed.

(** The accumulating loop strips the windows of [windows_from]. *)
Lemma chunk_loop_windows (fuel : nat) (text : list N) (size overlap : Z)
    (start : Z) (chunks : list (list N)) :
  chunk_loop fuel text size overlap start chunks
  = option_map (fun ws => chunks ++ map strip ws)
      (windows_from fuel text size overlap start).
Proof.
  revert start chunks. induction fuel as [|fuel IH]; intros start chunks;
    simpl.
  - destruct (start <? len text); simpl; [reflexivity|].
    rewrite app_nil_r. reflexivity.
  - destruct (start <? len text); simpl.
    + destruct (window text size start) as [chunk e].
      rewrite IH.
      destruct (windows_from fuel text size overlap (e - overlap));
        simpl; [|reflexivity].
      rewrite <- app_assoc. reflexivity.
    + rewrite app_nil_r. reflexivity.
Qed.

(** *** Without a guard: [overlap >= chunk_size] *)

(** A window never ends past [start + chunk_size]. *)
Lemma window_end_le (text : list N) (size start : Z) :
  0 <= size -> snd (window text size start) <= start + size.
Proof.
  intros Hs. unfold window.
  destruct (start + size <? len text); [|simpl; lia].
  set (chunk := slice text start (start + size)).
  pose proof (rfind_bounds chunk dot) as Hp.
  pose proof (rfind_bounds chunk newline) as Hn.
  pose proof (slice_length_le text start size Hs) as Hl.
  fold chunk in Hl.
  destruct (size <? 2 * Z.max (rfind chunk dot) (rfind chunk newline));
    simpl; lia.
Qed.

Lemma loop_stuck (fuel : nat) (text : list N) (size overlap : Z)
    (start : Z) (chunks : list (list N)) :
  0 <= size -> size <= overlap -> 0 < len text -> start <= 0 ->
  chunk_loop fuel text size overlap start chunks = None.
Proof.
  intros Hs Ho Hl. revert start chunks.
  induction fuel as [|fuel IH]; intros start chunks Hstart; simpl;
    (replace (start <? len text) with true by (symmetry; apply Z.ltb_lt; lia)).
  - reflexivity.
  - pose proof (window_end_le text size start Hs) as He.
    destruct (window text size start) as [chunk e]. simpl in He.
    apply IH. lia.
Qed.

Lemma chunk_text_stuck (text : list N) (size overlap : Z) :
  0 <= size -> size <= overlap -> size < len text ->
  never_returns (fun fuel => chunk_text fuel text size overlap).
Proof.
  intros Hs Ho Hl fuel. unfold chunk_text.
  replace (len text <=? size) with false by (symmetry; apply Z.leb_gt; lia).
  rewrite loop_stuck by lia. reflexivity.
Qed.

Lemma never_returns_not_fails_fast {A} (run : nat -> option (result A)) :
  never_returns run -> ~ fails_fast run.
Proof. intros Hn (fuel & e & H). rewrite Hn in H. discriminate. Qed.

(** C3, as stated, fails: with [overlap = chunk_size = 3] on a text of
    six characters no error is raised; the call does not return. *)
Lemma no_guard_on_overlap :
  ~ fails_fast (fun fuel => chunk_text fuel (lit "aaaaaa") 3 3) /\
  never_returns (fun fuel => chunk_text fuel (lit "aaaaaa") 3 3).
Proof.
  assert (H : never_returns (fun fuel => chunk_text fuel (lit "aaaaaa") 3 3)).
  { apply chunk_text_stuck; [lia | lia | vm_compute; reflexivity]. }
  split; [apply never_returns_not_fails_fast, H | exact H].
Qed.

(** C3, amended. [chunk_text] does not validate [overlap] against
    [chunk_size]: with [0 <= chunk_size <= overlap] on a text longer
    than [chunk_size] the window never advances, so the call neither
    raises nor returns. *)
Theorem overlap_not_validated (text : list N) (size overlap : Z) :
  0 <= size -> size <= overlap -> size < len text ->
  never_returns (fun fuel => chunk_text fuel text size overlap) /\
  ~ fails_fast (fun fuel => chunk_text fuel text size overlap).
Proof.
  intros Hs Ho Hl.
  pose proof (chunk_text_stuck text size overlap Hs Ho Hl) as H.
  split; [exact H | apply never_returns_not_fails_fast, H].
Qed.

Lemma overlap_not_validated_witness :
  never_returns (fun fuel => chunk_text fuel (lit "one. two. three.") 10 12) /\
  ~ fails_fast (fun fuel => chunk_text fuel (lit "one. two. three.") 10 12).
Proof.
  apply (overlap_not_validated (lit "one. two. three.") 10 12);
    [lia | lia | vm_compute; reflexivity].
Defined.

(** *** A single window *)

Lemma single_window (fuel : nat) (text : list N) (size overlap : Z) :
  len text <= size ->
  chunk_text fuel text size overlap = Some (Ok [text]).
Proof.
  intros H. unfold chunk_text.
  replace (len text <=? size) with true by (symmetry; apply Z.leb_le; lia).
  reflexivity.
Qed.

(** C7. A text that fits one window comes back as it is, not stripped:
    [chunk_text(" a ", 10, 2)] is [[" a "]], where the specification, and
    the loop on longer texts, strip the chunk. *)
Theorem single_window_not_stripped :
  chunk_text 0 (lit " a ") 10 2 = Some (Ok [lit " a "]) /\
  strip (lit " a ") = lit "a" /\
  lit " a " <> lit "a".
Proof.
  split; [vm_compute; reflexivity|].
  split; [vm_compute; reflexivity | discriminate].
Qed.

(** *** Coverage *)

(** With [2 * overlap <= chunk_size] a window cut at [start] ends past
    [start + overlap], at [start + chunk_size] at most, and holds the
    text between [start] and its end. *)
Lemma window_spec (text : list N) (size overlap start : Z) :
  0 <= start < len text -> 0 < size -> 0 <= overlap -> 2 * overlap <= size ->
  exists e,
    start + overlap < e /\ e <= start + size /\
    window text size start
    = (sub text (Z.to_nat start) (Z.to_nat (Z.min e (len text))), e).
Proof.
  intros Hstart Hsize Hov Hhalf. unfold window.
  assert (Hchunk : slice text start (start + size)
                   = sub text (Z.to_nat start)
                       (Z.to_nat (Z.min (start + size) (len text)))).
  { rewrite slice_sub by lia. f_equal. lia. }
  rewrite Hchunk.
  set (chunk := sub text (Z.to_nat start)
                  (Z.to_nat (Z.min (start + size) (len text)))).
  destruct (start + size <? len text) eqn:Hend.
  2: { exists (start + size). repeat split; try lia. }
  apply Z.ltb_lt in Hend.
  pose proof (rfind_bounds chunk dot) as Hp.
  pose proof (rfind_bounds chunk newline) as Hn.
  set (bp := Z.max (rfind chunk dot) (rfind chunk newline)) in *.
  assert (Hlen : len chunk = size).
  { unfold len, chunk. rewrite sub_length. unfold len in *. lia. }
  destruct (size <? 2 * bp) eqn:Hbreak.
  2: { exists (start + size). repeat split; try lia. }
  apply Z.ltb_lt in Hbreak.
  exists (start + bp + 1). split; [lia|]. split; [lia|].
  f_equal. rewrite slice_to_firstn by lia. unfold chunk.
  rewrite firstn_sub. f_equal. unfold len in *. lia.
Qed.

(** From [start] on, the windows without their first [overlap]
    characters are the text from [start + overlap] on. *)
Lemma windows_cover (text : list N) (size overlap : Z) :
  0 < size -> 0 <= overlap -> 2 * overlap <= size ->
  forall (fuel : nat) (start : Z),
    0 <= start -> len text - start <= Z.of_nat fuel ->
    exists ws,
      windows_from fuel text size overlap start = Some ws /\
      concat (map (skipn (Z.to_nat overlap)) ws)
      = skipn (Z.to_nat (Z.min (start + overlap) (len text))) text.
Proof.
  intros Hsize Hov Hhalf.
  induction fuel as [|fuel IH]; intros start Hstart Hfuel.
  - exists []. simpl.
    replace (start <? len text) with false
      by (symmetry; apply Z.ltb_ge; lia).
    split; [reflexivity|].
    symmetry. apply skipn_all2. unfold len in *. lia.
  - simpl. destruct (start <? len text) eqn:Hlt.
    2: { apply Z.ltb_ge in Hlt. exists []. split; [reflexivity|].
         symmetry. apply skipn_all2. unfold len in *. lia. }
    apply Z.ltb_lt in Hlt.
    destruct (window_spec text size overlap start) as (e & He1 & He2 & Hw);
      try lia.
    rewrite Hw.
    destruct (IH (e - overlap)) as (ws & Hws & Hcat); try lia.
    rewrite Hws. eexists. split; [reflexivity|].
    simpl. rewrite Hcat, skipn_sub.
    replace (e - overlap + overlap) with e by lia.
    set (m := Z.to_nat (Z.min e (len text))).
    destruct (Z.le_gt_cases (start + overlap) (len text)) as [Hin | Hout].
    + replace (Z.to_nat (Z.min (start + overlap) (len text)))
        with (Z.to_nat start + Z.to_nat overlap)%nat by lia.
      set (a := (Z.to_nat start + Z.to_nat overlap)%nat).
      rewrite <- (sub_to_end text m (length text)) by lia.
      rewrite <- (sub_to_end text a (length text)) by lia.
      apply sub_app. unfold a, m, len in *. lia.
    + rewrite sub_empty by (unfold m, len in *; lia).
      simpl. f_equal. unfold m, len in *. lia.
Qed.

(** The windows of a whole run put together give the text back. *)
Lemma windows_reassemble (text : list N) (size overlap : Z) :
  0 < size -> 0 <= overlap -> 2 * overlap <= size ->
  exists ws,
    windows_from (length text) text size overlap 0 = Some ws /\
    reassemble overlap ws = text.
Proof.
  intros Hsize Hov Hhalf.
  destruct text as [|c text'] eqn:Htext.
  { exists []. split; reflexivity. }
  rewrite <- Htext.
  assert (Hlen : 0 < len text) by (rewrite Htext; unfold len; simpl; lia).
  assert (Hfuel : length text = S (length text'))
    by (rewrite Htext; reflexivity).
  rewrite Hfuel. simpl.
  replace (0 <? len text) with true by (symmetry; apply Z.ltb_lt; lia).
  destruct (window_spec text size overlap 0) as (e & He1 & He2 & Hw);
    try lia.
  rewrite Hw.
  destruct (windows_cover text size overlap Hsize Hov Hhalf
              (length text') (e - overlap)) as (ws & Hws & Hcat).
  { lia. }
  { unfold len in *. lia. }
  rewrite Hws. eexists. split; [reflexivity|].
  simpl. rewrite Hcat.
  replace (e - overlap + overlap) with e by lia.
  change (Z.to_nat 0) with 0%nat. rewrite sub_from_start.
  apply firstn_skipn.
Qed.

(** One turn of the loop. *)
Lemma chunk_loop_step (fuel : nat) (text : list N) (size overlap start : Z)
    (chunks : list (list N)) :
  start < len text ->
  chunk_loop (S fuel) text size overlap start chunks
  = chunk_loop fuel text size overlap
      (snd (window text size start) - overlap)
      (chunks ++ [strip (fst (window text size start))]).
Proof.
  intros H. simpl.
  replace (start <? len text) with true by (symmetry; apply Z.ltb_lt; lia).
  destruct (window text size start); reflexivity.
Qed.

Lemma early_sentence_cycle (fuel : nat) (start : Z) (chunks : list (list N)) :
  start = 0 \/ start = -2 \/ start = -1 ->
  chunk_loop fuel early_sentence 10 9 start chunks = None.
Proof.
  revert start chunks. induction fuel as [|fuel IH]; intros start chunks H.
  - destruct H as [-> | [-> | ->]]; reflexivity.
  - assert (Hl : len early_sentence = 16) by reflexivity.
    rewrite chunk_loop_step by lia. apply IH.
    destruct H as [-> | [-> | ->]]; vm_compute; auto.
Qed.

(** With an overlap above half the window a cut at a sentence end can
    send [start] backwards: on [abcdef.hijklmnop] with windows of 10 and
    an overlap of 9, [start] goes 0, -2, -1, 0, ... and the call does
    not return, although [overlap < chunk_size]. *)
Example backward_cut_does_not_return :
  never_returns (fun fuel => chunk_text fuel early_sentence 10 9).
Proof.
  intros fuel. unfold chunk_text.
  change (len early_sentence <=? 10) with false. cbn match.
  rewrite early_sentence_cycle by auto. reflexivity.
Qed.

(** C6, as stated, fails: with windows of four characters and no
    overlap, the chunks of [" abcd"] put together are ["abcd"], and
    they are the chunks of ["abc d"] as well: the text cannot be had
    back from them. *)
Lemma stripped_chunks_lose_text :
  chunk_text 5 leading_space 4 0 = Some (Ok [lit "abc"; lit "d"]) /\
  chunk_text 5 inner_space 4 0 = Some (Ok [lit "abc"; lit "d"]) /\
  reassemble 0 [lit "abc"; lit "d"] <> leading_space /\
  leading_space <> inner_space.
Proof.
  split; [vm_compute; reflexivity|].
  split; [vm_compute; reflexivity|].
  split; [vm_compute; discriminate | discriminate].
Qed.

(** C6, amended. For [0 < chunk_size], [0 <= overlap] and
    [2 * overlap <= chunk_size], [chunk_text] returns, and the windows
    it cuts, before they are stripped, reconstruct the text: the first
    window followed by every later one without its first [overlap]
    characters. The chunks returned for a text longer than
    [chunk_size] are these windows stripped; a shorter text is
    returned whole. *)
Theorem windows_reconstruct_text (text : list N) (size overlap : Z) :
  0 < size -> 0 <= overlap -> 2 * overlap <= size ->
  exists fuel ws,
    windows_from fuel text size overlap 0 = Some ws /\
    reassemble overlap ws = text /\
    chunk_text fuel text size overlap
    = Some (Ok (if len text <=? size then [text] else map strip ws)).
Proof.
  intros Hsize Hov Hhalf.
  destruct (windows_reassemble text size overlap Hsize Hov Hhalf)
    as (ws & Hws & Hre).
  exists (length text), ws. split; [exact Hws|]. split; [exact Hre|].
  unfold chunk_text. destruct (len text <=? size); [reflexivity|].
  rewrite chunk_loop_windows, Hws. reflexivity.
Qed.

Lemma windows_reconstruct_text_witness :
  exists fuel ws,
    windows_from fuel (lit "One. Two three four. Five six.") 10 5 0
    = Some ws /\
    reassemble 5 ws = lit "One. Two three four. Five six." /\
    chunk_text fuel (lit "One. Two three four. Five six.") 10 5
    = Some (Ok (if len (lit "One. Two three four. Five six.") <=? 10
                then [lit "One. Two three four. Five six."]
                else map strip ws)).
Proof.
  apply (windows_reconstruct_text (lit "One. Two three four. Five six.")
           10 5); lia.
Defined.

End ChunkerFacts.

(** ** The embedder's hash fallback *)

Module EmbedderFacts.

Import Pinecone SliceFacts Statements.

(** *** Encoding and digest *)

(** The digests of the empty message and of [abc], as FIPS 180-4 gives
    them. *)
Example sha256_empty :
  Sha256.hexdigest []
  = lit "e3b0c44298fc1c149afbf4c8996fb92427ae41e4649b934ca495991b7852b855".
Proof. vm_compute. reflexivity. Qed.

Example sha256_abc :
  bind (Utf8.encode (lit "abc")) (fun bytes => Ok (Sha256.hexdigest bytes))
  = Ok (lit "ba7816bf8f01cfea414140de5dae2223b00361a396177a9cb410ff61f20015ad").
Proof. vm_compute. reflexivity. Qed.

Lemma encode_char_total (c : N) :
  (c < 0x110000)%N -> ~ (0xD800 <= c <= 0xDFFF)%N ->
  exists bs, Utf8.encode_char c = Some bs.
Proof.
  intros Hc Hs. unfold Utf8.encode_char.
  destruct (Z.of_N c <? 128); [eexists; reflexivity|].
  destruct (Z.of_N c <? 2048); [eexists; reflexivity|].
  destruct ((55296 <=? Z.of_N c) && (Z.of_N c <=? 57343)) eqn:E.
  { apply andb_true_iff in E. destruct E as [E1 E2].
    apply Z.leb_le in E1, E2. exfalso. apply Hs. lia. }
  destruct (Z.of_N c <? 65536); [eexists; reflexivity|].
  destruct (Z.of_N c <? 1114112) eqn:E'; [eexists; reflexivity|].
  apply Z.ltb_ge in E'. lia.
Qed.

Lemma encode_total (text : list N) :
  Utf8.encodable text -> exists bytes, Utf8.encode text = Ok bytes.
Proof.
  induction text as [|c text IH]; intros H; simpl.
  - eexists; reflexivity.
  - destruct (H c) as [Hc Hs]; [left; reflexivity|].
    destruct (encode_char_total c Hc Hs) as [bs ->].
    destruct IH as [rest ->].
    { intros c' Hin. apply H. right. exact Hin. }
    eexists; reflexivity.
Qed.

Lemma land_255_byte (x : Z) : byte (Z.land x 255).
Proof.
  unfold byte. change (Z.land x 255) with (Z.land x (Z.ones 8)).
  rewrite Z.land_ones by lia. change (2 ^ 8) with 256.
  pose proof (Z.mod_pos_bound x 256). lia.
Qed.

Lemma be_bytes_4 (x : Z) :
  exists b3 b2 b1 b0,
    Sha256.be_bytes 4 x = [b3; b2; b1; b0] /\
    byte b3 /\ byte b2 /\ byte b1 /\ byte b0.
Proof.
  unfold Sha256.be_bytes. simpl.
  do 4 eexists. split; [reflexivity|].
  repeat split; apply land_255_byte.
Qed.

(** The digest is 32 bytes. *)
Lemma digest_bytes (msg : list Z) :
  length (Sha256.digest msg) = 32%nat /\ Forall byte (Sha256.digest msg).
Proof.
  unfold Sha256.digest.
  set (h := Sha256.blocks _ _ _). cbn [map concat].
  destruct (be_bytes_4 (Sha256.ha h)) as (? & ? & ? & ? & -> & ? & ? & ? & ?).
  destruct (be_bytes_4 (Sha256.hb h)) as (? & ? & ? & ? & -> & ? & ? & ? & ?).
  destruct (be_bytes_4 (Sha256.hc h)) as (? & ? & ? & ? & -> & ? & ? & ? & ?).
  destruct (be_bytes_4 (Sha256.hd h)) as (? & ? & ? & ? & -> & ? & ? & ? & ?).
  destruct (be_bytes_4 (Sha256.he h)) as (? & ? & ? & ? & -> & ? & ? & ? & ?).
  destruct (be_bytes_4 (Sha256.hf h)) as (? & ? & ? & ? & -> & ? & ? & ? & ?).
  destruct (be_bytes_4 (Sha256.hg h)) as (? & ? & ? & ? & -> & ? & ? & ? & ?).
  destruct (be_bytes_4 (Sha256.hh h)) as (? & ? & ? & ? & -> & ? & ? & ? & ?).
  split; [reflexivity|].
  simpl. repeat (apply List.Forall_cons; [assumption|]).
  apply List.Forall_nil.
Qed.

(** *** Hexadecimal there and back *)

Lemma all_bytes_read_back :
  forallb reads_back (map Z.of_nat (seq 0 256)) = true.
Proof. vm_compute. reflexivity. Qed.

Lemma hex_pair_int16 (b : Z) : byte b -> int16 (hex_pair b) = Ok b.
Proof.
  intros Hb. pose proof all_bytes_read_back as H.
  rewrite forallb_forall in H.
  specialize (H b). unfold reads_back in H.
  destruct (int16 (hex_pair b)) as [n|e].
  - assert (Hn : (n =? b) = true).
    { apply H. apply in_map_iff. exists (Z.to_nat b).
      split; [unfold byte in Hb; lia|]. apply in_seq. unfold byte in Hb. lia. }
    apply Z.eqb_eq in Hn. subst. reflexivity.
  - assert (Hn : false = true).
    { apply H. apply in_map_iff. exists (Z.to_nat b).
      split; [unfold byte in Hb; lia|]. apply in_seq. unfold byte in Hb. lia. }
    discriminate.
Qed.

Lemma hex_of_length (bs : list Z) :
  length (hex_of bs) = (2 * length bs)%nat.
Proof.
  unfold hex_of. induction bs as [|b bs IH]; simpl; [reflexivity|].
  simpl in IH. rewrite IH. lia.
Qed.

(** The pair at offset [2p] of the digits. *)
Lemma slice_pair (pre rest : list N) (h l : N) (p : nat) :
  length pre = (2 * p)%nat ->
  slice (pre ++ h :: l :: rest) (2 * Z.of_nat p) (2 * Z.of_nat p + 2)
  = [h; l].
Proof.
  intros Hp. rewrite slice_sub by lia. unfold sub, len.
  rewrite length_app. simpl length.
  replace (Z.to_nat (Z.min (2 * Z.of_nat p) _)) with (length pre) by lia.
  replace (Z.to_nat (Z.min (2 * Z.of_nat p + 2) _) - length pre)%nat
    with 2%nat by lia.
  rewrite skipn_app, Nat.sub_diag, skipn_all. reflexivity.
Qed.

Lemma entries_of_hex (bs : list Z) :
  Forall byte bs ->
  forall (pre : list N) (p : nat),
    length pre = (2 * p)%nat ->
    for_each (entry (pre ++ hex_of bs))
             (map (fun k => 2 * Z.of_nat k) (seq p (length bs)))
    = Ok (map (fun b => Qmake b 255) bs).
Proof.
  induction 1 as [|b bs Hb _ IH]; intros pre p Hp; [reflexivity|].
  cbn [length seq map for_each].
  unfold entry at 1. unfold hex_of. cbn [map concat hex_pair app].
  rewrite (slice_pair pre _ _ _ p Hp).
  fold (hex_pair b). rewrite (hex_pair_int16 b Hb). cbn [bind].
  fold (hex_of bs).
  replace (pre ++ Sha256.hex_char (Z.shiftr b 4)
               :: Sha256.hex_char (Z.land b 15) :: hex_of bs)
    with ((pre ++ hex_pair b) ++ hex_of bs)
    by (rewrite <- app_assoc; reflexivity).
  rewrite (IH (pre ++ hex_pair b) (S p)).
  - reflexivity.
  - rewrite length_app. simpl. lia.
Qed.

Lemma hash_fallback_value (text : list N) (bytes : list Z) :
  Utf8.encode text = Ok bytes ->
  hash_fallback text = Ok (fallback_vector (Sha256.digest bytes)).
Proof.
  intros He. unfold hash_fallback. rewrite He. cbn [bind].
  destruct (digest_bytes bytes) as [Hlen Hall].
  change (Sha256.hexdigest bytes) with (hex_of (Sha256.digest bytes)).
  assert (Hhex : len (hex_of (Sha256.digest bytes)) = 64).
  { unfold len. rewrite hex_of_length, Hlen. reflexivity. }
  rewrite Hhex. change (Z.min (1024 * 2) 64) with 64.
  change (range2 64) with (map (fun k => 2 * Z.of_nat k) (seq 0 32)).
  pose proof (entries_of_hex _ Hall [] 0%nat eq_refl) as Hent.
  rewrite Hlen in Hent. simpl app in Hent. unfold entry in Hent.
  rewrite Hent. cbn [bind].
  assert (Hl : len (map (fun b => Qmake b 255) (Sha256.digest bytes)) = 32).
  { unfold len. rewrite length_map, Hlen. reflexivity. }
  rewrite Hl. change (32 <? 1024) with true. cbn match.
  change (Z.to_nat (1024 - 32)) with 992%nat.
  rewrite slice_to_firstn by lia.
  rewrite firstn_all2; [reflexivity|].
  rewrite length_app, length_map, Hlen, repeat_length.
  change (Z.to_nat 1024) with 1024%nat. lia.
Qed.

Lemma fallback_vector_length (digest : list Z) :
  length digest = 32%nat -> length (fallback_vector digest) = 1024%nat.
Proof.
  intros H. unfold fallback_vector.
  rewrite length_app, length_map, H, repeat_length. reflexivity.
Qed.

Lemma fallback_when_import_fails (env : Env) (self : PineconeService)
    (text : list N) :
  sentence_transformers env = None ->
  generate_embedding env self text = (hash_fallback text, self).
Proof.
  intros H. unfold generate_embedding, primary. rewrite H. reflexivity.
Qed.

(** C10. When [sentence_transformers] cannot be imported, the vector
    [generate_embedding] returns for an encodable text has 1024 entries:
    entry [i < 32] is byte [i] of the SHA-256 digest of the encoded text
    over 255, every entry from 32 on is 0; it is the same whatever the
    service and the environment. *)
Theorem hash_fallback_vector (env : Env) (self : PineconeService)
    (text : list N) :
  sentence_transformers env = None ->
  Utf8.encodable text ->
  exists bytes v,
    Utf8.encode text = Ok bytes /\
    generate_embedding env self text = (Ok v, self) /\
    length v = 1024%nat /\
    (forall i, (i < 32)%nat ->
       exists b, nth_error (Sha256.digest bytes) i = Some b /\
                 byte b /\ nth_error v i = Some (Qmake b 255)) /\
    (forall i, (32 <= i < 1024)%nat -> nth_error v i = Some (Qmake 0 1)) /\
    (forall env' self',
       sentence_transformers env' = None ->
       fst (generate_embedding env' self' text) = Ok v).
Proof.
  intros Henv Henc.
  destruct (encode_total text Henc) as [bytes Hb].
  destruct (digest_bytes bytes) as [Hlen Hall].
  exists bytes, (fallback_vector (Sha256.digest bytes)).
  split; [exact Hb|].
  split.
  { rewrite fallback_when_import_fails by exact Henv.
    rewrite (hash_fallback_value text bytes Hb). reflexivity. }
  split; [apply fallback_vector_length, Hlen|].
  split; [|split].
  - intros i Hi.
    destruct (nth_error (Sha256.digest bytes) i) as [b|] eqn:Hn.
    2: { apply nth_error_None in Hn. lia. }
    exists b. split; [reflexivity|]. split.
    + rewrite List.Forall_forall in Hall. apply Hall.
      eapply nth_error_In, Hn.
    + unfold fallback_vector. rewrite nth_error_app1
        by (rewrite length_map; lia).
      rewrite nth_error_map, Hn. reflexivity.
  - intros i Hi. unfold fallback_vector.
    rewrite nth_error_app2 by (rewrite length_map; lia).
    rewrite length_map, Hlen. apply nth_error_repeat. lia.
  - intros env' self' Henv'.
    rewrite fallback_when_import_fails by exact Henv'.
    rewrite (hash_fallback_value text bytes Hb). reflexivity.
Qed.

Lemma ascii_encodable (s : string) : Utf8.encodable (lit s).
Proof.
  intros c Hc. unfold lit in Hc. apply in_map_iff in Hc.
  destruct Hc as (a & <- & _).
  pose proof (N_ascii_bounded a). lia.
Qed.

Lemma hash_fallback_vector_witness :
  exists bytes v,
    Utf8.encode (lit "headache and fever") = Ok bytes /\
    generate_embedding no_sentence_transformers fresh_service
      (lit "headache and fever") = (Ok v, fresh_service) /\
    length v = 1024%nat /\
    (forall i, (i < 32)%nat ->
       exists b, nth_error (Sha256.digest bytes) i = Some b /\
                 byte b /\ nth_error v i = Some (Qmake b 255)) /\
    (forall i, (32 <= i < 1024)%nat -> nth_error v i = Some (Qmake 0 1)) /\
    (forall env' self',
       sentence_transformers env' = None ->
       fst (generate_embedding env' self' (lit "headache and fever")) = Ok v).
Proof.
  apply (hash_fallback_vector no_sentence_transformers fresh_service
           (lit "headache and fever")).
  - reflexivity.
  - apply ascii_encodable.
Defined.

(** A text with a lone surrogate has no encoding: the fallback raises. *)
Example fallback_lone_surrogate :
  fst (generate_embedding no_sentence_transformers fresh_service [0xD800%N])
  = Raise UnicodeEncodeError.
Proof. vm_compute. reflexivity. Qed.

Lemma check_dimension_384 (pc0 : Client) (name : list N) (d : Z) :
  (forall c, fails pc0 c = false) ->
  indexes pc0 !! name = Some d ->
  indexes (check_dimension pc0 name) !! name = Some 384 /\
  fails (check_dimension pc0 name) = fails pc0.
Proof.
  intros Hok Hd. unfold check_dimension, call.
  rewrite !Hok, Hd. simpl.
  destruct (d =? 384) eqn:E.
  - apply Z.eqb_eq in E. subst. split; [exact Hd | reflexivity].
  - unfold delete_index, create_index, call, with_indexes. simpl.
    rewrite !Hok. simpl. rewrite Hok. simpl.
    split; [apply lookup_insert_eq | reflexivity].
Qed.

(** After the service is set up on a reachable account, the index has
    dimension 384. *)
Lemma index_dimension_384 (pc0 : Client) (name : list N) :
  (forall c, fails pc0 c = false) ->
  indexes (pc (__init__ pc0 name)) !! name = Some 384.
Proof.
  intros Hok. unfold __init__, _initialize_index, call. simpl.
  rewrite Hok. simpl.
  destruct (indexes pc0 !! name) as [d|] eqn:Hd; simpl.
  - destruct (check_dimension_384 pc0 name d Hok Hd) as [Hdim Hf].
    rewrite Hf, Hok. simpl. exact Hdim.
  - unfold create_index, call, with_indexes. rewrite Hok. simpl.
    rewrite Hok. simpl. apply lookup_insert_eq.
Qed.

(** C5. The fallback vector does not have the dimension of the index:
    for the text of the repository's test, [headache and fever], it has
    1024 entries, while the index the service sets up has dimension 384
    (the dimension the test expects). *)
Theorem fallback_dimension_mismatch :
  exists v,
    fst (generate_embedding no_sentence_transformers fresh_service
           (lit "headache and fever")) = Ok v /\
    len v = 1024 /\
    indexes (pc fresh_service) !! lit "symptoms" = Some 384 /\
    len v <> 384.
Proof.
  eexists. split; [vm_compute; reflexivity|].
  split; [vm_compute; reflexivity|].
  split; [apply index_dimension_384; reflexivity|].
  vm_compute. discriminate.
Qed.

End EmbedderFacts.

(** ** More on the response parser *)

Module ParserMore.

Import Re Json LLM SliceFacts Statements Vocabulary ReSpec.

(** X1. Whenever stage 1 adopts nothing, [_parse_text_response] returns
    an analysis with one to five conditions, one to five
    recommendations and a severity among [mild], [moderate] and
    [severe]. *)
Theorem parse_bounded_outside_json (text : list N) :
  no_json text ->
  exists a, _parse_text_response text = Ok a /\ bounded a.
Proof.
  intros Hj. exists (parse_sections text). split.
  - unfold _parse_text_response.
    destruct Hj as [-> | (e & ->)]; reflexivity.
  - apply ParserFacts.parse_sections_bounded.
Qed.

Lemma parse_bounded_outside_json_witness :
  no_json section_example /\
  exists a, _parse_text_response section_example = Ok a /\ bounded a.
Proof.
  assert (H : no_json section_example) by (left; vm_compute; reflexivity).
  split; [exact H | exact (parse_bounded_outside_json _ H)].
Defined.

(** *** The line scan keeps short lists of long items *)

Lemma kept_nil : kept [].
Proof. split; [simpl; lia | constructor]. Qed.

Lemma kept_snoc (items : list (list N)) (it : list N) :
  kept items -> (len items <? 5) = true -> 5 < len it ->
  kept (items ++ [it]).
Proof.
  intros [Hl Hf] Hlt Hit. apply Z.ltb_lt in Hlt. unfold len in Hlt.
  split.
  - rewrite length_app. simpl. lia.
  - apply Forall_app. split; [exact Hf|]. constructor; [exact Hit|constructor].
Qed.

Lemma append_item_kept (st : scan) (content : list N) (extra : bool) :
  scan_kept st -> 5 < len content -> scan_kept (append_item st content extra).
Proof.
  intros [Hc Hr] Hlen. unfold append_item.
  destruct (current_section st) as [[|]|]; [| |split; assumption].
  - destruct (len (sc_conditions st) <? 5) eqn:E; simpl;
      [|split; assumption].
    destruct extra; simpl; [|split; assumption].
    split; [apply kept_snoc; assumption | exact Hr].
  - destruct (len (sc_recommendations st) <? 5) eqn:E; simpl;
      [|split; assumption].
    destruct extra; simpl; [|split; assumption].
    split; [exact Hc | apply kept_snoc; assumption].
Qed.

Lemma item_kept (st : scan) (rest : list N) :
  scan_kept st -> scan_kept (item st rest).
Proof.
  intros H. unfold item.
  destruct (negb (len (strip rest) =? 0) && (5 <? len (strip rest))) eqn:E;
    [|exact H].
  apply andb_true_iff in E. destruct E as [_ E]. apply Z.ltb_lt in E.
  apply append_item_kept; assumption.
Qed.

Lemma scan_line_kept (st : scan) (raw : list N) :
  scan_kept st -> scan_kept (scan_line st raw).
Proof.
  intros H. unfold scan_line.
  destruct (len (strip raw) =? 0); [exact H|].
  destruct (is_conditions_header _ _); [exact H|].
  destruct (is_recommendations_header _ _); [exact H|].
  destruct (has _ "severity").
  { destruct (severity_keyword _); exact H. }
  destruct (match_ false numbered (strip raw)); [apply item_kept, H|].
  destruct (match_ false bullet (strip raw)); [apply item_kept, H|].
  destruct (current_section st) eqn:Hs; [|exact H].
  destruct ((10 <? len (strip raw)) && negb (isupper (strip raw))) eqn:E;
    [|exact H].
  apply andb_true_iff in E. destruct E as [E _]. apply Z.ltb_lt in E.
  apply append_item_kept; [exact H | lia].
Qed.

(** X2. The line scan never records more than five conditions or five
    recommendations, and every item it records is longer than five
    characters: shorter items are dropped. *)
Theorem scan_keeps_long_items (text : list N) :
  kept (sc_conditions (scan_lines text)) /\
  kept (sc_recommendations (scan_lines text)).
Proof.
  unfold scan_lines.
  assert (H : forall ls st, scan_kept st -> scan_kept (fold_left scan_line ls st)).
  { induction ls as [|raw ls IH]; intros st Hst; simpl; [exact Hst|].
    apply IH, scan_line_kept, Hst. }
  apply H. split; apply kept_nil.
Qed.

(** *** What the matcher finds *)

(** A successful run consumed a prefix that the pattern matches. *)
Lemma run_sound (ic : bool) (r : regex) :
  forall (A : Type) (s : list N) (k : list N -> option A) (x : A),
    run ic r s k = Some x ->
    exists u s', s = u ++ s' /\ matches ic r u /\ k s' = Some x.
Proof.
  induction r as [|p|r1 IH1 r2 IH2|r1 IH1 r2 IH2|r IH]; intros A s k x H;
    simpl in H.
  - exists [], s. repeat split; [constructor | exact H].
  - destruct s as [|c s']; [discriminate|].
    destruct (test ic p c) eqn:E; [|discriminate].
    exists [c], s'. repeat split; [constructor; exact E | exact H].
  - apply IH1 in H. destruct H as (u1 & s1 & -> & M1 & H).
    apply IH2 in H. destruct H as (u2 & s2 & -> & M2 & H).
    exists (u1 ++ u2), s2. rewrite app_assoc.
    repeat split; [constructor; assumption | exact H].
  - destruct (run ic r1 s k) as [y|] eqn:E.
    + injection H as <-. apply IH1 in E.
      destruct E as (u & s' & -> & M & Hk).
      exists u, s'. repeat split; [apply m_alt_l; exact M | exact Hk].
    + apply IH2 in H. destruct H as (u & s' & -> & M & Hk).
      exists u, s'. repeat split; [apply m_alt_r; exact M | exact Hk].
  - revert H. generalize (length s) at 1. intros n. revert s.
    induction n as [|n IHn]; intros s H.
    + exists [], s. repeat split; [constructor | exact H].
    + match type of H with
      | match ?t with _ => _ end = _ => destruct t as [y|] eqn:E
      end.
      * injection H as <-. apply IH in E.
        destruct E as (u1 & s1 & -> & M1 & Hk).
        destruct (length s1 <? length (u1 ++ s1))%nat; [|discriminate].
        apply IHn in Hk. destruct Hk as (u2 & s2 & -> & M2 & Hk).
        exists (u1 ++ u2), s2. rewrite app_assoc.
        repeat split; [apply m_star_cons; assumption | exact Hk].
      * exists [], s. repeat split; [constructor | exact H].
Qed.

Lemma match_group_sound (ic : bool) (pre grp : regex) (s g rest : list N) :
  match_group ic pre grp s = Some (g, rest) -> matches ic grp g.
Proof.
  unfold match_group. intros H.
  apply run_sound in H. destruct H as (u1 & s1 & -> & _ & H).
  apply run_sound in H. destruct H as (u2 & s2 & -> & M & H).
  injection H as <- <-.
  rewrite length_app.
  replace (length u2 + length s2 - length s2)%nat with (length u2) by lia.
  rewrite firstn_app, Nat.sub_diag, firstn_all. simpl.
  rewrite app_nil_r. exact M.
Qed.

Lemma findall_sound (ic : bool) (pre grp : regex) (s : list N) :
  Forall (matches ic grp) (findall ic pre grp s).
Proof.
  unfold findall. generalize (S (length s)) as n. intros n. revert s.
  induction n as [|n IH]; intros s; simpl; [constructor|].
  destruct (match_group ic pre grp s) as [[g rest]|] eqn:E.
  - constructor; [eapply match_group_sound, E|].
    destruct (length rest <? length s)%nat; apply IH.
  - destruct s; [constructor | apply IH].
Qed.

Lemma star_class_chars (ic : bool) (p : N -> bool) (v : list N) :
  matches ic (Star (Class p)) v -> Forall (fun c => test ic p c = true) v.
Proof.
  intros M. remember (Star (Class p)) as r eqn:Hr.
  induction M as [| | | | | |r' u v Mu _ Mv IHv]; try discriminate.
  - constructor.
  - injection Hr as ->. inversion Mu; subst.
    simpl. constructor; [assumption | apply IHv; reflexivity].
Qed.

Lemma outside_sentence_end (c : N) :
  test true (fun c => negb (existsb (N.eqb c) [46%N; 10%N])) c = true ->
  c <> 46%N /\ c <> 10%N.
Proof. intros H. split; intros ->; vm_compute in H; discriminate. Qed.

Lemma letter_is_no_sentence_end (c : N) :
  test true is_ascii_upper c = true -> c <> 46%N /\ c <> 10%N.
Proof. intros H. split; intros ->; vm_compute in H; discriminate. Qed.

Lemma in_sentence_of_chars (g : list N) :
  Forall (fun c => c <> 46%N /\ c <> 10%N) g -> in_sentence g.
Proof.
  intros H. rewrite List.Forall_forall in H.
  split; intros Hin; apply H in Hin; destruct Hin; congruence.
Qed.

Lemma clause_in_sentence (g : list N) :
  matches true clause g -> in_sentence g.
Proof.
  intros M. apply in_sentence_of_chars.
  unfold clause, Plus, NoneOf in M. inversion M; subst.
  match goal with H : matches _ (Class _) _ |- _ => inversion H; subst end.
  match goal with H : matches _ (Star _) _ |- _ =>
    apply star_class_chars in H end.
  simpl. constructor.
  - apply outside_sentence_end.
    match goal with H : test _ _ c = true |- _ => exact H end.
  - match goal with H : Forall _ v |- _ => revert H end.
    apply List.Forall_impl. intros a Ha. apply outside_sentence_end. exact Ha.
Qed.

Lemma capital_clause_in_sentence (g : list N) :
  matches true (Seq (Class is_ascii_upper) clause) g -> in_sentence g.
Proof.
  intros M. inversion M; subst.
  match goal with H : matches _ (Class _) _ |- _ => inversion H; subst end.
  match goal with H : matches _ clause _ |- _ =>
    apply clause_in_sentence in H; destruct H as [H46 H10] end.
  match goal with H : test _ _ _ = true |- _ =>
    apply letter_is_no_sentence_end in H; destruct H end.
  split; simpl; intros [E | E]; congruence || tauto.
Qed.

(** Stripping only removes characters. *)
Lemma lstrip_incl (s : list N) (c : N) : In c (lstrip s) -> In c s.
Proof.
  induction s as [|x s IH]; simpl; [tauto|].
  destruct (isspace x); [right; apply IH; assumption | tauto].
Qed.

Lemma strip_incl (s : list N) (c : N) : In c (strip s) -> In c s.
Proof.
  unfold strip, rstrip. intros H.
  apply in_rev in H. apply lstrip_incl in H. apply in_rev in H.
  apply lstrip_incl, H.
Qed.

Lemma strip_in_sentence (s : list N) : in_sentence s -> in_sentence (strip s).
Proof.
  intros [H46 H10]. split; intros H; apply strip_incl in H; tauto.
Qed.

Lemma long_groups_items (grp : regex) (ms : list (list N)) :
  Forall (fun g => matches true grp g -> in_sentence g) ms ->
  Forall (matches true grp) ms ->
  Forall clause_item (long_groups ms).
Proof.
  intros Hs Hm. unfold long_groups.
  induction ms as [|m ms IH]; [constructor|].
  inversion Hs; subst. inversion Hm; subst.
  rewrite filter_cons.
  destruct (decide (5 <? len (strip m))) as [E | E];
    [|apply IH; assumption].
  simpl. constructor; [|apply IH; assumption].
  apply Is_true_true in E.
  split; [apply Z.ltb_lt, E | apply strip_in_sentence; auto].
Qed.

Lemma groups_are_items (pre grp : regex) (text : list N) :
  (forall g, matches true grp g -> in_sentence g) ->
  Forall clause_item (long_groups (findall true pre grp text)).
Proof.
  intros H. apply (long_groups_items grp).
  - apply List.Forall_forall. intros g _. apply H.
  - apply findall_sound.
Qed.

Lemma firstn_Forall {A} (P : A -> Prop) (n : nat) (l : list A) :
  Forall P l -> Forall P (firstn n l).
Proof.
  apply Forall_take.
Qed.

Lemma slice_to_5_Forall {A} (P : A -> Prop) (l : list A) :
  Forall P l -> Forall P (slice_to l 5) /\ (length (slice_to l 5) <= 5)%nat.
Proof.
  intros H. rewrite slice_to_firstn by lia. split.
  - apply firstn_Forall, H.
  - rewrite length_firstn. change (Z.to_nat 5) with 5%nat. lia.
Qed.

(** X3. Every condition the pattern fallback extracts is longer than
    five characters and holds neither a period nor a line break; it
    extracts five at most. *)
Theorem extracted_conditions_shape (text : list N) :
  (length (_extract_conditions_from_text text) <= 5)%nat /\
  Forall clause_item (_extract_conditions_from_text text).
Proof.
  unfold _extract_conditions_from_text.
  match goal with |- context [slice_to ?l 5] =>
    destruct (slice_to_5_Forall clause_item l) as [Hf Hl] end.
  - apply Forall_app. split.
    + apply groups_are_items, clause_in_sentence.
    + apply groups_are_items, capital_clause_in_sentence.
  - split; assumption.
Qed.

Lemma default_recommendation_item :
  clause_item (lit "Consult a healthcare professional").
Proof.
  split; [vm_compute; reflexivity|].
  split; vm_compute; intuition discriminate.
Qed.

(** X4. The pattern fallback for recommendations returns between one and
    five items, each longer than five characters and without a period or
    a line break; as it is never empty, the last fallback of the parser
    is never what fills the recommendations. *)
Theorem extracted_recommendations_shape (text : list N) :
  (1 <= length (_extract_recommendations_from_text text) <= 5)%nat /\
  Forall clause_item (_extract_recommendations_from_text text) /\
  recommendations (parse_sections text)
  = slice_to (or_else (sc_recommendations (scan_lines text))
                      (_extract_recommendations_from_text text)) 5.
Proof.
  assert (Hshape :
            (1 <= length (_extract_recommendations_from_text text) <= 5)%nat /\
            Forall clause_item (_extract_recommendations_from_text text)).
  { unfold _extract_recommendations_from_text.
    match goal with |- context [slice_to ?l 5] =>
      assert (Hall : Forall clause_item l);
      [|destruct (slice_to_5_Forall clause_item l Hall) as [Hf Hl];
        pose proof (ParserFacts.length_slice_to_5 l) as Hne;
        destruct l as [|m ms] eqn:El] end.
    - apply Forall_app. split; apply groups_are_items, clause_in_sentence.
    - split; [simpl; lia|].
      constructor; [apply default_recommendation_item | constructor].
    - split; [apply Hne; discriminate | exact Hf]. }
  destruct Hshape as [Hlen Hall]. split; [exact Hlen|]. split; [exact Hall|].
  unfold parse_sections. simpl. f_equal.
  destruct (or_else (sc_recommendations (scan_lines text))
              (_extract_recommendations_from_text text)) eqn:E;
    [|reflexivity].
  exfalso. destruct (sc_recommendations (scan_lines text)); simpl in E;
    [|discriminate].
  rewrite E in Hlen. simpl in Hlen. lia.
Qed.

End ParserMore.

(** ** More on the orchestrator *)

Module InvokerMore.

Import LLM Statements Vocabulary.

Lemma analysis_dict_entries (a : SymptomAnalysis) :
  analysis_dict a !! lit "conditions" = Some (DList (conditions a)) /\
  analysis_dict a !! lit "recommendations"
  = Some (DList (recommendations a)) /\
  analysis_dict a !! lit "severity" = Some (DStr (severity_assessment a)).
Proof.
  unfold analysis_dict. split; [|split].
  - apply lookup_insert_eq.
  - rewrite lookup_insert_ne by discriminate. apply lookup_insert_eq.
  - rewrite lookup_insert_ne by discriminate.
    rewrite lookup_insert_ne by discriminate. apply lookup_insert_eq.
Qed.

(** The calls [ask] makes: the first, or the first and the retry. *)
Lemma ask_calls (llm : Model) (st : SymptomAnalysisState) :
  snd (ask llm st []) = [first_call (symptoms st) (context st)] \/
  snd (ask llm st [])
  = [first_call (symptoms st) (context st); retry_call (symptoms st)].
Proof.
  destruct (llm 0%nat (first_call (symptoms st) (context st)))
    as [r|e] eqn:H.
  2: { rewrite (InvokerFacts.ask_first_raises llm st e H). left; reflexivity. }
  destruct (too_short (text_of r)) eqn:Hs.
  { rewrite (InvokerFacts.ask_short llm st r H Hs). left; reflexivity. }
  destruct (acknowledges (text_of r)) eqn:Ha.
  - rewrite (InvokerFacts.ask_retry llm st r H Hs Ha). right; reflexivity.
  - rewrite (InvokerFacts.ask_accept llm st r H Hs Ha). left; reflexivity.
Qed.

(** X5. Whatever the model returns or raises, [generate_symptom_analysis]
    raises nothing: it returns a dictionary with the entries
    [conditions], [recommendations] and [severity] of one analysis, after
    one call of the model, or two when the first is retried. *)
Theorem generate_always_answers (llm : Model) (symptoms : list N)
    (context : option (list (list N))) :
  exists a calls,
    generate_symptom_analysis llm symptoms context [] = (Ok (analysis_dict a), calls) /\
    (calls = [first_call symptoms context] \/
     calls = [first_call symptoms context; retry_call symptoms]) /\
    analysis_dict a !! lit "conditions" = Some (DList (conditions a)) /\
    analysis_dict a !! lit "recommendations"
    = Some (DList (recommendations a)) /\
    analysis_dict a !! lit "severity" = Some (DStr (severity_assessment a)).
Proof.
  rewrite InvokerFacts.generate_of_ask.
  set (st := mk_state symptoms context None None).
  pose proof (ask_calls llm st) as Hcalls.
  destruct (ask llm st []) as [[a|e] calls]; simpl in Hcalls.
  - exists a, calls. split; [reflexivity|]. split; [exact Hcalls|].
    apply analysis_dict_entries.
  - exists fallback_analysis, calls. split; [reflexivity|].
    split; [exact Hcalls|]. apply analysis_dict_entries.
Qed.

End InvokerMore.

(** ** More on the vector store and the embedder *)

Module PineconeMore.

Import Pinecone Statements Vocabulary.

Lemma check_dimension_frame (pc0 : Client) (name other : list N) :
  reachable pc0 -> other <> name ->
  indexes (check_dimension pc0 name) !! other = indexes pc0 !! other.
Proof.
  intros Hok Hne. unfold check_dimension, call.
  rewrite !Hok. simpl.
  destruct (default 1024 (indexes pc0 !! name) =? 384); [reflexivity|].
  unfold delete_index, create_index, call, with_indexes. simpl.
  rewrite !Hok. simpl. rewrite Hok. simpl.
  rewrite lookup_insert_ne by congruence.
  apply lookup_delete_ne. congruence.
Qed.

Lemma init_frame (pc0 : Client) (name other : list N) :
  reachable pc0 -> other <> name ->
  indexes (pc (__init__ pc0 name)) !! other = indexes pc0 !! other.
Proof.
  intros Hok Hne. unfold __init__, _initialize_index, call. simpl.
  rewrite Hok. simpl.
  destruct (indexes pc0 !! name) as [d|] eqn:Hd; simpl.
  - destruct (EmbedderFacts.check_dimension_384 pc0 name d Hok Hd)
      as [_ Hf].
    rewrite Hf, Hok. simpl. apply check_dimension_frame; assumption.
  - unfold create_index, call, with_indexes. rewrite Hok. simpl.
    rewrite Hok. simpl. apply lookup_insert_ne. congruence.
Qed.

Lemma init_handle (pc0 : Client) (name : list N) :
  reachable pc0 -> index (__init__ pc0 name) = Some (handle pc0 name).
Proof.
  intros Hok. unfold __init__, _initialize_index, call. simpl.
  rewrite Hok. simpl.
  destruct (indexes pc0 !! name) as [d|] eqn:Hd; simpl.
  - destruct (EmbedderFacts.check_dimension_384 pc0 name d Hok Hd)
      as [_ Hf].
    rewrite Hf, Hok. simpl. f_equal.
    unfold check_dimension, call. rewrite !Hok. simpl.
    destruct (default 1024 (indexes pc0 !! name) =? 384); [reflexivity|].
    unfold delete_index, create_index, call, with_indexes. simpl.
    rewrite !Hok. simpl. rewrite Hok. reflexivity.
  - unfold create_index, call, with_indexes. rewrite Hok. simpl.
    rewrite Hok. reflexivity.
Qed.

(** X6. On an account where every call succeeds, setting the service up
    leaves it with a handle on its index, the index with dimension 384
    (an index of another dimension is deleted and created again), and
    every other index of the account as it was. *)
Theorem init_on_reachable_account (pc0 : Client) (name : list N) :
  reachable pc0 ->
  index (__init__ pc0 name) = Some (handle pc0 name) /\
  indexes (pc (__init__ pc0 name)) !! name = Some 384 /\
  forall other, other <> name ->
    indexes (pc (__init__ pc0 name)) !! other = indexes pc0 !! other.
Proof.
  intros Hok. split; [apply init_handle, Hok|].
  split; [apply EmbedderFacts.index_dimension_384, Hok|].
  intros other Hne. apply init_frame; assumption.
Qed.

Lemma init_on_reachable_account_witness :
  reachable old_account /\
  index (__init__ old_account (lit "healthchecker"))
  = Some (handle old_account (lit "healthchecker")) /\
  indexes (pc (__init__ old_account (lit "healthchecker")))
    !! lit "healthchecker" = Some 384 /\
  forall other, other <> lit "healthchecker" ->
    indexes (pc (__init__ old_account (lit "healthchecker"))) !! other
    = indexes old_account !! other.
Proof.
  assert (H : reachable old_account) by (intros c; reflexivity).
  split; [exact H | exact (init_on_reachable_account _ _ H)].
Defined.

(** X7. A service set up while the client cannot list the indexes holds
    no index and has changed nothing on the account; both searches then
    answer the empty list for every query. *)
Theorem init_on_unreachable_account (pc0 : Client) (name : list N)
    (v : list Q) (top_k : Z) :
  fails pc0 ListIndexes = true ->
  index (__init__ pc0 name) = None /\
  pc (__init__ pc0 name) = pc0 /\
  search_similar_symptoms (__init__ pc0 name) v top_k = Ok [] /\
  search_pdf_content (__init__ pc0 name) v top_k = Ok [].
Proof.
  intros Hf.
  assert (Hnone : index (__init__ pc0 name) = None)
    by (apply RetrieverFacts.init_unreachable, Hf).
  split; [exact Hnone|]. split.
  - unfold __init__, _initialize_index, call. simpl. rewrite Hf. reflexivity.
  - unfold search_similar_symptoms, search_pdf_content. rewrite Hnone.
    split; reflexivity.
Qed.

Lemma init_on_unreachable_account_witness :
  fails lost_account ListIndexes = true /\
  index (__init__ lost_account (lit "healthchecker")) = None /\
  pc (__init__ lost_account (lit "healthchecker")) = lost_account /\
  search_similar_symptoms (__init__ lost_account (lit "healthchecker"))
    [Qmake 1 2] 3 = Ok [] /\
  search_pdf_content (__init__ lost_account (lit "healthchecker"))
    [Qmake 1 2] 3 = Ok [].
Proof.
  split; [reflexivity|].
  exact (init_on_unreachable_account lost_account (lit "healthchecker")
           [Qmake 1 2] 3 eq_refl).
Defined.

(** *** The embedder *)

Lemma generate_with_cached_model (env : Env) (self : PineconeService)
    (text : list N) (SentenceTransformer : list N -> result Pinecone.Model)
    (m : Pinecone.Model) :
  sentence_transformers env = Some SentenceTransformer ->
  _embedding_model self = Some m ->
  generate_embedding env self text = (encoded m text, self).
Proof.
  intros Henv Hm. unfold generate_embedding, primary, encoded.
  rewrite Henv, Hm.
  destruct (encode m text) as [v|[]]; reflexivity.
Qed.

(** X8. The embedding model is loaded once: after a call that constructs
    it the service holds it, and every later call encodes with that
    model, whatever the constructor would do by then. An error of the
    model other than [ImportError] is raised to the caller; only an
    [ImportError] is answered by the hash fallback. *)
Theorem model_is_loaded_once (env : Env) (self : PineconeService)
    (text : list N) (SentenceTransformer : list N -> result Pinecone.Model)
    (m : Pinecone.Model) :
  sentence_transformers env = Some SentenceTransformer ->
  _embedding_model self = None ->
  SentenceTransformer (lit "all-MiniLM-L6-v2") = Ok m ->
  exists self',
    generate_embedding env self text = (encoded m text, self') /\
    _embedding_model self' = Some m /\
    index self' = index self /\
    forall env' later text',
      sentence_transformers env' = Some later ->
      generate_embedding env' self' text' = (encoded m text', self').
Proof.
  intros Henv Hnone Hctor.
  exists (mk_service (pc self) (index_name self) (index self) (Some m)).
  split; [|split; [reflexivity | split; [reflexivity|]]].
  - unfold generate_embedding, primary, encoded.
    rewrite Henv, Hnone, Hctor.
    destruct (encode m text) as [v|[]]; reflexivity.
  - intros env' later text' Henv'.
    apply (generate_with_cached_model env' _ text' later m Henv').
    reflexivity.
Qed.

Lemma model_is_loaded_once_witness :
  exists self',
    generate_embedding with_model fresh_service (lit "fever")
    = (encoded constant_model (lit "fever"), self') /\
    _embedding_model self' = Some constant_model /\
    index self' = index fresh_service /\
    forall env' later text',
      sentence_transformers env' = Some later ->
      generate_embedding env' self' text' = (encoded constant_model text', self').
Proof.
  exact (model_is_loaded_once with_model fresh_service (lit "fever")
           (fun _ => Ok constant_model) constant_model
           eq_refl eq_refl eq_refl).
Defined.

Lemma byte_over_255 (b : Z) : byte b -> unit_interval (Qmake b 255).
Proof.
  unfold byte, unit_interval, Qle. simpl. lia.
Qed.

Lemma fallback_vector_range (digest : list Z) :
  Forall byte digest -> Forall unit_interval (fallback_vector digest).
Proof.
  intros H. unfold fallback_vector. apply Forall_app. split.
  - induction H as [|b bs Hb _ IH]; simpl; constructor;
      [apply byte_over_255, Hb | exact IH].
  - apply List.Forall_forall. intros q Hq. apply repeat_spec in Hq. subst.
    unfold unit_interval, Qle. simpl. lia.
Qed.

(** X9. The hash fallback either raises [UnicodeEncodeError] (the text
    has no UTF-8 encoding) or returns 1024 values that all lie between 0
    and 1. *)
Theorem hash_fallback_range (text : list N) :
  match hash_fallback text with
  | Ok v => length v = 1024%nat /\ Forall unit_interval v
  | Raise e => e = UnicodeEncodeError
  end.
Proof.
  destruct (Utf8.encode text) as [bytes|e] eqn:He.
  - rewrite (EmbedderFacts.hash_fallback_value text bytes He).
    destruct (EmbedderFacts.digest_bytes bytes) as [Hlen Hall].
    split.
    + apply EmbedderFacts.fallback_vector_length, Hlen.
    + apply fallback_vector_range, Hall.
  - unfold hash_fallback. rewrite He. simpl.
    clear -He. revert e He. induction text as [|c text IH]; intros e He;
      simpl in He; [discriminate|].
    destruct (Utf8.encode_char c); [|injection He as <-; reflexivity].
    destruct (Utf8.encode text) as [rest|e']; simpl in He; [discriminate|].
    injection He as <-. apply IH. reflexivity.
Qed.

End PineconeMore.

(** ** Writing to the vector store *)

Module IngestFacts.

Import Pinecone LLM Ingest SliceFacts Statements Vocabulary.

Lemma split_from_word (sep : N) (x s cur : list N) :
  ~ In sep x ->
  split_from sep (x ++ s) cur = split_from sep s (rev x ++ cur).
Proof.
  revert cur. induction x as [|c x IH]; intros cur Hx; [reflexivity|].
  simpl. destruct (c =? sep)%N eqn:E.
  - apply N.eqb_eq in E. subst. exfalso. apply Hx. left. reflexivity.
  - rewrite IH by (intros Hin; apply Hx; right; exact Hin).
    rewrite <- app_assoc. reflexivity.
Qed.

(** Joining with commas and splitting at commas gives the words back. *)
Lemma split_join_commas (words : list (list N)) :
  words <> [] -> Forall comma_free words ->
  split (join (lit ",") words) 44 = words.
Proof.
  intros Hne Hall. unfold split.
  induction Hall as [|x rest Hx Hrest IH]; [congruence|].
  destruct rest as [|y rest].
  - simpl. rewrite <- (app_nil_r x) at 1.
    rewrite split_from_word by exact Hx. simpl.
    rewrite app_nil_r, rev_involutive. reflexivity.
  - change (join (lit ",") (x :: y :: rest))
      with (x ++ 44%N :: join (lit ",") (y :: rest)).
    rewrite split_from_word by exact Hx. simpl.
    rewrite app_nil_r, rev_involutive. f_equal. apply IH. discriminate.
Qed.

Lemma symptom_metadata_lookups (s : list N) (cs rs : list (list N)) :
  truthy (Some (symptom_metadata s cs rs)) = Some (symptom_metadata s cs rs) /\
  get (symptom_metadata s cs rs) (lit "symptoms") (MStr []) = MStr s /\
  get (symptom_metadata s cs rs) (lit "conditions") (MStr [])
  = MStr (join (lit ",") cs) /\
  get (symptom_metadata s cs rs) (lit "recommendations") (MStr [])
  = MStr (join (lit ",") rs).
Proof.
  unfold get, symptom_metadata. split; [|split; [|split]].
  - unfold truthy. destruct (decide _) as [E|_]; [|reflexivity].
    exfalso. revert E. apply (insert_non_empty (M := gmap (list N))).
  - rewrite lookup_insert_eq. reflexivity.
  - rewrite lookup_insert_ne by discriminate.
    rewrite lookup_insert_eq. reflexivity.
  - rewrite lookup_insert_ne by discriminate.
    rewrite lookup_insert_ne by discriminate.
    rewrite lookup_insert_eq. reflexivity.
Qed.

(** X10. A case written by [add_symptom_context] is read back whole by
    [search_similar_symptoms]: when the index returns the stored
    metadata, the search gives the symptoms, the conditions and the
    recommendations as they were stored, provided both lists are not
    empty and none of their items holds a comma. *)
Theorem stored_case_is_read_back (self : PineconeService) (ix : Index)
    (v : list Q) (top_k : Z) (symptoms : list N)
    (conditions recommendations : list (list N)) (s : Q) :
  index self = Some ix ->
  query ix v top_k
  = Ok [mk_match (Some (symptom_metadata symptoms conditions recommendations)) s] ->
  conditions <> [] -> recommendations <> [] ->
  Forall comma_free conditions -> Forall comma_free recommendations ->
  search_similar_symptoms self v top_k
  = Ok [mk_symptom_context (MStr symptoms) conditions recommendations s].
Proof.
  intros Hix Hq Hc Hr Hcf Hrf. unfold search_similar_symptoms.
  rewrite Hix, Hq. cbn [Py.bind symptom_contexts metadata score].
  destruct (symptom_metadata_lookups symptoms conditions recommendations)
    as (Ht & Hs & Hcs & Hrs).
  rewrite Ht, Hs, Hcs, Hrs. cbn [split_commas Py.bind].
  rewrite (split_join_commas conditions Hc Hcf).
  rewrite (split_join_commas recommendations Hr Hrf). reflexivity.
Qed.

Lemma stored_case_is_read_back_witness :
  search_similar_symptoms answering_service [Qmake 1 2] 3
  = Ok [mk_symptom_context (MStr (lit "fever"))
          [lit "Influenza"; lit "Common cold"] [lit "Rest at home"]
          (Qmake 9 10)].
Proof.
  apply (stored_case_is_read_back answering_service answering_index
           [Qmake 1 2] 3 _ _ _ _ eq_refl eq_refl).
  - discriminate.
  - discriminate.
  - repeat constructor; vm_compute; intuition discriminate.
  - repeat constructor; vm_compute; intuition discriminate.
Defined.

(** A condition with a comma comes back in two. *)
Example comma_splits_a_condition :
  split (join (lit ",") [lit "Cold, or flu"]) 44 = [lit "Cold"; lit " or flu"].
Proof. vm_compute. reflexivity. Qed.

Lemma pdf_metadata_lookups (chunk id name : list N) :
  truthy (Some (pdf_metadata chunk id name)) = Some (pdf_metadata chunk id name) /\
  is_pdf (pdf_metadata chunk id name) = true /\
  get (pdf_metadata chunk id name) (lit "text") (MStr [])
  = MStr (firstn 500 chunk) /\
  get (pdf_metadata chunk id name) (lit "pdf_name") (MStr []) = MStr name /\
  (forall key, key = lit "symptoms" \/ key = lit "conditions"
               \/ key = lit "recommendations" ->
     get (pdf_metadata chunk id name) key (MStr []) = MStr []).
Proof.
  unfold get, is_pdf, pdf_metadata. split; [|split; [|split; [|split]]].
  - unfold truthy. destruct (decide _) as [E|_]; [|reflexivity].
    exfalso. revert E. apply (insert_non_empty (M := gmap (list N))).
  - rewrite lookup_insert_ne by discriminate.
    rewrite lookup_insert_ne by discriminate.
    rewrite lookup_insert_eq. reflexivity.
  - rewrite lookup_insert_eq, slice_to_firstn by lia. reflexivity.
  - rewrite lookup_insert_ne by discriminate.
    rewrite lookup_insert_eq. reflexivity.
  - intros key [-> | [-> | ->]];
      repeat (rewrite lookup_insert_ne by discriminate);
      rewrite lookup_empty; reflexivity.
Qed.

(** X21. The two searches treat the type of a stored vector
    differently. [search_pdf_content] returns a chunk written by
    [add_pdf_chunk] with its first 500 characters and the name of its
    document, and leaves out a case written by [add_symptom_context].
    [search_similar_symptoms] does not look at the type: the same chunk
    comes back from it as a similar case with empty symptoms and one
    empty condition and recommendation. *)
Theorem searches_by_type (self : PineconeService) (ix : Index)
    (v : list Q) (top_k : Z) (s : Q) :
  index self = Some ix ->
  (forall chunk id name,
     query ix v top_k = Ok [mk_match (Some (pdf_metadata chunk id name)) s] ->
     search_pdf_content self v top_k
     = Ok [mk_pdf_context (MStr (firstn 500 chunk)) (MStr name) s] /\
     search_similar_symptoms self v top_k
     = Ok [mk_symptom_context (MStr []) [[]] [[]] s]) /\
  (forall symptoms cs rs,
     query ix v top_k = Ok [mk_match (Some (symptom_metadata symptoms cs rs)) s] ->
     search_pdf_content self v top_k = Ok []).
Proof.
  intros Hix. split.
  - intros chunk id name Hq.
    destruct (pdf_metadata_lookups chunk id name)
      as (Ht & Hpdf & Htext & Hname & Hnone).
    unfold search_pdf_content, search_similar_symptoms.
    rewrite Hix, Hq.
    cbn [Py.bind Py.try_except fold_left symptom_contexts metadata score].
    rewrite Ht, Hpdf, Htext, Hname, !Hnone by tauto. split; reflexivity.
  - intros symptoms cs rs Hq.
    destruct (symptom_metadata_lookups symptoms cs rs) as (Ht & _).
    unfold search_pdf_content. rewrite Hix, Hq.
    cbn [Py.bind Py.try_except fold_left metadata]. rewrite Ht.
    replace (is_pdf (symptom_metadata symptoms cs rs)) with false;
      [reflexivity|].
    unfold is_pdf, symptom_metadata.
    do 3 (rewrite lookup_insert_ne by discriminate).
    rewrite lookup_insert_eq. reflexivity.
Qed.

Lemma searches_by_type_witness :
  (forall chunk id name,
     query chunk_index [Qmake 1 2] 5
     = Ok [mk_match (Some (pdf_metadata chunk id name)) (Qmake 4 5)] ->
     search_pdf_content chunk_service [Qmake 1 2] 5
     = Ok [mk_pdf_context (MStr (firstn 500 chunk)) (MStr name) (Qmake 4 5)] /\
     search_similar_symptoms chunk_service [Qmake 1 2] 5
     = Ok [mk_symptom_context (MStr []) [[]] [[]] (Qmake 4 5)]) /\
  (forall symptoms cs rs,
     query chunk_index [Qmake 1 2] 5
     = Ok [mk_match (Some (symptom_metadata symptoms cs rs)) (Qmake 4 5)] ->
     search_pdf_content chunk_service [Qmake 1 2] 5 = Ok []).
Proof.
  exact (searches_by_type chunk_service chunk_index [Qmake 1 2] 5 (Qmake 4 5)
           eq_refl).
Defined.

(** X11. When the index is there and takes the vector, [add_pdf_chunk]
    stores under the chunk's id the embedding and a metadata whose text
    is the first 500 characters of the chunk, and touches no other
    vector of the index. *)
Theorem chunk_is_stored (self : PineconeService) (ix : Index) (remote : Remote)
    (chunk_text chunk_id pdf_name : list N) (embedding : list Q) :
  index self = Some ix ->
  refuses remote chunk_id embedding = false ->
  exists remote' md,
    add_pdf_chunk self remote chunk_text chunk_id pdf_name embedding
    = (Ok tt, remote') /\
    held remote' !! chunk_id = Some (embedding, md) /\
    stored_text md = Some (firstn 500 chunk_text) /\
    (length (firstn 500 chunk_text) <= 500)%nat /\
    forall other, other <> chunk_id ->
      held remote' !! other = held remote !! other.
Proof.
  intros Hix Hok. unfold add_pdf_chunk, upsert. rewrite Hix, Hok.
  eexists. eexists. split; [reflexivity|]. simpl.
  split; [apply lookup_insert_eq|].
  split; [|split].
  - unfold stored_text, pdf_metadata. rewrite lookup_insert_eq.
    rewrite slice_to_firstn by lia. reflexivity.
  - rewrite length_firstn. lia.
  - intros other Hne. apply lookup_insert_ne. congruence.
Qed.

Lemma chunk_is_stored_witness :
  exists remote' md,
    add_pdf_chunk some_service open_remote (lit "Drink water.")
      (lit "doc_chunk_0") (lit "advice.pdf") [Qmake 1 2]
    = (Ok tt, remote') /\
    held remote' !! lit "doc_chunk_0" = Some ([Qmake 1 2], md) /\
    stored_text md = Some (firstn 500 (lit "Drink water.")) /\
    (length (firstn 500 (lit "Drink water.")) <= 500)%nat /\
    forall other, other <> lit "doc_chunk_0" ->
      held remote' !! other = held open_remote !! other.
Proof.
  exact (chunk_is_stored some_service _ open_remote (lit "Drink water.")
           (lit "doc_chunk_0") (lit "advice.pdf") [Qmake 1 2]
           eq_refl eq_refl).
Defined.

(** X12. The two writers differ on errors: [add_symptom_context] never
    raises and leaves the index as it was when the upsert is refused
    (the error is printed and dropped), while [add_pdf_chunk] raises the
    error of a refused upsert to its caller; with no index, both return
    at once and write nothing. *)
Theorem writers_on_errors (md5_hex : list Z -> list N)
    (self : PineconeService) (remote : Remote)
    (text id name : list N) (cs rs : list (list N)) (embedding : list Q) :
  fst (add_symptom_context md5_hex self remote text cs rs embedding) = Ok tt /\
  ((forall i, refuses remote i embedding = true) ->
   snd (add_symptom_context md5_hex self remote text cs rs embedding) = remote) /\
  (forall ix, index self = Some ix -> refuses remote id embedding = true ->
     exists e, add_pdf_chunk self remote text id name embedding
               = (Raise e, remote)) /\
  (index self = None ->
   add_symptom_context md5_hex self remote text cs rs embedding = (Ok tt, remote) /\
   add_pdf_chunk self remote text id name embedding = (Ok tt, remote)).
Proof.
  split; [|split; [|split]].
  - unfold add_symptom_context. destruct (index self); [|reflexivity].
    destruct (bind _ _); reflexivity.
  - intros Hall. unfold add_symptom_context, upsert.
    destruct (index self); [|reflexivity].
    destruct (Utf8.encode text) as [bytes|e]; simpl; [|reflexivity].
    rewrite Hall. reflexivity.
  - intros ix Hix Href. unfold add_pdf_chunk, upsert. rewrite Hix, Href.
    eexists. reflexivity.
  - intros Hnone. unfold add_symptom_context, add_pdf_chunk.
    rewrite Hnone. split; reflexivity.
Qed.

End IngestFacts.

(** ** Trimming *)

Module TrimFacts.

Import Vocabulary.

Lemma lstrip_nil_blank (s : list N) : lstrip s = [] <-> blank s.
Proof.
  unfold blank. induction s as [|c s IH]; cbn [lstrip forallb]; [tauto|].
  destruct (isspace c); cbn [andb]; [exact IH|].
  split; discriminate.
Qed.

Lemma lstrip_split (s : list N) : exists pre, s = pre ++ lstrip s.
Proof.
  induction s as [|c s [pre IH]]; [exists []; reflexivity|].
  cbn [lstrip]. destruct (isspace c).
  - exists (c :: pre). simpl. f_equal. exact IH.
  - exists []. reflexivity.
Qed.

Lemma lstrip_head (s : list N) (c : N) (r : list N) :
  lstrip s = c :: r -> isspace c = false.
Proof.
  induction s as [|x s IH]; cbn [lstrip]; [discriminate|].
  destruct (isspace x) eqn:E; [exact IH|].
  intros H. injection H as -> _. exact E.
Qed.

Lemma blank_lstrip (s : list N) : blank (lstrip s) -> lstrip s = [].
Proof.
  destruct (lstrip s) as [|c r] eqn:E; [reflexivity|].
  intros H. apply lstrip_head in E. unfold blank in H.
  cbn [forallb] in H. rewrite E in H. discriminate.
Qed.

Lemma blank_rev (s : list N) : blank (rev s) -> blank s.
Proof.
  unfold blank. rewrite !forallb_forall. intros H x Hx.
  apply H. apply in_rev in Hx. exact Hx.
Qed.

(** [s.strip()] is empty exactly when [s] is white space only. *)
Lemma strip_nil_blank (s : list N) : strip s = [] <-> blank s.
Proof.
  unfold strip, rstrip. split.
  - intros H. apply (f_equal (@rev N)) in H.
    rewrite rev_involutive in H. cbn [rev] in H.
    apply lstrip_nil_blank, blank_rev, blank_lstrip in H.
    apply lstrip_nil_blank, H.
  - intros H. apply lstrip_nil_blank in H. rewrite H. reflexivity.
Qed.

Lemma blank_app (a b : list N) : blank (a ++ b) <-> blank a /\ blank b.
Proof. unfold blank. rewrite forallb_app. apply andb_true_iff. Qed.

Lemma strip_app_l (a b : list N) : strip a <> [] -> strip (a ++ b) <> [].
Proof.
  intros Ha Hab. apply Ha. apply strip_nil_blank.
  apply strip_nil_blank, blank_app in Hab. tauto.
Qed.

Lemma strip_piece (s : list N) : piece_of s (strip s).
Proof.
  unfold strip, rstrip.
  destruct (lstrip_split s) as [pre Hpre].
  destruct (lstrip_split (rev (lstrip s))) as [post Hpost].
  exists pre, (rev post).
  transitivity (pre ++ lstrip s); [exact Hpre|]. f_equal.
  apply (f_equal (@rev N)) in Hpost.
  rewrite rev_involutive, rev_app_distr in Hpost. exact Hpost.
Qed.

Lemma piece_length (s c : list N) : piece_of s c -> len c <= len s.
Proof.
  intros (a & b & ->). unfold len. rewrite !length_app. lia.
Qed.

Lemma piece_trans (a b c : list N) :
  piece_of a b -> piece_of b c -> piece_of a c.
Proof.
  intros (p1 & q1 & ->) (p2 & q2 & ->).
  exists (p1 ++ p2), (q2 ++ q1). rewrite <- !app_assoc. reflexivity.
Qed.

Lemma sub_piece (T : list N) (a b : nat) : piece_of T (Statements.sub T a b).
Proof.
  unfold Statements.sub.
  exists (firstn a T), (skipn (b - a) (skipn a T)).
  rewrite !firstn_skipn. reflexivity.
Qed.

End TrimFacts.

(** ** The chunks of a long text *)

Module ChunkerMore.

Import Chunker SliceFacts Statements Vocabulary TrimFacts.

(** With [2 * overlap <= chunk_size] the windows cut from [start] on
    are pieces of the text of [chunk_size] characters at most, no more
    of them than characters left, and two at least when one window
    does not reach the end. *)
Lemma windows_bounded (text : list N) (size overlap : Z) :
  0 < size -> 0 <= overlap -> 2 * overlap <= size ->
  forall (fuel : nat) (start : Z),
    0 <= start -> len text - start <= Z.of_nat fuel ->
    exists ws,
      windows_from fuel text size overlap start = Some ws /\
      Forall (fun w => piece_of text w /\ len w <= size) ws /\
      Z.of_nat (length ws) <= Z.max 0 (len text - start) /\
      (start < len text -> ws <> []) /\
      (start + size < len text -> (2 <= length ws)%nat).
Proof.
  intros Hsize Hov Hhalf.
  induction fuel as [|fuel IH]; intros start Hstart Hfuel.
  - exists []. simpl.
    replace (start <? len text) with false
      by (symmetry; apply Z.ltb_ge; lia).
    split; [reflexivity|]. split; [constructor|]. simpl. lia.
  - simpl. destruct (start <? len text) eqn:Hlt.
    2: { apply Z.ltb_ge in Hlt. exists []. split; [reflexivity|].
         split; [constructor|]. simpl. lia. }
    apply Z.ltb_lt in Hlt.
    destruct (ChunkerFacts.window_spec text size overlap start)
      as (e & He1 & He2 & Hw); try lia.
    rewrite Hw.
    destruct (IH (e - overlap)) as (ws & Hws & Hall & Hcount & Hne & _);
      try lia.
    rewrite Hws. eexists. split; [reflexivity|].
    split; [|split; [|split]].
    + constructor; [|exact Hall]. split; [apply sub_piece|].
      unfold len. rewrite sub_length. unfold len in *. lia.
    + cbn [length]. lia.
    + discriminate.
    + intros Hfar. cbn [length].
      assert (Hws' : ws <> []) by (apply Hne; lia).
      destruct ws; [congruence|]. cbn [length]. lia.
Qed.

(** X13. For [0 < chunk_size], [0 <= overlap] and
    [2 * overlap <= chunk_size], a text longer than [chunk_size] is cut
    in at most [len(text)] turns of the loop into two chunks or more,
    never more chunks than the text has characters; each chunk is a
    contiguous piece of the text and has [chunk_size] characters at
    most. *)
Theorem chunks_are_bounded_pieces (text : list N) (size overlap : Z) :
  0 < size -> 0 <= overlap -> 2 * overlap <= size -> size < len text ->
  exists chunks,
    chunk_text (length text) text size overlap = Some (Ok chunks) /\
    Forall (fun c => piece_of text c /\ len c <= size) chunks /\
    (2 <= length chunks <= length text)%nat.
Proof.
  intros Hsize Hov Hhalf Hlong.
  destruct (windows_bounded text size overlap Hsize Hov Hhalf
              (length text) 0) as (ws & Hws & Hall & Hcount & _ & Htwo);
    [lia | unfold len; lia |].
  exists (map strip ws). unfold chunk_text.
  replace (len text <=? size) with false by (symmetry; apply Z.leb_gt; lia).
  rewrite ChunkerFacts.chunk_loop_windows, Hws. split; [reflexivity|].
  split.
  - apply List.Forall_map. revert Hall. apply List.Forall_impl.
    intros w [Hp Hl]. split.
    + eapply piece_trans; [exact Hp | apply strip_piece].
    + pose proof (piece_length w (strip w) (strip_piece w)). lia.
  - rewrite length_map. unfold len in *. split; [apply Htwo; lia | lia].
Qed.

Lemma chunks_are_bounded_pieces_witness :
  exists chunks,
    chunk_text (length (lit "One. Two three four. Five six."))
      (lit "One. Two three four. Five six.") 10 5 = Some (Ok chunks) /\
    Forall (fun c => piece_of (lit "One. Two three four. Five six.") c
                     /\ len c <= 10) chunks /\
    (2 <= length chunks
     <= length (lit "One. Two three four. Five six."))%nat.
Proof.
  apply (chunks_are_bounded_pieces (lit "One. Two three four. Five six.")
           10 5); [lia | lia | lia | vm_compute; reflexivity].
Defined.

End ChunkerMore.

(** ** Reading a document *)

Module ExtractFacts.

Import LLM Extract Vocabulary TrimFacts.

Lemma has_text_kept (page_text : option (list N)) (t : list N) :
  has_text page_text = Some t -> page_text = Some t /\ strip t <> [].
Proof.
  unfold has_text. destruct page_text as [t'|]; [|discriminate].
  destruct (len t' =? 0); cbn [negb andb]; [discriminate|].
  destruct (len (strip t') =? 0) eqn:E; cbn [negb]; [discriminate|].
  intros H. injection H as <-. split; [reflexivity|].
  intros Hnil. rewrite Hnil in E. discriminate.
Qed.

Lemma has_text_of_text (t : list N) :
  strip t <> [] -> has_text (Some t) = Some t.
Proof.
  intros H. unfold has_text.
  assert (Ht : t <> []) by (intros ->; apply H; reflexivity).
  destruct t as [|c t']; [congruence|].
  destruct (strip (c :: t')) as [|d r] eqn:E; [congruence|].
  reflexivity.
Qed.

Lemma snoc_text (tc : list (list N)) (t : list N) :
  Forall (fun x => strip x <> []) tc -> strip t <> [] ->
  Forall (fun x => strip x <> []) (tc ++ [t]).
Proof.
  intros Htc Ht. apply Forall_app. split; [exact Htc|].
  constructor; [exact Ht | constructor].
Qed.

Lemma plumber_pages_text (pages : list page) (tc : list (list N)) (ok : bool) :
  Forall (fun x => strip x <> []) tc ->
  Forall (fun x => strip x <> []) (fst (plumber_pages pages tc ok)).
Proof.
  revert tc ok. induction pages as [|p pages IH]; intros tc ok Htc;
    [exact Htc|].
  cbn [plumber_pages]. destruct p as [pt|e]; [|exact Htc].
  destruct (has_text pt) as [t|] eqn:E; [|apply IH, Htc].
  apply IH, snoc_text; [exact Htc|]. apply (has_text_kept _ _ E).
Qed.

Lemma pypdf2_pages_text (pages : list page) (tc : list (list N)) :
  Forall (fun x => strip x <> []) tc ->
  Forall (fun x => strip x <> []) (pypdf2_pages pages tc).
Proof.
  revert tc. induction pages as [|p pages IH]; intros tc Htc; [exact Htc|].
  cbn [pypdf2_pages]. destruct p as [pt|e]; [|apply IH, Htc].
  destruct (has_text pt) as [t|] eqn:E; [|apply IH, Htc].
  apply IH, snoc_text; [exact Htc|]. apply (has_text_kept _ _ E).
Qed.

Lemma pypdf2_attempt_text (pdf : Pdf) (tc : list (list N)) (ok : bool) :
  Forall (fun x => strip x <> []) tc ->
  match pypdf2_attempt pdf tc ok with
  | Ok tc' => Forall (fun x => strip x <> []) tc'
  | Raise e => exists msg, e = ValueError msg
  end.
Proof.
  intros Htc. unfold pypdf2_attempt. destruct (pypdf2 pdf) as [pages|e].
  - apply pypdf2_pages_text. destruct ok; [exact Htc | constructor].
  - destruct e; destruct (len tc =? 0); try exact Htc; eexists; reflexivity.
Qed.

Lemma ocr_attempt_text (pdf : Pdf) :
  match ocr_attempt pdf with
  | Ok text => strip text <> []
  | Raise e => exists msg, e = ValueError msg
  end.
Proof.
  unfold ocr_attempt.
  destruct (extract_text_with_ocr pdf) as [t|e]; cbn [bind try_except].
  2: { eexists; reflexivity. }
  destruct (len t =? 0); cbn [negb andb try_except];
    [eexists; reflexivity|].
  destruct (len (strip t) =? 0) eqn:E; cbn [negb try_except];
    [eexists; reflexivity|].
  intros Hnil. rewrite Hnil in E. discriminate.
Qed.

Lemma join_text (t : list N) (ts : list (list N)) :
  strip t <> [] -> strip (join paragraph (t :: ts)) <> [].
Proof.
  intros Ht. destruct ts as [|u ts]; [exact Ht|].
  cbn [join]. apply strip_app_l, Ht.
Qed.

(** X14. [extract_text_from_pdf] never returns a text of white space
    only, and raises nothing but a [ValueError]: whatever pdfplumber,
    PyPDF2 and the OCR libraries do with the document, the result is a
    text with a character that is not white space, or a [ValueError]. *)
Theorem extracted_text_is_not_blank (pdf : Pdf) :
  match extract_text_from_pdf pdf with
  | Ok text => strip text <> []
  | Raise e => exists msg, e = ValueError msg
  end.
Proof.
  unfold extract_text_from_pdf.
  assert (Hfirst : Forall (fun x => strip x <> [])
            (fst (match plumber pdf with
                  | Ok pages => plumber_pages pages [] false
                  | Raise _ => ([], false)
                  end))).
  { destruct (plumber pdf); [apply plumber_pages_text|]; constructor. }
  destruct (match plumber pdf with
            | Ok pages => plumber_pages pages [] false
            | Raise _ => ([], false)
            end) as [tc ok]. cbn [fst] in Hfirst.
  assert (Hsecond :
    match (if negb ok || (len tc =? 0) then pypdf2_attempt pdf tc ok
           else Ok tc) with
    | Ok tc' => Forall (fun x => strip x <> []) tc'
    | Raise e => exists msg, e = ValueError msg
    end).
  { destruct (negb ok || (len tc =? 0));
      [apply pypdf2_attempt_text|]; exact Hfirst. }
  destruct (if negb ok || (len tc =? 0) then pypdf2_attempt pdf tc ok
            else Ok tc) as [tc'|e]; cbn [bind]; [|exact Hsecond].
  destruct tc' as [|t ts]; [apply ocr_attempt_text|].
  apply join_text. inversion Hsecond; assumption.
Qed.

Lemma plumber_pages_read (texts : list (list N)) (tail : list page)
    (tc : list (list N)) (ok : bool) :
  Forall (fun t => strip t <> []) texts -> reading_ends tail ->
  plumber_pages (map read texts ++ tail) tc ok
  = (tc ++ texts, ok || negb (len texts =? 0)).
Proof.
  intros Htexts Htail. revert tc ok.
  induction Htexts as [|t texts Ht _ IH]; intros tc ok.
  - cbn [map app]. rewrite app_nil_r.
    change (negb (len (@nil (list N)) =? 0)) with false.
    rewrite orb_false_r.
    destruct tail as [|[pt|e] tail]; [reflexivity | contradiction | reflexivity].
  - cbn [map app plumber_pages read]. rewrite (has_text_of_text t Ht).
    rewrite IH, <- app_assoc. cbn [app]. f_equal.
    rewrite orb_true_l.
    unfold len. cbn [length]. destruct ok; reflexivity.
Qed.

(** X15. What pdfplumber reads is final: when it reads a text that is
    not blank on each of the first pages, and then reaches the end of
    the document or fails on a page, the result is these texts joined by
    an empty line. PyPDF2 and OCR are not tried, and the pages after a
    failing one are left out without an error. *)
Theorem plumber_text_is_final (pdf : Pdf) (texts : list (list N))
    (tail : list page) :
  plumber pdf = Ok (map read texts ++ tail) ->
  texts <> [] -> Forall (fun t => strip t <> []) texts ->
  reading_ends tail ->
  extract_text_from_pdf pdf = Ok (join paragraph texts).
Proof.
  intros Hpdf Hne Htexts Htail. unfold extract_text_from_pdf.
  rewrite Hpdf, (plumber_pages_read texts tail [] false Htexts Htail).
  cbn [app orb]. destruct texts as [|t ts]; [congruence|].
  reflexivity.
Qed.

Lemma plumber_text_is_final_witness :
  extract_text_from_pdf half_read
  = Ok (join paragraph [lit "Page one"; lit "Page two"]).
Proof.
  apply (plumber_text_is_final half_read [lit "Page one"; lit "Page two"]
           [Raise (Exception (lit "bad page")); read (lit "Page four")]
           eq_refl).
  - discriminate.
  - repeat constructor; vm_compute; discriminate.
  - exact I.
Defined.

End ExtractFacts.

(** ** The routes *)

Module RoutesFacts.

Import Chunker Pinecone LLM Ingest Extract Routes Statements Vocabulary.

(** The dictionary of an analysis always has its three entries. *)
Lemma analysis_entries (llm : LLM.Model) (symptoms : list N)
    (context : option (list (list N))) :
  exists d calls c r s,
    generate_symptom_analysis llm symptoms context [] = (Ok d, calls) /\
    entries d = Ok (c, r, s).
Proof.
  rewrite InvokerFacts.generate_of_ask.
  destruct (ask llm _ []) as [[a|e] calls].
  - exists (analysis_dict a), calls. do 3 eexists. split; [reflexivity|].
    unfold entries.
    destruct (InvokerMore.analysis_dict_entries a) as (H1 & H2 & H3).
    rewrite H1, H2, H3. reflexivity.
  - exists (analysis_dict fallback_analysis), calls. do 3 eexists.
    split; [reflexivity|]. unfold entries.
    destruct (InvokerMore.analysis_dict_entries fallback_analysis)
      as (H1 & H2 & H3).
    rewrite H1, H2, H3. reflexivity.
Qed.

(** *** Getting the services *)

(** Getting one service leaves the two others as they are. *)
Lemma get_db_frame (d : Deployment) (g : Services) :
  _llm_service (snd (get_db_service d g)) = _llm_service g /\
  _pinecone_service (snd (get_db_service d g)) = _pinecone_service g.
Proof.
  unfold get_db_service. destruct (_db_service g); [split; reflexivity|].
  destruct (new_db d); split; reflexivity.
Qed.

Lemma get_llm_frame (d : Deployment) (g : Services) :
  _db_service (snd (get_llm_service d g)) = _db_service g /\
  _pinecone_service (snd (get_llm_service d g)) = _pinecone_service g.
Proof.
  unfold get_llm_service. destruct (_llm_service g); [split; reflexivity|].
  destruct (new_llm d); split; reflexivity.
Qed.

Lemma get_pinecone_frame (d : Deployment) (g : Services) :
  _db_service (snd (get_pinecone_service d g)) = _db_service g /\
  _llm_service (snd (get_pinecone_service d g)) = _llm_service g.
Proof.
  unfold get_pinecone_service.
  destruct (_pinecone_service g); [split; reflexivity|].
  destruct (new_client d); split; reflexivity.
Qed.

(** What a getter returns depends on its own service only. *)
Lemma get_db_of (d : Deployment) (g g' : Services) :
  _db_service g = _db_service g' ->
  fst (get_db_service d g) = fst (get_db_service d g').
Proof.
  unfold get_db_service. intros ->. destruct (_db_service g'); [reflexivity|].
  destruct (new_db d); reflexivity.
Qed.

Lemma get_llm_of (d : Deployment) (g g' : Services) :
  _llm_service g = _llm_service g' ->
  fst (get_llm_service d g) = fst (get_llm_service d g').
Proof.
  unfold get_llm_service. intros ->.
  destruct (_llm_service g'); [reflexivity|].
  destruct (new_llm d); reflexivity.
Qed.

Lemma get_pinecone_of (d : Deployment) (g g' : Services) :
  _pinecone_service g = _pinecone_service g' ->
  fst (get_pinecone_service d g) = fst (get_pinecone_service d g').
Proof.
  unfold get_pinecone_service. intros ->.
  destruct (_pinecone_service g'); [reflexivity|].
  destruct (new_client d); reflexivity.
Qed.

(** The three getters of the analysis routes, one after the other. *)
Lemma get_services (d : Deployment) (g : Services) :
  let g1 := snd (get_db_service d g) in
  let g2 := snd (get_llm_service d g1) in
  fst (get_llm_service d g1) = fst (get_llm_service d g) /\
  fst (get_pinecone_service d g2) = fst (get_pinecone_service d g).
Proof.
  intros g1 g2. subst g1 g2.
  destruct (get_db_frame d g) as [Hl Hp].
  destruct (get_llm_frame d (snd (get_db_service d g))) as [_ Hp'].
  split; [apply get_llm_of, Hl | apply get_pinecone_of; congruence].
Qed.

(** X16. [POST /api/symptoms/analyze-with-pdf] answers 500 whenever the
    entry cannot be written to the history (no connection to MongoDB,
    or a failing insert), whatever the analysis gave:
    [save_symptom_history] returns [None], and the response model
    refuses [None] as [query_id].  A service that cannot be made is
    answered 500 as well. *)
Theorem pdf_route_needs_history (env : Env) (d : Deployment)
    (str_of : mval -> list N) (g : Services) (remote : Remote)
    (user_id symptoms : list N) :
  (forall db, fst (get_db_service d g) = Ok db -> no_history db) ->
  exists detail,
    fst (analyze_symptoms_with_pdf_rag env d str_of g remote
           user_id symptoms)
    = HTTPException 500 detail.
Proof.
  intros Hdb. unfold analyze_symptoms_with_pdf_rag.
  destruct (get_db_service d g) as [[db|e] g1]; [|eexists; reflexivity].
  specialize (Hdb db eq_refl).
  destruct (get_llm_service d g1) as [[llm|e] g2]; [|eexists; reflexivity].
  destruct (get_pinecone_service d g2) as [[self|e] g3];
    [|eexists; reflexivity].
  destruct (generate_embedding env self symptoms) as [[v|e] self'].
  2: { eexists. reflexivity. }
  destruct (RetrieverFacts.search_never_raises self' v 5) as [_ [l1 H1]].
  destruct (RetrieverFacts.search_never_raises self' v 3) as [[l2 H2] _].
  rewrite H1, H2. cbn [bind].
  destruct (analysis_entries llm symptoms
              (or_none (combined_context str_of l1 l2)))
    as (a & calls & c & r & sev & Hgen & Hent).
  rewrite Hgen. cbn [bind]. rewrite Hent, Hdb. cbn [respond].
  eexists. reflexivity.
Qed.

Lemma pdf_route_needs_history_witness :
  exists detail,
    fst (analyze_symptoms_with_pdf_rag with_model without_mongo plain_str
           no_services open_remote (lit "u1") (lit "headache"))
    = HTTPException 500 detail.
Proof.
  apply (pdf_route_needs_history with_model without_mongo plain_str
           no_services open_remote (lit "u1") (lit "headache")).
  intros db [= <-] doc. reflexivity.
Defined.

(** X17. [POST /api/symptoms/analyze] answers whenever its three
    services can be had and the symptoms can be embedded: neither a
    failing search, nor a failing call of the model, nor a missing
    history, nor a refused upsert makes it fail.  The answer repeats the
    symptoms, and its [query_id] is never empty: it is [no-id] when the
    entry could not be written to the history. *)
Theorem analyze_answers (env : Env) (d : Deployment)
    (md5_hex : list Z -> list N) (str_of : mval -> list N)
    (g : Services) (remote : Remote) (user_id symptoms : list N)
    (db : DatabaseService) (llm : LLM.Model) (self : PineconeService) :
  fst (get_db_service d g) = Ok db ->
  fst (get_llm_service d g) = Ok llm ->
  fst (get_pinecone_service d g) = Ok self ->
  (exists v, fst (generate_embedding env self symptoms) = Ok v) ->
  exists r,
    fst (analyze_symptoms env d md5_hex str_of g remote user_id symptoms)
    = Answer r /\
    r_symptoms r = symptoms /\
    query_id r <> [] /\
    (no_history db -> query_id r = lit "no-id").
Proof.
  intros Hdb Hllm Hpc [v Hv]. unfold analyze_symptoms.
  destruct (get_services d g) as [E2 E3]. rewrite Hllm in E2.
  rewrite Hpc in E3.
  destruct (get_db_service d g) as [r1 g1]. cbn [fst snd] in *. subst r1.
  destruct (get_llm_service d g1) as [r2 g2]. cbn [fst snd] in *. subst r2.
  destruct (get_pinecone_service d g2) as [r3 g3]. cbn [fst] in E3. subst r3.
  destruct (generate_embedding env self symptoms) as [r0 self'].
  cbn [fst] in Hv. subst r0.
  destruct (RetrieverFacts.search_never_raises self' v 3) as [[l H] _].
  rewrite H.
  destruct (analysis_entries llm symptoms
              (or_none (map (similar_case str_of) l)))
    as (a & calls & c & r & sev & Hgen & Hent).
  rewrite Hgen. cbn [bind]. rewrite Hent. cbn [respond fst].
  eexists. split; [reflexivity|]. cbn [r_symptoms query_id].
  split; [reflexivity|]. split.
  - destruct (save_symptom_history db _) as [[|x id]|]; discriminate.
  - intros Hno. rewrite Hno. reflexivity.
Qed.

Lemma analyze_answers_witness :
  exists r,
    fst (analyze_symptoms with_model without_mongo (fun _ => lit "0")
           plain_str no_services open_remote (lit "u1") (lit "headache"))
    = Answer r /\
    r_symptoms r = lit "headache" /\
    query_id r <> [] /\
    (no_history offline_db -> query_id r = lit "no-id").
Proof.
  apply (analyze_answers with_model without_mongo (fun _ => lit "0")
           plain_str no_services open_remote (lit "u1") (lit "headache")
           offline_db terse_model
           (__init__ (mk_client ∅ (fun _ => false) (fun _ => idle_index))
                     (lit "healthchecker"))).
  - reflexivity.
  - reflexivity.
  - reflexivity.
  - exists [Qmake 1 2; Qmake 1 3]. reflexivity.
Defined.

(** *** Storing the chunks of a document *)

Lemma generate_embedding_index (env : Env) (self : PineconeService)
    (text : list N) :
  index (snd (generate_embedding env self text)) = index self.
Proof.
  unfold generate_embedding, primary.
  destruct (sentence_transformers env) as [st|]; [|reflexivity].
  destruct (_embedding_model self) as [m|].
  - destruct (encode m text) as [v|[]]; reflexivity.
  - destruct (st _) as [m|[]]; try reflexivity.
    destruct (encode m text) as [v|[]]; reflexivity.
Qed.

Lemma len_cons {A} (x : A) (l : list A) : len (x :: l) = len l + 1.
Proof. unfold len. cbn [length]. lia. Qed.

Lemma store_chunks_count (env : Env) (pdf_id name : list N)
    (chunks : list (list N)) :
  forall (self : PineconeService) (remote : Remote) (i : nat) (n : Z),
    n <= fst (fst (store_chunks env self remote pdf_id name chunks i n))
      <= n + len chunks.
Proof.
  induction chunks as [|chunk rest IH]; intros self remote i n.
  - cbn [store_chunks fst]. unfold len. cbn [length]. lia.
  - cbn [store_chunks]. rewrite len_cons.
    destruct (generate_embedding env self chunk) as [[v|e] self'].
    + destruct (add_pdf_chunk self' remote chunk (chunk_id pdf_id i) name v)
        as [[u|e] remote'].
      * specialize (IH self' remote' (S i) (n + 1)). lia.
      * specialize (IH self' remote' (S i) n). lia.
    + specialize (IH self' remote (S i) n). lia.
Qed.

Lemma chunk_text_returns (text : list N) :
  exists chunks,
    chunk_text (length text) text 1000 200 = Some (Ok chunks) /\
    len chunks <= Z.max 1 (len text).
Proof.
  unfold chunk_text. destruct (len text <=? 1000) eqn:E.
  - eexists. split; [reflexivity|]. unfold len. cbn [length]. lia.
  - apply Z.leb_gt in E.
    destruct (ChunkerMore.windows_bounded text 1000 200 ltac:(lia) ltac:(lia)
                ltac:(lia) (length text) 0)
      as (ws & Hws & _ & Hcount & _); [lia | unfold len; lia |].
    rewrite ChunkerFacts.chunk_loop_windows, Hws.
    eexists. split; [reflexivity|].
    cbn [app]. unfold len in *. rewrite length_map. lia.
Qed.

(** X18. [POST /api/symptoms/upload-pdf] returns, and answers 200, 400
    or 500.  It answers 500 only when the upload cannot be read or one
    of its two services cannot be made; otherwise a refusal (no name, a
    name that does not end in [.pdf], no bytes, no text) is a 400.  No
    refusal writes to the index.  An answer names the file, gives the
    length of the text, which is not 0, and counts between 0 and that
    many chunks as processed. *)
Theorem upload_answers (env : Env) (d : Deployment) (g : Services)
    (remote : Remote) (pdf_id : list N) (pdf : Upload) :
  exists fuel out g' remote',
    upload_pdf fuel env d g remote pdf_id pdf = Some (out, g', remote') /\
    match out with
    | Answer u =>
        filename pdf = Some (u_filename u) /\
        0 < total_text_length u /\
        0 <= chunks_processed u <= total_text_length u
    | HTTPException status_code _ =>
        remote' = remote /\
        (status_code = 400 \/
         status_code = 500 /\ ~ upload_ready d g pdf)
    end.
Proof.
  exists (match Routes.read pdf with
          | Ok b =>
              match extract_text_from_pdf (document b) with
              | Ok t => length t
              | Raise _ => 0%nat
              end
          | Raise _ => 0%nat
          end).
  unfold upload_pdf.
  destruct (filename pdf) as [[|x name]|];
    [do 3 eexists; split; [reflexivity | split; [reflexivity | left; reflexivity]]
    | |
     do 3 eexists; split; [reflexivity | split; [reflexivity | left; reflexivity]]].
  destruct (negb (endswith (lower (x :: name)) (lit ".pdf")));
    [do 3 eexists; split; [reflexivity | split; [reflexivity | left; reflexivity]]|].
  destruct (Routes.read pdf) as [b|e] eqn:Hread.
  2: { do 3 eexists. split; [reflexivity|]. unfold upload_error.
       destruct (is_value_error e);
         (split; [reflexivity|]); [left; reflexivity|].
       right. split; [reflexivity|].
       intros ([b Hb] & _). rewrite Hread in Hb. discriminate. }
  destruct (n_bytes b =? 0);
    [do 3 eexists; split; [reflexivity | split; [reflexivity | left; reflexivity]]|].
  destruct (extract_text_from_pdf (document b)) as [t|e].
  2: { destruct (is_value_error e); do 3 eexists;
         (split; [reflexivity | split; [reflexivity | left; reflexivity]]). }
  destruct (len t =? 0) eqn:E0; cbn [orb];
    [do 3 eexists; split; [reflexivity | split; [reflexivity | left; reflexivity]]|].
  destruct (len (strip t) =? 0);
    [do 3 eexists; split; [reflexivity | split; [reflexivity | left; reflexivity]]|].
  destruct (chunk_text_returns t) as (chunks & Hchunks & Hcount).
  rewrite Hchunks.
  destruct (get_pinecone_frame d g) as [Fdb _].
  destruct (get_pinecone_service d g) as [[self|e] g1] eqn:Hpc.
  2: { do 3 eexists. split; [reflexivity|]. unfold upload_error.
       destruct (is_value_error e);
         (split; [reflexivity|]); [left; reflexivity|].
       right. split; [reflexivity|].
       intros (_ & [s Hs] & _). rewrite Hpc in Hs. discriminate. }
  cbn [snd] in Fdb.
  pose proof (get_db_of d g1 g Fdb) as Hsame.
  destruct (get_db_service d g1) as [[db|e] g2].
  2: { do 3 eexists. split; [reflexivity|]. unfold upload_error.
       destruct (is_value_error e);
         (split; [reflexivity|]); [left; reflexivity|].
       right. split; [reflexivity|].
       intros (_ & _ & [db Hdb]). cbn [fst] in Hsame.
       rewrite <- Hsame in Hdb. discriminate. }
  pose proof (store_chunks_count env pdf_id (x :: name) chunks self remote
                0%nat 0) as Hn.
  destruct (store_chunks env self remote pdf_id (x :: name) chunks 0 0)
    as [[n self'] remote'].
  cbn [fst] in Hn. apply Z.eqb_neq in E0.
  assert (0 <= len t) by (unfold len; lia).
  do 3 eexists. split; [reflexivity|].
  cbn [u_filename total_text_length chunks_processed].
  split; [reflexivity|]. lia.
Qed.

(** X19. With no index, the loop of the upload route counts every chunk
    it can embed as stored, although [add_pdf_chunk] writes nothing:
    when every embedding of the loop succeeds, the count grows by the
    number of chunks and the index is as before. *)
Theorem missing_index_counts_chunks (env : Env) (pdf_id name : list N)
    (chunks : list (list N)) (self : PineconeService) (remote : Remote)
    (i : nat) (n : Z) :
  index self = None -> embeds env self chunks ->
  exists self',
    store_chunks env self remote pdf_id name chunks i n
    = (n + len chunks, self', remote) /\
    index self' = None.
Proof.
  revert self i n. induction chunks as [|chunk rest IH];
    intros self i n Hix Hemb.
  - exists self. cbn [store_chunks]. unfold len. cbn [length].
    rewrite Z.add_0_r. split; [reflexivity | exact Hix].
  - cbn [store_chunks]. cbn [embeds] in Hemb.
    destruct Hemb as [[v Hv] Hrest].
    pose proof (generate_embedding_index env self chunk) as Hkeep.
    destruct (generate_embedding env self chunk) as [r self1].
    cbn [fst snd] in Hv, Hkeep, Hrest. subst r. rewrite Hix in Hkeep.
    unfold add_pdf_chunk. rewrite Hkeep.
    destruct (IH self1 (S i) (n + 1) Hkeep Hrest) as (self' & Hrun & Hix').
    exists self'. rewrite Hrun, len_cons. split; [f_equal; f_equal; lia|].
    exact Hix'.
Qed.

Lemma missing_index_counts_chunks_witness :
  exists self',
    store_chunks with_steady_model lost_service open_remote
      (lit "doc") (lit "advice.pdf") [lit "Drink water."; lit "Rest."] 0 0
    = (0 + len [lit "Drink water."; lit "Rest."], self', open_remote) /\
    index self' = None.
Proof.
  apply (missing_index_counts_chunks with_steady_model (lit "doc")
           (lit "advice.pdf") [lit "Drink water."; lit "Rest."]
           lost_service open_remote 0%nat 0).
  - reflexivity.
  - cbn [embeds]. repeat split; eexists; reflexivity.
Defined.

(** [str(i)] tells the indices apart. *)
Lemma lit_inj (a b : string) : lit a = lit b -> a = b.
Proof.
  unfold lit. intros H.
  rewrite <- (string_of_list_ascii_of_string a),
          <- (string_of_list_ascii_of_string b).
  f_equal. revert H.
  generalize (list_ascii_of_string a), (list_ascii_of_string b).
  induction l as [|x l IH]; intros [|y l']; cbn [map]; try discriminate;
    [reflexivity|].
  intros H. injection H as Hxy Hl.
  f_equal; [|apply IH, Hl].
  rewrite <- (ascii_N_embedding x), <- (ascii_N_embedding y), Hxy.
  reflexivity.
Qed.

Lemma chunk_id_inj (pdf_id : list N) (i j : nat) :
  chunk_id pdf_id i = chunk_id pdf_id j -> i = j.
Proof.
  unfold chunk_id, str_of_nat. intros H.
  apply app_inv_head, app_inv_head, lit_inj in H.
  apply (f_equal NilEmpty.uint_of_string) in H.
  rewrite !NilEmpty.usu in H. injection H as H.
  apply (f_equal Nat.of_uint) in H.
  rewrite !DecimalNat.Unsigned.of_to in H. exact H.
Qed.

Lemma store_chunks_held (env : Env) (ix : Index) (pdf_id name : list N)
    (chunks : list (list N)) :
  forall (self : PineconeService) (remote : Remote) (i : nat) (n : Z),
    embeds env self chunks ->
    index self = Some ix -> accepting remote ->
    exists self' remote',
      store_chunks env self remote pdf_id name chunks i n
      = (n + len chunks, self', remote') /\
      (forall id, (forall k, id <> chunk_id pdf_id (i + k)) ->
                  held remote' !! id = held remote !! id) /\
      (forall k chunk, nth_error chunks k = Some chunk ->
         exists v md,
           held remote' !! chunk_id pdf_id (i + k) = Some (v, md) /\
           stored_text md = Some (firstn 500 chunk)).
Proof.
  induction chunks as [|chunk rest IH]; intros self remote i n Hemb Hix Hacc.
  - exists self, remote. cbn [store_chunks]. unfold len. cbn [length].
    rewrite Z.add_0_r. split; [reflexivity|]. split; [reflexivity|].
    intros [|k] c H; discriminate H.
  - cbn [store_chunks]. cbn [embeds] in Hemb.
    destruct Hemb as [[v Hv] Hrest].
    pose proof (generate_embedding_index env self chunk) as Hkeep.
    destruct (generate_embedding env self chunk) as [r self1].
    cbn [fst snd] in Hv, Hkeep, Hrest. subst r. rewrite Hix in Hkeep.
    unfold add_pdf_chunk, upsert. rewrite Hkeep, Hacc.
    set (remote1 := mk_remote _ (refuses remote)).
    destruct (IH self1 remote1 (S i) (n + 1) Hrest Hkeep Hacc)
      as (self' & remote' & Hrun & Hframe & Hheld).
    exists self', remote'. rewrite Hrun, len_cons.
    split; [f_equal; f_equal; lia|]. split.
    + intros id Hid. rewrite Hframe.
      * unfold remote1. cbn [held]. apply lookup_insert_ne.
        specialize (Hid 0%nat). rewrite Nat.add_0_r in Hid. congruence.
      * intros k. specialize (Hid (S k)).
        rewrite Nat.add_succ_r in Hid. exact Hid.
    + intros [|k] c Hc.
      * cbn [nth_error] in Hc. injection Hc as <-.
        rewrite Nat.add_0_r, Hframe.
        -- unfold remote1. cbn [held]. rewrite lookup_insert_eq.
           do 2 eexists. split; [reflexivity|].
           unfold stored_text, pdf_metadata. rewrite lookup_insert_eq.
           rewrite SliceFacts.slice_to_firstn by lia. reflexivity.
        -- intros k Heq. apply chunk_id_inj in Heq. lia.
      * cbn [nth_error] in Hc. rewrite Nat.add_succ_r.
        apply (Hheld k c Hc).
Qed.

(** X20. When the index takes every vector and every embedding of the
    loop succeeds, the loop of the upload route stores all the chunks:
    the count is their number, and chunk [k] is held under the id
    [<pdf_id>_chunk_<k>] with its first 500 characters as text; no
    chunk overwrites another. *)
Theorem stored_chunks_are_held (env : Env) (ix : Index)
    (pdf_id name : list N) (chunks : list (list N))
    (self : PineconeService) (remote : Remote) :
  index self = Some ix -> accepting remote -> embeds env self chunks ->
  exists self' remote',
    store_chunks env self remote pdf_id name chunks 0 0
    = (len chunks, self', remote') /\
    forall k chunk, nth_error chunks k = Some chunk ->
      exists v md,
        held remote' !! chunk_id pdf_id k = Some (v, md) /\
        stored_text md = Some (firstn 500 chunk).
Proof.
  intros Hix Hacc Hemb.
  destruct (store_chunks_held env ix pdf_id name chunks self remote
              0%nat 0 Hemb Hix Hacc) as (self' & remote' & Hrun & _ & Hheld).
  exists self', remote'. split; [exact Hrun|]. exact Hheld.
Qed.

Lemma stored_chunks_are_held_witness :
  exists self' remote',
    store_chunks with_steady_model some_service open_remote
      (lit "doc") (lit "advice.pdf") [lit "Drink water."; lit "Rest."] 0 0
    = (len [lit "Drink water."; lit "Rest."], self', remote') /\
    forall k chunk,
      nth_error [lit "Drink water."; lit "Rest."] k = Some chunk ->
      exists v md,
        held remote' !! chunk_id (lit "doc") k = Some (v, md) /\
        stored_text md = Some (firstn 500 chunk).
Proof.
  apply (stored_chunks_are_held with_steady_model
           (mk_index (fun _ _ => Ok [])) (lit "doc") (lit "advice.pdf")
           [lit "Drink water."; lit "Rest."] some_service open_remote).
  - reflexivity.
  - intros id v. reflexivity.
  - cbn [embeds]. repeat split; eexists; reflexivity.
Defined.

End RoutesFacts.
